(** * The generation orchestrator of index.tsx, embedded in Rocq

    The development follows the current version of [index.tsx] (the one that
    has the history ledger, the model selector and the gallery database).
    JavaScript values are modelled as the code uses them:

    - a JS string is a [string], one character per UTF-16 code unit; the
      only falsy string is the empty one;
    - [parseInt(numImagesInput.value, 10)] is a [JSNum]: [NaN] or an integer;
    - an exception is a [Throw] carrying the [message] of the error object;
    - the DOM, the module-level variables, localStorage and the record of
      the network calls issued so far form the [World] that every function
      threads through;
    - the remote services, the clock and the storage quota are an
      [Environment] of oracles, each indexed by the number of earlier calls
      of the same kind, so that the n-th answer of a service can be chosen
      freely;
    - an [async] function is run to completion where it is called: the
      page runs one orchestration at a time and awaits every call except
      the background save, which writes nothing the orchestrator reads.

    The messages of the errors raised by the JavaScript engine itself
    (TypeError, RangeError) are those of V8. *)

From Stdlib Require Import ZArith String Ascii List Bool Lia DecimalString.
From Stdlib Require DecimalPos DecimalZ.
From stdpp Require Import base list strings.

Open Scope string_scope.
Open Scope list_scope.
Open Scope Z_scope.

(* ------------------------------------------------------------------ *)
(** ** JavaScript values *)

(** The value of [parseInt(s, 10)]. *)
Inductive JSNum : Type :=
| NaN
| Int (z : Z).

(** [n > k] (a comparison with NaN is false). *)
Definition js_gt (n : JSNum) (k : Z) : bool :=
  match n with
  | NaN => false
  | Int z => k <? z
  end.

(** Template-literal rendering of a number. *)
Definition js_toString (n : JSNum) : string :=
  match n with
  | NaN => "NaN"
  | Int z => NilZero.string_of_int (Z.to_int z)
  end.

(** Truthiness of a string. *)
Definition truthy (s : string) : bool :=
  match s with
  | EmptyString => false
  | String _ _ => true
  end.

(** [a || b] on strings. *)
Definition js_or (a b : string) : string := if truthy a then a else b.

(** The double-quote character, for the HTML fragments that quote a prompt. *)
Definition dquote : string := String (ascii_of_nat 34) EmptyString.

(** [<p class="cls">body</p>]. *)
Definition pTag (cls body : string) : string :=
  "<p class=" +:+ dquote +:+ cls +:+ dquote +:+ ">" +:+ body +:+ "</p>".

(** Outcome of evaluating an expression: a value or a thrown error. *)
Inductive Result (A : Type) : Type :=
| Ok (a : A)
| Throw (message : string).
Arguments Ok {A} a.
Arguments Throw {A} message.

(** [JSON.parse(text)]: a SyntaxError, or the parsed value seen at the
    type the caller reads it at. *)
Inductive Parsed (A : Type) : Type :=
| SyntaxError (message : string)
| Parses (v : A).
Arguments SyntaxError {A} message.
Arguments Parses {A} v.

(* ------------------------------------------------------------------ *)
(** ** Data of the program *)

(** [GeneratedImage] of the SDK, flattened: [image.imageBytes] and
    [image.mimeType]. *)
Record GeneratedImage : Type := {
  imageBytes : string;
  mimeType : string
}.

(** [part.inlineData]; an absent [data] or [mimeType] is the empty string. *)
Record InlineData : Type := {
  data : string;
  inlineMimeType : string
}.

(** One part of a multimodal response; an absent field is [None]. *)
Record Part : Type := {
  text : option string;
  inlineData : option InlineData
}.

Module HistoryItem.
(** [interface HistoryItem]. *)
Record t : Type := {
  id : Z;
  prompt : string;
  model : string;
  thumbnail : string;
  timestamp : Z
}.
End HistoryItem.

(** The value [JSON.parse] gives for the diversifier's answer: [null]
    (reading [.prompts] throws), a value whose [prompts] is missing, falsy
    or not an array, or one whose [prompts] is an array of strings. *)
Inductive DiverseJson : Type :=
| DivNull (typeError : string)
| DivNoArray
| DivArray (prompts : list string).

(** The value [JSON.parse] gives for the classifier's answer: [null], or a
    value read through its [title] and [category] fields. *)
Inductive MetaJson : Type :=
| MetaNull
| MetaFields (title category : option string).

(** Body of the POST to the gallery database. *)
Record Payload : Type := {
  p_title : option string;
  p_prompt : string;
  p_category : option string;
  p_model : string;
  p_caption : string;
  p_imageData : string
}.

(** Every request that leaves the browser. *)
Inductive Call : Type :=
| CallDiversify (basePrompt : string) (count : JSNum)
| CallMultimodal (prompt : string)
| CallImagen (model prompt : string) (numberOfImages : JSNum)
| CallCaption (base64ImageData imagePrompt : string)
| CallMetadata (prompt : string)
| CallDatabase (body : Payload).

Inductive CallKind : Type :=
| KDiversify | KMultimodal | KImagen | KCaption | KMetadata | KDatabase.

Definition kindOf (c : Call) : CallKind :=
  match c with
  | CallDiversify _ _ => KDiversify
  | CallMultimodal _ => KMultimodal
  | CallImagen _ _ _ => KImagen
  | CallCaption _ _ => KCaption
  | CallMetadata _ => KMetadata
  | CallDatabase _ => KDatabase
  end.

Definition sameKind (a b : CallKind) : bool :=
  match a, b with
  | KDiversify, KDiversify | KMultimodal, KMultimodal | KImagen, KImagen
  | KCaption, KCaption | KMetadata, KMetadata | KDatabase, KDatabase => true
  | _, _ => false
  end.

(** What [img.onload] is bound to once [populateImageContainer] returns. *)
Inductive OnLoad : Type :=
| FinishLoading
| CaptionThenFinish.

(** One [div.image-container] of the gallery. *)
Inductive Slot : Type :=
| SlotLoading
| SlotImage (bytes alt caption : string) (loading : bool) (onload : option OnLoad)
| SlotHtml (html : string).

Inductive Progress : Type :=
| ProgressHidden
| Determinate (current total : Z)
| Indeterminate (label : string).

(** The text under [HISTORY_STORAGE_KEY]: what [saveHistory] wrote (JSON of
    an array of items), JSON of a value on which [renderHistory] throws
    ([null], a number, a boolean, a non-empty string, an object whose
    [length] is not 0, an array with a [null] entry), text that is not
    JSON, or the empty text. The worlds below hold an array of items in
    [generationHistory] at all times; a stored value that [renderHistory]
    accepts although it is no such array (the empty string, an object
    whose [length] is 0, an array of other values than items) would be
    kept by [loadHistory] as it is, and is not among the stored texts
    covered here. *)
Inductive StoredText : Type :=
| JsonLedger (items : list HistoryItem.t)
| JsonOther
| NotJson
| EmptyText.

(* ------------------------------------------------------------------ *)
(** ** The world the functions run in *)

(** Module-level variables, the DOM elements the orchestrator writes, the
    storage entry of the ledger and the log of issued requests (newest
    first).  [allGeneratedImages] is the local array of [generateImages]:
    it is kept here because a [push] survives an exception thrown later in
    the same [try] block.  [placeholders] are the image containers created
    by the current run; [imageGallery] either shows them or a message. *)
Record World : Type := {
  calls : list Call;
  clockReads : nat;
  setItemCalls : nat;
  localStorage : option StoredText;
  totalGeneratedCount : Z;
  generationHistory : list HistoryItem.t;
  allGeneratedImages : list GeneratedImage;
  placeholders : list Slot;
  imageGallery : option string;
  errorBanner : option string;
  downloadHidden : bool;
  generateButton : string * bool;
  progress : Progress;
  uiCounts : Z * Z
}.

(** Field updates. [imageGallery = None] means that the children of the
    gallery are the [placeholders]; [Some html] is its [innerHTML] after a
    message was written.  [errorBanner = None] is the hidden banner.
    [generateButton] is (textContent, disabled); [uiCounts] is
    (galleryCountSpan, totalGeneratedCountSpan). *)
Definition set_calls (v : list Call) (w : World) : World :=
  {| calls := v; clockReads := clockReads w; setItemCalls := setItemCalls w; localStorage := localStorage w;
     totalGeneratedCount := totalGeneratedCount w; generationHistory := generationHistory w;
     allGeneratedImages := allGeneratedImages w; placeholders := placeholders w; imageGallery := imageGallery w;
     errorBanner := errorBanner w; downloadHidden := downloadHidden w; generateButton := generateButton w;
     progress := progress w; uiCounts := uiCounts w |}.
Definition set_clockReads (v : nat) (w : World) : World :=
  {| calls := calls w; clockReads := v; setItemCalls := setItemCalls w; localStorage := localStorage w;
     totalGeneratedCount := totalGeneratedCount w; generationHistory := generationHistory w;
     allGeneratedImages := allGeneratedImages w; placeholders := placeholders w; imageGallery := imageGallery w;
     errorBanner := errorBanner w; downloadHidden := downloadHidden w; generateButton := generateButton w;
     progress := progress w; uiCounts := uiCounts w |}.
Definition set_setItemCalls (v : nat) (w : World) : World :=
  {| calls := calls w; clockReads := clockReads w; setItemCalls := v; localStorage := localStorage w;
     totalGeneratedCount := totalGeneratedCount w; generationHistory := generationHistory w;
     allGeneratedImages := allGeneratedImages w; placeholders := placeholders w; imageGallery := imageGallery w;
     errorBanner := errorBanner w; downloadHidden := downloadHidden w; generateButton := generateButton w;
     progress := progress w; uiCounts := uiCounts w |}.
Definition set_localStorage (v : option StoredText) (w : World) : World :=
  {| calls := calls w; clockReads := clockReads w; setItemCalls := setItemCalls w; localStorage := v;
     totalGeneratedCount := totalGeneratedCount w; generationHistory := generationHistory w;
     allGeneratedImages := allGeneratedImages w; placeholders := placeholders w; imageGallery := imageGallery w;
     errorBanner := errorBanner w; downloadHidden := downloadHidden w; generateButton := generateButton w;
     progress := progress w; uiCounts := uiCounts w |}.
Definition set_totalGeneratedCount (v : Z) (w : World) : World :=
  {| calls := calls w; clockReads := clockReads w; setItemCalls := setItemCalls w; localStorage := localStorage w;
     totalGeneratedCount := v; generationHistory := generationHistory w;
     allGeneratedImages := allGeneratedImages w; placeholders := placeholders w; imageGallery := imageGallery w;
     errorBanner := errorBanner w; downloadHidden := downloadHidden w; generateButton := generateButton w;
     progress := progress w; uiCounts := uiCounts w |}.
Definition set_generationHistory (v : list HistoryItem.t) (w : World) : World :=
  {| calls := calls w; clockReads := clockReads w; setItemCalls := setItemCalls w; localStorage := localStorage w;
     totalGeneratedCount := totalGeneratedCount w; generationHistory := v;
     allGeneratedImages := allGeneratedImages w; placeholders := placeholders w; imageGallery := imageGallery w;
     errorBanner := errorBanner w; downloadHidden := downloadHidden w; generateButton := generateButton w;
     progress := progress w; uiCounts := uiCounts w |}.
Definition set_allGeneratedImages (v : list GeneratedImage) (w : World) : World :=
  {| calls := calls w; clockReads := clockReads w; setItemCalls := setItemCalls w; localStorage := localStorage w;
     totalGeneratedCount := totalGeneratedCount w; generationHistory := generationHistory w;
     allGeneratedImages := v; placeholders := placeholders w; imageGallery := imageGallery w;
     errorBanner := errorBanner w; downloadHidden := downloadHidden w; generateButton := generateButton w;
     progress := progress w; uiCounts := uiCounts w |}.
Definition set_placeholders (v : list Slot) (w : World) : World :=
  {| calls := calls w; clockReads := clockReads w; setItemCalls := setItemCalls w; localStorage := localStorage w;
     totalGeneratedCount := totalGeneratedCount w; generationHistory := generationHistory w;
     allGeneratedImages := allGeneratedImages w; placeholders := v; imageGallery := imageGallery w;
     errorBanner := errorBanner w; downloadHidden := downloadHidden w; generateButton := generateButton w;
     progress := progress w; uiCounts := uiCounts w |}.
Definition set_imageGallery (v : option string) (w : World) : World :=
  {| calls := calls w; clockReads := clockReads w; setItemCalls := setItemCalls w; localStorage := localStorage w;
     totalGeneratedCount := totalGeneratedCount w; generationHistory := generationHistory w;
     allGeneratedImages := allGeneratedImages w; placeholders := placeholders w; imageGallery := v;
     errorBanner := errorBanner w; downloadHidden := downloadHidden w; generateButton := generateButton w;
     progress := progress w; uiCounts := uiCounts w |}.
Definition set_errorBanner (v : option string) (w : World) : World :=
  {| calls := calls w; clockReads := clockReads w; setItemCalls := setItemCalls w; localStorage := localStorage w;
     totalGeneratedCount := totalGeneratedCount w; generationHistory := generationHistory w;
     allGeneratedImages := allGeneratedImages w; placeholders := placeholders w; imageGallery := imageGallery w;
     errorBanner := v; downloadHidden := downloadHidden w; generateButton := generateButton w;
     progress := progress w; uiCounts := uiCounts w |}.
Definition set_downloadHidden (v : bool) (w : World) : World :=
  {| calls := calls w; clockReads := clockReads w; setItemCalls := setItemCalls w; localStorage := localStorage w;
     totalGeneratedCount := totalGeneratedCount w; generationHistory := generationHistory w;
     allGeneratedImages := allGeneratedImages w; placeholders := placeholders w; imageGallery := imageGallery w;
     errorBanner := errorBanner w; downloadHidden := v; generateButton := generateButton w;
     progress := progress w; uiCounts := uiCounts w |}.
Definition set_generateButton (v : string * bool) (w : World) : World :=
  {| calls := calls w; clockReads := clockReads w; setItemCalls := setItemCalls w; localStorage := localStorage w;
     totalGeneratedCount := totalGeneratedCount w; generationHistory := generationHistory w;
     allGeneratedImages := allGeneratedImages w; placeholders := placeholders w; imageGallery := imageGallery w;
     errorBanner := errorBanner w; downloadHidden := downloadHidden w; generateButton := v;
     progress := progress w; uiCounts := uiCounts w |}.
Definition set_progress (v : Progress) (w : World) : World :=
  {| calls := calls w; clockReads := clockReads w; setItemCalls := setItemCalls w; localStorage := localStorage w;
     totalGeneratedCount := totalGeneratedCount w; generationHistory := generationHistory w;
     allGeneratedImages := allGeneratedImages w; placeholders := placeholders w; imageGallery := imageGallery w;
     errorBanner := errorBanner w; downloadHidden := downloadHidden w; generateButton := generateButton w;
     progress := v; uiCounts := uiCounts w |}.
Definition set_uiCounts (v : Z * Z) (w : World) : World :=
  {| calls := calls w; clockReads := clockReads w; setItemCalls := setItemCalls w; localStorage := localStorage w;
     totalGeneratedCount := totalGeneratedCount w; generationHistory := generationHistory w;
     allGeneratedImages := allGeneratedImages w; placeholders := placeholders w; imageGallery := imageGallery w;
     errorBanner := errorBanner w; downloadHidden := downloadHidden w; generateButton := generateButton w;
     progress := progress w; uiCounts := v |}.

(** Requests of kind [k] issued so far. *)
Definition ncalls (k : CallKind) (w : World) : nat :=
  length (List.filter (fun c => sameKind (kindOf c) k) (calls w)).

(** The page as [initializeApp] leaves it with an empty storage. *)
Definition freshWorld : World :=
  {| calls := []; clockReads := 0; setItemCalls := 0; localStorage := None;
     totalGeneratedCount := 0; generationHistory := [];
     allGeneratedImages := []; placeholders := [];
     imageGallery := Some (pTag "placeholder" "Your generated images will appear here.");
     errorBanner := None; downloadHidden := true; generateButton := ("Generate", false);
     progress := ProgressHidden; uiCounts := (0, 0) |}.

(** The services the page talks to. The first argument of an oracle is
    the number of earlier requests of the same kind.
    - [multimodalApi] answers [response.candidates?.[0]?.content.parts]
      ([None] when it is undefined); a [Throw] is a rejected request or a
      first candidate without [content];
    - [imagenApi] answers [response.generatedImages] (undefined is []);
    - [captionApi] answers [response.text];
    - [setItemThrows] is the error of the n-th [localStorage.setItem], if
      it fails; [imgComplete] is [img.complete] right after [src] is set. *)
Record Environment : Type := {
  diversifyApi : nat -> string -> JSNum -> Result (Parsed DiverseJson);
  multimodalApi : nat -> string -> Result (option (list Part));
  imagenApi : nat -> string -> string -> JSNum -> Result (list GeneratedImage);
  captionApi : nat -> string -> string -> Result string;
  metadataApi : nat -> string -> Result (Parsed MetaJson);
  dateNow : nat -> Z;
  setItemThrows : nat -> option string;
  imgComplete : string -> bool
}.

(* ------------------------------------------------------------------ *)
(** ** State and exceptions *)

Definition M (A : Type) : Type := World -> Result A * World.

Definition ret {A : Type} (a : A) : M A := fun w => (Ok a, w).

Definition bind {A B : Type} (m : M A) (k : A -> M B) : M B :=
  fun w =>
    match m w with
    | (Ok a, w') => k a w'
    | (Throw e, w') => (Throw e, w')
    end.

Definition throw {A : Type} (message : string) : M A := fun w => (Throw message, w).

(** [try { body } catch (e) { handler(e.message) }]. *)
Definition try_catch {A : Type} (body : M A) (handler : string -> M A) : M A :=
  fun w =>
    match body w with
    | (Ok a, w') => (Ok a, w')
    | (Throw e, w') => handler e w'
    end.

(** [try { body } finally { fin }], for a [fin] that does not throw. *)
Definition try_finally {A : Type} (body : M A) (fin : World -> World) : M A :=
  fun w => let '(r, w') := body w in (r, fin w').

Definition modify (f : World -> World) : M unit := fun w => (Ok tt, f w).
Definition gets {A : Type} (f : World -> A) : M A := fun w => (Ok (f w), w).

Declare Scope js_scope.
Delimit Scope js_scope with js.
Notation "x <- m ;; k" := (bind m (fun x => k))
  (at level 100, m at next level, right associativity) : js_scope.
Notation "m ;;; k" := (bind m (fun _ => k))
  (at level 100, right associativity) : js_scope.
Open Scope js_scope.

(** Final world and outcome of a computation. *)
Definition exec {A : Type} (m : M A) (w : World) : World := snd (m w).
Definition outcome {A : Type} (m : M A) (w : World) : Result A := fst (m w).

(* ------------------------------------------------------------------ *)
(** ** The program *)

Section Program.

Variable env : Environment.

(** Issue a request: it is logged, and the oracle of its kind answers. *)
Definition request {A : Type} (c : Call) (answer : nat -> Result A) : M A :=
  fun w => (answer (ncalls (kindOf c) w), set_calls (c :: calls w) w).

(** [Date.now()]. *)
Definition now : M Z :=
  fun w => (Ok (dateNow env (clockReads w)), set_clockReads (S (clockReads w)) w).

(** *** Error banner and progress bar *)

Definition displayError (message : string) : M unit :=
  modify (set_errorBanner (Some ("An error occurred: " +:+ message))).

Definition hideError : M unit := modify (set_errorBanner None).

Definition updateUiCounts (galleryCount : Z) : M unit :=
  modify (fun w => set_uiCounts (galleryCount, totalGeneratedCount w) w).

Definition updateProgress (current total : Z) : M unit :=
  modify (set_progress (Determinate current total)).

Definition showIndeterminateProgress (message : string) : M unit :=
  modify (set_progress (Indeterminate message)).

Definition hideProgress (w : World) : World := set_progress ProgressHidden w.

(** *** Caption generation *)

Definition generateCaption (base64ImageData imagePrompt : string) : M string :=
  request (CallCaption base64ImageData imagePrompt)
          (fun n => captionApi env n base64ImageData imagePrompt).

(** *** Rendering one image *)

(** Run [k] on the container [placeholders[i]]; an undefined container
    makes the first property access throw a TypeError. *)
Definition withContainer (i : nat) (typeError : string) (k : Slot -> Slot) : M unit :=
  fun w =>
    match placeholders w !! i with
    | Some s => (Ok tt, set_placeholders (<[i := k s]> (placeholders w)) w)
    | None => (Throw typeError, w)
    end.

(** The container after [populateImageContainer]: with a truthy
    [pregeneratedCaption] the caption is final and only the [loading]
    class waits for the image; otherwise the caption is requested when the
    image has loaded. *)
Definition populated (imageData : GeneratedImage) (imagePrompt pregeneratedCaption : string) : Slot :=
  if truthy pregeneratedCaption then
    if imgComplete env (imageBytes imageData)
    then SlotImage (imageBytes imageData) imagePrompt pregeneratedCaption false None
    else SlotImage (imageBytes imageData) imagePrompt pregeneratedCaption true (Some FinishLoading)
  else SlotImage (imageBytes imageData) imagePrompt "Generating caption..." true (Some CaptionThenFinish).

Definition populateImageContainer (imageData : GeneratedImage) (container : nat)
    (imagePrompt pregeneratedCaption : string) : M unit :=
  withContainer container "Cannot read properties of undefined (reading 'append')"
    (fun _ => populated imageData imagePrompt pregeneratedCaption).

(** The [img.onload] handler of container [i] fires. *)
Definition imgOnload (i : nat) : M unit :=
  slot <- gets (fun w => placeholders w !! i) ;;
  match slot with
  | Some (SlotImage bytes alt caption _ (Some FinishLoading)) =>
      modify (fun w => set_placeholders
                (<[i := SlotImage bytes alt caption false (Some FinishLoading)]> (placeholders w)) w)
  | Some (SlotImage bytes alt _ _ (Some CaptionThenFinish)) =>
      captionText <- try_catch (generateCaption bytes alt)
                               (fun _ => ret "Could not generate caption.") ;;
      modify (fun w => set_placeholders
                (<[i := SlotImage bytes alt captionText false (Some CaptionThenFinish)]> (placeholders w)) w)
  | _ => ret tt
  end.

(** The [img.onerror] handler of container [i] fires. *)
Definition imgOnerror (i : nat) : M unit :=
  slot <- gets (fun w => placeholders w !! i) ;;
  match slot with
  | Some (SlotImage _ _ _ _ _) =>
      modify (fun w => set_placeholders
                (<[i := SlotHtml (pTag "image-caption" "Error loading image.")]> (placeholders w)) w)
  | _ => ret tt
  end.

(** *** History ledger *)

(** [renderHistory] redraws the list from [generationHistory]; the drawn
    list is a function of that variable and is not stored. *)
Definition renderHistory : M unit := ret tt.

Definition saveHistory : M unit :=
  try_catch
    (fun w =>
       let w' := set_setItemCalls (S (setItemCalls w)) w in
       match setItemThrows env (setItemCalls w) with
       | Some e => (Throw e, w')
       | None => (Ok tt, set_localStorage (Some (JsonLedger (generationHistory w))) w')
       end)
    (fun _ => displayError "Could not save history. Your browser's storage might be full.").

Definition loadHistory : M unit :=
  try_catch
    (savedHistory <- gets localStorage ;;
     match savedHistory with
     | Some (JsonLedger items) => modify (set_generationHistory items) ;;; renderHistory
     | Some JsonOther => throw "generationHistory.forEach is not a function"
     | Some NotJson => throw "Unexpected token"
     | Some EmptyText | None => renderHistory
     end)
    (fun _ => modify (set_generationHistory []) ;;; renderHistory).

Definition addToHistory (prompt model : string) (image : GeneratedImage) : M unit :=
  id <- now ;;
  timestamp <- now ;;
  let newItem := {| HistoryItem.id := id; HistoryItem.prompt := prompt; HistoryItem.model := model;
                    HistoryItem.thumbnail := imageBytes image; HistoryItem.timestamp := timestamp |} in
  modify (fun w => set_generationHistory (newItem :: generationHistory w) w) ;;;
  saveHistory ;;;
  renderHistory.

Definition clearHistory : M unit :=
  modify (set_generationHistory []) ;;;
  saveHistory ;;;
  renderHistory.

(** *** Gallery database *)

Definition fallbackMetadata (prompt : string) : MetaJson :=
  MetaFields (Some (substring 0 50 prompt)) (Some "Other").

Definition getImageMetadata (prompt : string) : M MetaJson :=
  try_catch
    (response <- request (CallMetadata prompt) (fun n => metadataApi env n prompt) ;;
     match response with
     | Parses v => ret v
     | SyntaxError e => throw e
     end)
    (fun _ => ret (fallbackMetadata prompt)).

(** The caller does not await this function: nothing below is read by the
    orchestrator again, only the log of requests grows. *)
Definition saveImageToDatabase (base64 prompt model caption : string) : M unit :=
  try_catch
    (metadata <- getImageMetadata prompt ;;
     match metadata with
     | MetaNull => throw "Cannot destructure property 'title' of null"
     | MetaFields title category =>
         request (CallDatabase {| p_title := title; p_prompt := prompt; p_category := category;
                                  p_model := model; p_caption := caption; p_imageData := base64 |})
                 (fun _ => Ok tt)
     end)
    (fun _ => ret tt).

(** *** Core calls *)

Definition invalidDiversePrompts : string := "Failed to generate a valid set of diverse prompts.".

Definition getDiversePrompts (basePrompt : string) (count : JSNum) : M (list string) :=
  response <- request (CallDiversify basePrompt count)
                      (fun n => diversifyApi env n basePrompt count) ;;
  match response with
  | SyntaxError e => throw e
  | Parses (DivNull e) => throw e
  | Parses DivNoArray => throw invalidDiversePrompts
  | Parses (DivArray prompts) =>
      if (0 <? length prompts)%nat then ret prompts else throw invalidDiversePrompts
  end.

(** What the page offers to [generateImages]: the values of the prompt
    box, of the number box after [parseInt], of the model selector and of
    the diversity checkbox. *)
Record Inputs : Type := {
  promptInput : string;
  numImagesInput : JSNum;
  generationModelSelect : string;
  diverseSubjectsCheckbox : bool
}.

Definition multimodalModel : string := "gemini-2.5-flash-image-preview".
Definition imagenModel : string := "imagen-4.0-generate-001".
Definition defaultCaption : string := "Caption not available.".
Definition noImageMessage : string := "Model did not return an image for this prompt.".

Definition failedSlot (currentPrompt : string) : Slot :=
  SlotHtml (pTag "image-caption"
              ("Failed to generate image for prompt: " +:+ dquote +:+ currentPrompt +:+ dquote)).

(** Iterations of [for (let i = 0; i < numberOfImages; i++)]: none for
    NaN and for a negative count, one per unit otherwise. The model
    follows the loop for every count; for a count of 2^32 or more the page
    would have to append that many elements before the code after the
    loop is reached, so what the model says there is about a run that no
    browser completes. *)
Definition iterations (numberOfImages : JSNum) : nat :=
  match numberOfImages with
  | NaN => 0%nat
  | Int z => Z.to_nat z
  end.

(** The loop that appends one loading container per requested image. *)
Fixpoint appendPlaceholders (n : nat) : M unit :=
  match n with
  | O => ret tt
  | S n' =>
      modify (fun w => set_placeholders (placeholders w ++ [SlotLoading]) w) ;;;
      appendPlaceholders n'
  end.

(** [Array(numberOfImages).fill(prompt)]. *)
Definition arrayFill (numberOfImages : JSNum) (prompt : string) : M (list string) :=
  match numberOfImages with
  | Int z =>
      if (0 <=? z) && (z <? 2 ^ 32)
      then ret (replicate (Z.to_nat z) prompt)
      else throw "Invalid array length"
  | NaN => throw "Invalid array length"
  end.

(** One step of the scan over the parts of a multimodal response. *)
Definition scanPart (acc : option string * string) (part : Part) : option string * string :=
  match text part with
  | Some (String c t) => (fst acc, String c t)
  | _ =>
      match inlineData part with
      | Some d => (Some (data d), snd acc)
      | None => acc
      end
  end.

(** [(imageBase64, captionText)] after the scan. *)
Definition scanParts (parts : option (list Part)) : option string * string :=
  match parts with
  | Some ps => fold_left scanPart ps (None, defaultCaption)
  | None => (None, defaultCaption)
  end.

(** [parts?.find(p => p.inlineData)?.inlineData?.mimeType || 'image/png']. *)
Definition responseMimeType (parts : option (list Part)) : string :=
  match parts with
  | Some ps =>
      match List.find (fun p => match inlineData p with Some _ => true | None => false end) ps with
      | Some p =>
          match inlineData p with
          | Some d => js_or (inlineMimeType d) "image/png"
          | None => "image/png"
          end
      | None => "image/png"
      end
  | None => "image/png"
  end.

Definition pushImage (imageData : GeneratedImage) : M unit :=
  modify (fun w => set_allGeneratedImages (allGeneratedImages w ++ [imageData]) w).

(** Body of the sequential loop for the multimodal model, at index [i]. *)
Definition multimodalUnit (selectedModel : string) (total : nat) (i : nat) (currentPrompt : string) : M unit :=
  updateProgress (Z.of_nat i + 1) (Z.of_nat total) ;;;
  try_catch
    (parts <- request (CallMultimodal currentPrompt) (fun n => multimodalApi env n currentPrompt) ;;
     let '(imageBase64, captionText) := scanParts parts in
     match imageBase64 with
     | Some (String c b) =>
         let imageData := {| imageBytes := String c b; mimeType := responseMimeType parts |} in
         pushImage imageData ;;;
         populateImageContainer imageData i currentPrompt captionText ;;;
         saveImageToDatabase (String c b) currentPrompt selectedModel captionText
     | _ => throw noImageMessage
     end)
    (fun _ =>
       fun w =>
         match placeholders w !! i with
         | Some _ => (Ok tt, set_placeholders (<[i := failedSlot currentPrompt]> (placeholders w)) w)
         | None => (Ok tt, w)
         end).

Fixpoint multimodalLoop (selectedModel : string) (total : nat) (i : nat) (promptsToGenerate : list string) : M unit :=
  match promptsToGenerate with
  | [] => ret tt
  | currentPrompt :: rest =>
      multimodalUnit selectedModel total i currentPrompt ;;;
      multimodalLoop selectedModel total (S i) rest
  end.

(** [captionText] after the guarded call of the Imagen paths. *)
Definition captionOrDefault (base64Image prompt : string) : M string :=
  try_catch (generateCaption base64Image prompt) (fun _ => ret defaultCaption).

Definition generateAndProcessImage (selectedModel currentPrompt : string) (placeholder : nat)
    : M (option GeneratedImage) :=
  generatedImages <- request (CallImagen selectedModel currentPrompt (Int 1))
                             (fun n => imagenApi env n selectedModel currentPrompt (Int 1)) ;;
  match generatedImages with
  | imageData :: _ =>
      captionText <- captionOrDefault (imageBytes imageData) currentPrompt ;;
      populateImageContainer imageData placeholder currentPrompt captionText ;;;
      saveImageToDatabase (imageBytes imageData) currentPrompt selectedModel captionText ;;;
      ret (Some imageData)
  | [] =>
      withContainer placeholder "Cannot set properties of undefined (setting 'innerHTML')"
        (fun _ => failedSlot currentPrompt) ;;;
      ret None
  end.

Fixpoint imagenDiverseLoop (selectedModel : string) (total : nat) (i : nat) (diversePrompts : list string) : M unit :=
  match diversePrompts with
  | [] => ret tt
  | currentPrompt :: rest =>
      updateProgress (Z.of_nat i + 1) (Z.of_nat total) ;;;
      generated <- generateAndProcessImage selectedModel currentPrompt i ;;
      match generated with
      | Some imageData => pushImage imageData
      | None => ret tt
      end ;;;
      imagenDiverseLoop selectedModel total (S i) rest
  end.

(** The loop over the images of the single batched answer. *)
Fixpoint imagenBatchLoop (selectedModel prompt : string) (i : nat) (generatedImages : list GeneratedImage) : M unit :=
  match generatedImages with
  | [] => ret tt
  | imageData :: rest =>
      captionText <- captionOrDefault (imageBytes imageData) prompt ;;
      populateImageContainer imageData i prompt captionText ;;;
      saveImageToDatabase (imageBytes imageData) prompt selectedModel captionText ;;;
      imagenBatchLoop selectedModel prompt (S i) rest
  end.

Definition failedBatchSlot : Slot := SlotHtml (pTag "image-caption" "Failed to generate images.").

(** The two branches of the [try] block up to the final [if]. *)
Definition generateUnits (inp : Inputs) : M unit :=
  let numberOfImages := numImagesInput inp in
  let selectedModel := generationModelSelect inp in
  let prompt := promptInput inp in
  if String.eqb selectedModel multimodalModel then
    promptsToGenerate <-
      (if diverseSubjectsCheckbox inp && js_gt numberOfImages 1 then
         showIndeterminateProgress "Generating diverse prompts..." ;;;
         getDiversePrompts prompt numberOfImages
       else arrayFill numberOfImages prompt) ;;
    multimodalLoop selectedModel (length promptsToGenerate) 0 promptsToGenerate
  else
    if diverseSubjectsCheckbox inp then
      showIndeterminateProgress "Generating diverse prompts..." ;;;
      diversePrompts <- getDiversePrompts prompt numberOfImages ;;
      imagenDiverseLoop selectedModel (length diversePrompts) 0 diversePrompts
    else
      showIndeterminateProgress ("Generating " +:+ js_toString numberOfImages +:+ " images...") ;;;
      generatedImages <- request (CallImagen selectedModel prompt numberOfImages)
                                 (fun n => imagenApi env n selectedModel prompt numberOfImages) ;;
      match generatedImages with
      | _ :: _ =>
          modify (set_allGeneratedImages generatedImages) ;;;
          imagenBatchLoop selectedModel prompt 0 generatedImages
      | [] => modify (fun w => set_placeholders (map (fun _ => failedBatchSlot) (placeholders w)) w)
      end.

Definition noResultsHtml : string :=
  pTag "placeholder" "Image generation failed to produce results. Please try a different prompt.".
Definition failedHtml : string :=
  pTag "placeholder" "Image generation failed. Please check the console and try again.".

(** The final [if] of the [try] block. *)
Definition finalize (inp : Inputs) : M unit :=
  images <- gets allGeneratedImages ;;
  match images with
  | first :: _ =>
      addToHistory (promptInput inp) (generationModelSelect inp) first ;;;
      modify (fun w => set_totalGeneratedCount (totalGeneratedCount w + Z.of_nat (length images)) w) ;;;
      updateUiCounts (Z.of_nat (length images)) ;;;
      modify (set_downloadHidden false)
  | [] => modify (set_imageGallery (Some noResultsHtml))
  end.

Definition generateImages (inp : Inputs) : M unit :=
  if negb (truthy (promptInput inp)) then displayError "Please enter a prompt."
  else
    originalButtonText <- gets (fun w => fst (generateButton w)) ;;
    modify (set_generateButton ("Generating...", true)) ;;;
    modify (fun w => set_imageGallery None (set_placeholders [] w)) ;;;
    modify (set_downloadHidden true) ;;;
    hideError ;;;
    updateUiCounts 0 ;;;
    appendPlaceholders (iterations (numImagesInput inp)) ;;;
    modify (set_allGeneratedImages []) ;;;
    try_finally
      (try_catch
         (generateUnits inp ;;; finalize inp)
         (fun message =>
            displayError (js_or message "Could not generate images.") ;;;
            modify (set_imageGallery (Some failedHtml))))
      (fun w => hideProgress (set_generateButton (originalButtonText, false) w)).

End Program.

(* ------------------------------------------------------------------ *)
(** ** Sample environments *)

Definition png (bytes : string) : GeneratedImage :=
  {| imageBytes := bytes; mimeType := "image/png" |}.

Definition textPart (t : string) : Part := {| text := Some t; inlineData := None |}.
Definition imagePart (bytes : string) : Part :=
  {| text := None; inlineData := Some {| data := bytes; inlineMimeType := "image/png" |} |}.

(** Every service answers; the clock advances by one per reading. *)
Definition sunnyEnv : Environment :=
  {| diversifyApi := fun _ _ _ => Ok (Parses (DivArray ["city at dawn"; "city at night"]));
     multimodalApi := fun n _ => Ok (Some [textPart "a caption"; imagePart "QUJD"]);
     imagenApi := fun _ _ _ n => Ok (take (iterations n) [png "QUJD"; png "REVG"; png "R0hJ"]);
     captionApi := fun _ _ _ => Ok "a short caption";
     metadataApi := fun _ _ => Ok (Parses (MetaFields (Some "A title") (Some "Nature")));
     dateNow := fun n => 1700000000000 + Z.of_nat n;
     setItemThrows := fun _ => None;
     imgComplete := fun _ => false |}.

Definition mkInputs (prompt : string) (n : JSNum) (model : string) (diverse : bool) : Inputs :=
  {| promptInput := prompt; numImagesInput := n; generationModelSelect := model;
     diverseSubjectsCheckbox := diverse |}.

Definition withMultimodalApi (f : nat -> string -> Result (option (list Part)))
    (e : Environment) : Environment :=
  {| diversifyApi := diversifyApi e; multimodalApi := f; imagenApi := imagenApi e;
     captionApi := captionApi e; metadataApi := metadataApi e; dateNow := dateNow e;
     setItemThrows := setItemThrows e; imgComplete := imgComplete e |}.
Definition withImagenApi (f : nat -> string -> string -> JSNum -> Result (list GeneratedImage))
    (e : Environment) : Environment :=
  {| diversifyApi := diversifyApi e; multimodalApi := multimodalApi e; imagenApi := f;
     captionApi := captionApi e; metadataApi := metadataApi e; dateNow := dateNow e;
     setItemThrows := setItemThrows e; imgComplete := imgComplete e |}.
Definition withCaptionApi (f : nat -> string -> string -> Result string)
    (e : Environment) : Environment :=
  {| diversifyApi := diversifyApi e; multimodalApi := multimodalApi e; imagenApi := imagenApi e;
     captionApi := f; metadataApi := metadataApi e; dateNow := dateNow e;
     setItemThrows := setItemThrows e; imgComplete := imgComplete e |}.
Definition withMetadataApi (f : nat -> string -> Result (Parsed MetaJson))
    (e : Environment) : Environment :=
  {| diversifyApi := diversifyApi e; multimodalApi := multimodalApi e; imagenApi := imagenApi e;
     captionApi := captionApi e; metadataApi := f; dateNow := dateNow e;
     setItemThrows := setItemThrows e; imgComplete := imgComplete e |}.

(** A multimodal answer with two captions and two images, interleaved. *)
Definition interleavedParts : list Part :=
  [textPart "first caption"; imagePart "QUJD"; textPart "second caption"; imagePart "REVG"].
Definition interleavedEnv : Environment :=
  withMultimodalApi (fun _ _ => Ok (Some interleavedParts)) sunnyEnv.

(** The captioning service is down. *)
Definition captionDownEnv : Environment :=
  withCaptionApi (fun _ _ _ => Throw "503 Service Unavailable") sunnyEnv.

(** The classification service is down. *)
Definition classifierDownEnv : Environment :=
  withMetadataApi (fun _ _ => Throw "503 Service Unavailable") sunnyEnv.

(** The [k]-th Imagen request is rejected, all others return one image. *)
Definition imagenFailsAt (k : nat) : Environment :=
  withImagenApi (fun n _ _ _ =>
                   if Nat.eqb n k then Throw "503 Service Unavailable" else Ok [png "QUJD"])
    sunnyEnv.

(** The [k]-th multimodal request is rejected, all others return an image. *)
Definition multimodalFailsAt (k : nat) : Environment :=
  withMultimodalApi (fun n _ =>
                       if Nat.eqb n k then Throw "503 Service Unavailable"
                       else Ok (Some [textPart "a caption"; imagePart "QUJD"]))
    sunnyEnv.

(** The Imagen service returns two images whatever was asked for. *)
Definition twoImagesEnv : Environment :=
  withImagenApi (fun _ _ _ _ => Ok [png "QUJD"; png "REVG"]) sunnyEnv.

(* ------------------------------------------------------------------ *)
(** ** Notions used in the statements *)

(** [I] survives the computation, whatever its outcome. *)
Definition stable (I : World -> Prop) {A : Type} (m : M A) : Prop :=
  forall w, I w -> I (exec m w).

(** The world with the fields written while units are generated blanked:
    the request log, the containers, the collected images, the progress
    bar. *)
Definition outsideUnits (w : World) : World :=
  set_calls [] (set_placeholders [] (set_allGeneratedImages [] (set_progress ProgressHidden w))).

(** The ledger, its stored text and the counters of clock and storage. *)
Definition ledgerState (w : World) : list HistoryItem.t * option StoredText * nat * nat :=
  (generationHistory w, localStorage w, clockReads w, setItemCalls w).

(** World [w] agrees with [v] outside the fields the unit loops write. *)
Definition framed (v w : World) : Prop := outsideUnits w = v.

(** The request log only grows. *)
Definition logExtends (base : list Call) (w : World) : Prop :=
  exists later, calls w = later ++ base.

(** The banner of the validation error. *)
Definition promptMissing : string := "An error occurred: Please enter a prompt.".

(** With a prompt, the function runs its preamble and then the guarded
    block from the world [started]. *)
Definition started (inp : Inputs) (w : World) : World :=
  set_allGeneratedImages []
    (set_placeholders (replicate (iterations (numImagesInput inp)) SlotLoading)
       (set_uiCounts (0, totalGeneratedCount w)
          (set_errorBanner None
             (set_downloadHidden true
                (set_imageGallery None
                   (set_generateButton ("Generating...", true) w)))))).

(** The [try]/[catch]/[finally] statement of [generateImages]. *)
Definition guardedBlock (env : Environment) (inp : Inputs) (originalButtonText : string) : M unit :=
  try_finally
    (try_catch
       (generateUnits env inp ;;; finalize env inp)
       (fun message =>
          displayError (js_or message "Could not generate images.") ;;;
          modify (set_imageGallery (Some failedHtml))))
    (fun w => hideProgress (set_generateButton (originalButtonText, false) w)).

(** Requests of kind [k] in a piece of log. *)
Definition kindCount (k : CallKind) (l : list Call) : nat :=
  length (List.filter (fun c => sameKind (kindOf c) k) l).

(** The prompt of an image-generation request. *)
Definition generationPrompt (c : Call) : option string :=
  match c with
  | CallMultimodal p => Some p
  | CallImagen _ p _ => Some p
  | _ => None
  end.

(** The prompts for which image generation was requested, oldest first. *)
Definition promptsGenerated (l : list Call) : list string := rev (omap generationPrompt l).

(** The caption the guarded captioning call of the Imagen paths yields. *)
Definition captionTextOf (env : Environment) (n : nat) (base64Image prompt : string) : string :=
  match captionApi env n base64Image prompt with
  | Ok t => t
  | Throw _ => defaultCaption
  end.

(** The requests the background save issues: the classification request
    and, unless the classifier's value was [null], the POST. *)
Definition dbCalls (env : Environment) (n : nat) (base64 prompt model caption : string) : list Call :=
  let post title category :=
    CallDatabase {| p_title := title; p_prompt := prompt; p_category := category;
                    p_model := model; p_caption := caption; p_imageData := base64 |} in
  match metadataApi env n prompt with
  | Ok (Parses MetaNull) => [CallMetadata prompt]
  | Ok (Parses (MetaFields title category)) => [post title category; CallMetadata prompt]
  | Ok (SyntaxError _) | Throw _ =>
      [post (Some (substring 0 50 prompt)) (Some "Other"); CallMetadata prompt]
  end.

(** The image and inline caption of the multimodal unit whose request is
    the [n]-th of its kind, if the unit succeeds. *)
Definition unitResult (env : Environment) (n : nat) (currentPrompt : string)
    : option (GeneratedImage * string) :=
  match multimodalApi env n currentPrompt with
  | Ok parts =>
      match scanParts parts with
      | (Some (String c b), captionText) =>
          Some ({| imageBytes := String c b; mimeType := responseMimeType parts |}, captionText)
      | _ => None
      end
  | Throw _ => None
  end.

(** The container of a multimodal unit after the unit. *)
Definition unitSlot (env : Environment) (n : nat) (currentPrompt : string) : Slot :=
  match unitResult env n currentPrompt with
  | Some (imageData, captionText) => populated env imageData currentPrompt captionText
  | None => failedSlot currentPrompt
  end.

(** What a multimodal unit adds to the collected images. *)
Definition unitImages (env : Environment) (n : nat) (currentPrompt : string) : list GeneratedImage :=
  match unitResult env n currentPrompt with
  | Some (imageData, _) => [imageData]
  | None => []
  end.

(** Images of the successful units of a plan whose first request is the
    [n]-th of its kind, in plan order. *)
Fixpoint loopImages (env : Environment) (n : nat) (plan : list string) : list GeneratedImage :=
  match plan with
  | [] => []
  | p :: rest => unitImages env n p ++ loopImages env (S n) rest
  end.

(** The containers after the loop ran over the plan from index [i]. *)
Fixpoint loopSlots (env : Environment) (n i : nat) (plan : list string) (slots : list Slot)
    : list Slot :=
  match plan with
  | [] => slots
  | p :: rest => loopSlots env (S n) (S i) rest (<[i := unitSlot env n p]> slots)
  end.

(** The text a part bears: its [text] when that is a non-empty string. *)
Definition textOf (part : Part) : option string :=
  match text part with
  | Some (String c t) => Some (String c t)
  | _ => None
  end.

(** The image data a part bears: the [data] of its [inlineData] when it
    bears no text. *)
Definition imageOf (part : Part) : option string :=
  match textOf part with
  | Some _ => None
  | None =>
      match inlineData part with
      | Some d => Some (data d)
      | None => None
      end
  end.

(** The caption a container shows. *)
Definition captionOf (s : Slot) : option string :=
  match s with
  | SlotImage _ _ caption _ _ => Some caption
  | _ => None
  end.

(** The entry [addToHistory] creates in world [w]. *)
Definition newItem (env : Environment) (w : World) (prompt model : string) (image : GeneratedImage)
    : HistoryItem.t :=
  {| HistoryItem.id := dateNow env (clockReads w);
     HistoryItem.prompt := prompt;
     HistoryItem.model := model;
     HistoryItem.thumbnail := imageBytes image;
     HistoryItem.timestamp := dateNow env (S (clockReads w)) |}.

(** The banner [saveHistory] shows when the storage write throws. *)
Definition saveFailed : string :=
  "An error occurred: Could not save history. Your browser's storage might be full.".

(** Most recent first: [for all i < j, entry[i].timestamp >= entry[j].timestamp]. *)
Definition newestFirst (ledger : list HistoryItem.t) : Prop :=
  forall i j a b,
    (i < j)%nat -> ledger !! i = Some a -> ledger !! j = Some b ->
    HistoryItem.timestamp b <= HistoryItem.timestamp a.

(** No entry is stamped later than the clock reading [reads]. *)
Definition notAfter (env : Environment) (reads : nat) (ledger : list HistoryItem.t) : Prop :=
  forall a, a ∈ ledger -> HistoryItem.timestamp a <= dateNow env reads.

(** Normal clock behaviour: readings never go back. *)
Definition clockMonotone (env : Environment) : Prop :=
  forall n m, (n <= m)%nat -> dateNow env n <= dateNow env m.

(** The ledger [loadHistory] restores from a stored text on a fresh page. *)
Definition storedLedger (stored : option StoredText) : list HistoryItem.t :=
  match stored with
  | Some (JsonLedger items) => items
  | _ => []
  end.

(** [record(prompt, model, thumbnail)] on the ledger, its stored text and
    the counters of clock readings and storage writes. *)
Definition record (env : Environment) (prompt model thumbnail : string)
    (s : list HistoryItem.t * option StoredText * nat * nat)
    : list HistoryItem.t * option StoredText * nat * nat :=
  let '(ledger, stored, reads, writes) := s in
  let item := {| HistoryItem.id := dateNow env reads; HistoryItem.prompt := prompt;
                 HistoryItem.model := model; HistoryItem.thumbnail := thumbnail;
                 HistoryItem.timestamp := dateNow env (S reads) |} in
  (item :: ledger,
   match setItemThrows env writes with
   | None => Some (JsonLedger (item :: ledger))
   | Some _ => stored
   end,
   S (S reads), S writes).

(** The ordering invariant of the ledger and of its stored copy. *)
Definition ledgerOrdered (env : Environment)
    (s : list HistoryItem.t * option StoredText * nat * nat) : Prop :=
  let '(ledger, stored, reads, _) := s in
  newestFirst ledger /\ notAfter env reads ledger
  /\ newestFirst (storedLedger stored) /\ notAfter env reads (storedLedger stored).

(** The page after a reload: variables and DOM are new, the storage, the
    clock and the services carry on. *)
Definition reopened (w : World) : World :=
  set_calls (calls w)
    (set_clockReads (clockReads w)
       (set_setItemCalls (setItemCalls w)
          (set_localStorage (localStorage w) freshWorld))).

(** A session: one run of [generateImages] per request, in order. *)
Definition session (env : Environment) (requests : list Inputs) (w : World) : World :=
  fold_left (fun w' inp => exec (generateImages env inp) w') requests w.

(** Two runs, one per model, from the fresh page. *)
Definition twoRequests : list Inputs :=
  [mkInputs "a red fox" (Int 2) imagenModel false; mkInputs "city" (Int 2) multimodalModel true].

(** The [finally] block: the button is restored, the progress bar hidden. *)
Definition restored (originalButtonText : string) (w : World) : World :=
  hideProgress (set_generateButton (originalButtonText, false) w).

(** The containers after the batch loop ran over the images from index
    [i], the first captioning request being the [n]-th of its kind. *)
Fixpoint batchSlots (env : Environment) (n i : nat) (prompt : string)
    (images : list GeneratedImage) (slots : list Slot) : list Slot :=
  match images with
  | [] => slots
  | imageData :: rest =>
      batchSlots env (S n) (S i) prompt rest
        (<[i := populated env imageData prompt
                  (captionTextOf env n (imageBytes imageData) prompt)]> slots)
  end.

(** The decision [getDiversePrompts] takes on the answer of the service. *)
Definition diversePromptsOf (answer : Result (Parsed DiverseJson)) : Result (list string) :=
  match answer with
  | Throw e | Ok (SyntaxError e) | Ok (Parses (DivNull e)) => Throw e
  | Ok (Parses DivNoArray) => Throw invalidDiversePrompts
  | Ok (Parses (DivArray [])) => Throw invalidDiversePrompts
  | Ok (Parses (DivArray (p :: ps))) => Ok (p :: ps)
  end.

(* ------------------------------------------------------------------ *)
(** ** Further sample environments *)

(** Every [localStorage.setItem] throws. *)
Definition storageFullEnv : Environment :=
  {| diversifyApi := diversifyApi sunnyEnv; multimodalApi := multimodalApi sunnyEnv;
     imagenApi := imagenApi sunnyEnv; captionApi := captionApi sunnyEnv;
     metadataApi := metadataApi sunnyEnv; dateNow := dateNow sunnyEnv;
     setItemThrows := fun _ => Some "QuotaExceededError"; imgComplete := imgComplete sunnyEnv |}.

(** The captioning service answers with an empty text first, and with a
    caption afterwards. *)
Definition emptyCaptionFirstEnv : Environment :=
  withCaptionApi (fun n _ _ => match n with O => Ok EmptyString | S _ => Ok "a late caption" end)
    sunnyEnv.

(** The Imagen service returns no image. *)
Definition noImagesEnv : Environment := withImagenApi (fun _ _ _ _ => Ok []) sunnyEnv.

(** The TypeError of [container.append] on an undefined container. *)
Definition noContainer : string := "Cannot read properties of undefined (reading 'append')".

(* ------------------------------------------------------------------ *)
(** ** The rest of the page: prompt suggestions and the archive *)

(** *** State and exceptions over any state *)

Definition St (S A : Type) : Type := S -> Result A * S.

Definition retS {S A : Type} (a : A) : St S A := fun s => (Ok a, s).

Definition bindS {S A B : Type} (m : St S A) (k : A -> St S B) : St S B :=
  fun s =>
    match m s with
    | (Ok a, s') => k a s'
    | (Throw e, s') => (Throw e, s')
    end.

Definition throwS {S A : Type} (message : string) : St S A := fun s => (Throw message, s).

Definition tryCatchS {S A : Type} (body : St S A) (handler : string -> St S A) : St S A :=
  fun s =>
    match body s with
    | (Ok a, s') => (Ok a, s')
    | (Throw e, s') => handler e s'
    end.

Definition tryFinallyS {S A : Type} (body : St S A) (fin : S -> S) : St S A :=
  fun s => let '(r, s') := body s in (r, fin s').

Definition modifyS {S : Type} (f : S -> S) : St S unit := fun s => (Ok tt, f s).
Definition getsS {S A : Type} (f : S -> A) : St S A := fun s => (Ok (f s), s).

Notation "x <~ m ;; k" := (bindS m (fun x => k))
  (at level 100, m at next level, right associativity) : js_scope.
Notation "m ;;~ k" := (bindS m (fun _ => k))
  (at level 100, right associativity) : js_scope.

(** *** The elements these functions use *)

(** What [JSON.parse] gives for the answer of the suggestion service, as
    the loop [for (const category in result)] sees it: the enumerable
    keys in order, each with its value when the value is an array (of
    strings, as the response schema asks). [null], a number and a boolean
    have no key. *)
Definition SuggestJson : Type := list (string * option (list string)).

(** A child of [suggestionsContainer]. *)
Inductive SuggestionNode : Type :=
| LoadingMessage
| CategoryTitle (category : string)
| ButtonWrapper (buttons : list string)
| MoreButton.

(** A file handed to the browser by [link.click()]: its name and the
    entries of the archive, each a file name with its base64 data. *)
Record Download : Type := {
  download : string;
  files : list (string * option string)
}.

(** The page: the world of the orchestrator, the form, the suggestion
    panel (with the number of suggestion requests issued so far) and the
    download button with the files it has delivered (oldest first). *)
Record Page : Type := {
  world : World;
  inputs : Inputs;
  suggestPromptsButton : bool;
  suggestionsContainer : list SuggestionNode;
  suggestCalls : nat;
  downloadAllButton : string * bool;
  downloads : list Download
}.

Definition set_world (v : World) (pg : Page) : Page :=
  {| world := v; inputs := inputs pg; suggestPromptsButton := suggestPromptsButton pg;
     suggestionsContainer := suggestionsContainer pg; suggestCalls := suggestCalls pg;
     downloadAllButton := downloadAllButton pg; downloads := downloads pg |}.
Definition set_inputs (v : Inputs) (pg : Page) : Page :=
  {| world := world pg; inputs := v; suggestPromptsButton := suggestPromptsButton pg;
     suggestionsContainer := suggestionsContainer pg; suggestCalls := suggestCalls pg;
     downloadAllButton := downloadAllButton pg; downloads := downloads pg |}.
Definition set_suggestPromptsButton (v : bool) (pg : Page) : Page :=
  {| world := world pg; inputs := inputs pg; suggestPromptsButton := v;
     suggestionsContainer := suggestionsContainer pg; suggestCalls := suggestCalls pg;
     downloadAllButton := downloadAllButton pg; downloads := downloads pg |}.
Definition set_suggestionsContainer (v : list SuggestionNode) (pg : Page) : Page :=
  {| world := world pg; inputs := inputs pg; suggestPromptsButton := suggestPromptsButton pg;
     suggestionsContainer := v; suggestCalls := suggestCalls pg;
     downloadAllButton := downloadAllButton pg; downloads := downloads pg |}.
Definition set_suggestCalls (v : nat) (pg : Page) : Page :=
  {| world := world pg; inputs := inputs pg; suggestPromptsButton := suggestPromptsButton pg;
     suggestionsContainer := suggestionsContainer pg; suggestCalls := v;
     downloadAllButton := downloadAllButton pg; downloads := downloads pg |}.
Definition set_downloadAllButton (v : string * bool) (pg : Page) : Page :=
  {| world := world pg; inputs := inputs pg; suggestPromptsButton := suggestPromptsButton pg;
     suggestionsContainer := suggestionsContainer pg; suggestCalls := suggestCalls pg;
     downloadAllButton := v; downloads := downloads pg |}.
Definition set_downloads (v : list Download) (pg : Page) : Page :=
  {| world := world pg; inputs := inputs pg; suggestPromptsButton := suggestPromptsButton pg;
     suggestionsContainer := suggestionsContainer pg; suggestCalls := suggestCalls pg;
     downloadAllButton := downloadAllButton pg; downloads := v |}.

(** The page around a world, before any suggestion or download. *)
Definition pageOf (w : World) (inp : Inputs) : Page :=
  {| world := w; inputs := inp; suggestPromptsButton := false; suggestionsContainer := [];
     suggestCalls := 0; downloadAllButton := ("Download All", false); downloads := [] |}.

(** The suggestion service, the archive library and the HTML parser of
    the browser. [suggestApi n] is the answer to the [n]-th suggestion
    request: a rejection, or [response.text] as [JSON.parse] reads it.
    [zipGenerate files] is the message of the rejection of
    [zip.generateAsync], if it rejects. [wrappedImages html] are the [src]
    of the elements that [.image-wrapper img] selects, in document order,
    in the tree the browser builds when [html] is assigned to the
    [innerHTML] of a container or of the gallery: the failure message of
    a unit is written that way with the prompt inside it, unescaped. *)
Record PageEnvironment : Type := {
  suggestApi : nat -> Result (Parsed SuggestJson);
  zipGenerate : list (string * option string) -> option string;
  wrappedImages : string -> list string
}.

(** A function of the orchestrator, run on the page. *)
Definition inWorld {A : Type} (m : M A) : St Page A :=
  fun pg => let '(r, w') := m (world pg) in (r, set_world w' pg).

Definition execS {S A : Type} (m : St S A) (s : S) : S := snd (m s).
Definition outcomeS {S A : Type} (m : St S A) (s : S) : Result A := fst (m s).

Section PageProgram.

Variable env : Environment.
Variable penv : PageEnvironment.

(** *** Prompt suggestions *)

Definition appendChild (n : SuggestionNode) (pg : Page) : Page :=
  set_suggestionsContainer (suggestionsContainer pg ++ [n]) pg.

(** The request of [suggestPrompts]; it is counted, and the oracle answers. *)
Definition suggestRequest : St Page (Parsed SuggestJson) :=
  fun pg => (suggestApi penv (suggestCalls pg), set_suggestCalls (S (suggestCalls pg)) pg).

(** [JSON.parse(response.text)]. *)
Definition parsed {A : Type} (response : Parsed A) : St Page A :=
  match response with
  | SyntaxError e => throwS e
  | Parses result => retS result
  end.

(** The loop [for (const category in result)]. *)
Fixpoint suggestCategories (result : SuggestJson) : St Page unit :=
  match result with
  | [] => retS tt
  | (category, categoryPrompts) :: rest =>
      modifyS (appendChild (CategoryTitle category)) ;;~
      match categoryPrompts with
      | Some prompts => modifyS (appendChild (ButtonWrapper prompts))
      | None => retS tt
      end ;;~
      suggestCategories rest
  end.

Definition suggestPrompts : St Page unit :=
  modifyS (set_suggestPromptsButton true) ;;~
  modifyS (set_suggestionsContainer [LoadingMessage]) ;;~
  inWorld hideError ;;~
  tryFinallyS
    (tryCatchS
       (response <~ suggestRequest ;;
        modifyS (set_suggestionsContainer []) ;;~
        result <~ parsed response ;;
        suggestCategories result ;;~
        modifyS (appendChild MoreButton))
       (fun e =>
          inWorld (displayError (js_or e "Could not suggest prompts.")) ;;~
          modifyS (set_suggestionsContainer [])))
    (set_suggestPromptsButton false).

(** The [onclick] handler of a suggestion button. *)
Definition suggestionClick (prompt : string) (pg : Page) : Page :=
  set_inputs {| promptInput := prompt; numImagesInput := numImagesInput (inputs pg);
                generationModelSelect := generationModelSelect (inputs pg);
                diverseSubjectsCheckbox := diverseSubjectsCheckbox (inputs pg) |} pg.

(** The click on the generate button: [generateImages] reads the form. *)
Definition generateClick : St Page unit :=
  fun pg => inWorld (generateImages env (inputs pg)) pg.

(** *** The archive of the gallery *)

(** [s.split(',')]. *)
Fixpoint splitComma (s : string) : list string :=
  match s with
  | EmptyString => [EmptyString]
  | String c rest =>
      if Ascii.eqb c ","
      then EmptyString :: splitComma rest
      else match splitComma rest with
           | piece :: pieces => String c piece :: pieces
           | [] => [String c EmptyString]
           end
  end.

(** The [src] of the images that [.image-wrapper img] selects inside one
    container, in document order: the image [populateImageContainer]
    appended (its data URL, read back as it was assigned), or whatever
    markup a message written to [innerHTML] holds. *)
Definition slotImages (s : Slot) : list string :=
  match s with
  | SlotImage bytes _ _ _ _ => ["data:image/png;base64," +:+ bytes]
  | SlotLoading => []
  | SlotHtml html => wrappedImages penv html
  end.

(** [imageGallery.querySelectorAll('.image-wrapper img')], as the list
    of the [src] attributes. *)
Definition galleryImages (w : World) : list string :=
  match imageGallery w with
  | Some html => wrappedImages penv html
  | None => flat_map slotImages (placeholders w)
  end.

(** [zip.file(name, data)]: a name already in the archive is overwritten
    in place. *)
Fixpoint zipFile (name : string) (data : option string)
    (zip : list (string * option string)) : list (string * option string) :=
  match zip with
  | [] => [(name, data)]
  | (name', data') :: rest =>
      if String.eqb name' name then (name, data) :: rest
      else (name', data') :: zipFile name data rest
  end.

(** The [forEach] over the images, from index [index]. *)
Fixpoint zipImages (index : nat) (images : list string)
    (zip : list (string * option string)) : list (string * option string) :=
  match images with
  | [] => zip
  | src :: rest =>
      let base64Data := splitComma src !! 1%nat in
      zipImages (S index) rest
        (zipFile ("image_" +:+ js_toString (Int (Z.of_nat index + 1)) +:+ ".png") base64Data zip)
  end.

(** The [try] block of [downloadAllImages]. *)
Definition downloadBody : St Page unit :=
  images <~ getsS (fun pg => galleryImages (world pg)) ;;
  match images with
  | [] => inWorld (displayError "No images to download.")
  | _ :: _ =>
      let zip := zipImages 0 images [] in
      match zipGenerate penv zip with
      | Some e => throwS e
      | None =>
          t <~ inWorld (now env) ;;
          modifyS (fun pg =>
            set_downloads
              (downloads pg
               ++ [{| download := "imagen_gallery_" +:+ js_toString (Int t) +:+ ".zip";
                      files := zip |}]) pg)
      end
  end.

Definition downloadAllImages : St Page unit :=
  originalButtonText <~ getsS (fun pg => fst (downloadAllButton pg)) ;;
  modifyS (set_downloadAllButton ("Zipping...", true)) ;;~
  tryFinallyS
    (tryCatchS downloadBody
       (fun e => inWorld (displayError (js_or e "Could not create ZIP file."))))
    (set_downloadAllButton (originalButtonText, false)).

End PageProgram.

(** A prompt that holds the markup of a wrapped image. *)
Definition markupPrompt : string :=
  "<div class=image-wrapper><img src=data:image/png;base64,RVZJ></div>".

(** What the parser finds in the messages of the sample runs: the image
    of [markupPrompt] in the failure message of a unit with that prompt,
    and no image in any other message. *)
Definition sampleParser (html : string) : list string :=
  if String.eqb html
       (pTag "image-caption"
          ("Failed to generate image for prompt: " +:+ dquote +:+ markupPrompt +:+ dquote))
  then ["data:image/png;base64,RVZJ"]
  else [].

(** The suggestion service answers with the four categories of the
    schema, then rejects; the archive library never fails. *)
Definition sunnyPage : PageEnvironment :=
  {| suggestApi := fun n =>
       match n with
       | O => Ok (Parses [("Fantasy", Some ["a dragon"; "an elf"]);
                          ("Sci-Fi", Some ["a rover"; "a station"]);
                          ("Nature", Some ["a fjord"; "a dune"]);
                          ("Abstract", Some ["a spiral"; "a grid"])])
       | S _ => Throw "503 Service Unavailable"
       end;
     zipGenerate := fun _ => None;
     wrappedImages := sampleParser |}.

(** The suggestion service answers with text that is not JSON, and the
    archive library rejects with an empty message. *)
Definition brokenPage : PageEnvironment :=
  {| suggestApi := fun _ => Ok (SyntaxError "Unexpected token < in JSON at position 0");
     zipGenerate := fun _ => Some EmptyString;
     wrappedImages := sampleParser |}.

(** The characters of [s] hold no comma. *)
Definition noComma (s : string) : bool :=
  forallb (fun c => negb (Ascii.eqb c ",")) (list_ascii_of_string s).

(** The prompts on the buttons of a suggestion panel, in order. *)
Definition offered (nodes : list SuggestionNode) : list string :=
  flat_map (fun n => match n with ButtonWrapper buttons => buttons | _ => [] end) nodes.

(** The children the loop appends for the entries of an answer. *)
Definition categoryNodes (result : SuggestJson) : list SuggestionNode :=
  flat_map (fun entry => CategoryTitle (fst entry)
              :: match snd entry with Some prompts => [ButtonWrapper prompts] | None => [] end)
           result.

(** The image bytes a container shows, if it shows an image. *)
Definition slotBytes (s : Slot) : option string :=
  match s with
  | SlotImage bytes _ _ _ _ => Some bytes
  | SlotLoading | SlotHtml _ => None
  end.

(** The image bytes the gallery shows, in the order of the containers. *)
Definition shownBytes (w : World) : list string :=
  match imageGallery w with
  | Some _ => []
  | None => omap slotBytes (placeholders w)
  end.

(** No message on the page holds a wrapped image: neither the message of
    the gallery nor the message of a container. *)
Definition messagesHoldNoImage (penv : PageEnvironment) (w : World) : bool :=
  match imageGallery w with
  | Some html => match wrappedImages penv html with [] => true | _ :: _ => false end
  | None =>
      forallb (fun s => match s with
                        | SlotHtml html =>
                            match wrappedImages penv html with [] => true | _ :: _ => false end
                        | SlotImage _ _ _ _ _ | SlotLoading => true
                        end)
              (placeholders w)
  end.

(** The archive that holds the images [bytes]: [image_1.png],
    [image_2.png], ... in this order, each with the bytes of its image. *)
Definition archiveOf (bytes : list string) : list (string * option string) :=
  imap (fun i b => ("image_" +:+ js_toString (Int (Z.of_nat i + 1)) +:+ ".png", Some b)) bytes.

(** The name under which the archive is delivered at time [t]. *)
Definition archiveName (t : Z) : string := "imagen_gallery_" +:+ js_toString (Int t) +:+ ".zip".

(** An inline image of another type than PNG. *)
Definition jpegPart (bytes : string) : Part :=
  {| text := None; inlineData := Some {| data := bytes; inlineMimeType := "image/jpeg" |} |}.

(** The multimodal service answers the first request with a JPEG image,
    rejects the second and answers the third with a PNG image. *)
Definition mixedEnv : Environment :=
  withMultimodalApi
    (fun n _ => match n with
                | O => Ok (Some [jpegPart "SlBH"])
                | S O => Throw "503 Service Unavailable"
                | S (S _) => Ok (Some [imagePart "UE5H"])
                end)
    sunnyEnv.

(** The page after one run from the fresh page. *)
Definition afterRun (env : Environment) (inp : Inputs) : Page :=
  pageOf (exec (generateImages env inp) freshWorld) inp.

(** The entries [downloadAllImages] puts into the archive for the images
    with the given [src], in this order: [image_1.png], [image_2.png],
    ..., each with what follows the first comma of its [src]. *)
Definition archiveEntries (images : list string) : list (string * option string) :=
  imap (fun i src => ("image_" +:+ js_toString (Int (Z.of_nat i + 1)) +:+ ".png",
                      splitComma src !! 1%nat)) images.

(** The message of a container, if it shows one, holds no wrapped image. *)
Definition cleanSlot (penv : PageEnvironment) (s : Slot) : Prop :=
  match s with
  | SlotHtml html => wrappedImages penv html = []
  | SlotImage _ _ _ _ _ | SlotLoading => True
  end.

(** The requests the batch loop issues for the images of the answer, the
    captioning request of the first image being the [nc]-th of its kind
    and its classification request the [nm]-th: for every image its
    captioning request and the requests of its background save. *)
Fixpoint batchRequests (env : Environment) (nc nm : nat) (prompt model : string)
    (images : list GeneratedImage) : list Call :=
  match images with
  | [] => []
  | imageData :: rest =>
      CallCaption (imageBytes imageData) prompt
      :: dbCalls env nm (imageBytes imageData) prompt model
           (captionTextOf env nc (imageBytes imageData) prompt)
      ++ batchRequests env (S nc) (S nm) prompt model rest
  end.

(** The Imagen service returns two images whatever was asked for, and the
    value of the classifier is [null]. *)
Definition nullClassifierEnv : Environment :=
  withMetadataApi (fun _ _ => Ok (Parses MetaNull)) twoImagesEnv.

(** The [try] block of the unit at index [i] of the multimodal loop, and
    its [catch] block: [multimodalUnit] is the one guarded by the other. *)
Definition multimodalTry (env : Environment) (selectedModel : string) (i : nat)
    (currentPrompt : string) : M unit :=
  parts <- request (CallMultimodal currentPrompt) (fun n => multimodalApi env n currentPrompt) ;;
  let '(imageBase64, captionText) := scanParts parts in
  match imageBase64 with
  | Some (String c b) =>
      let imageData := {| imageBytes := String c b; mimeType := responseMimeType parts |} in
      pushImage imageData ;;;
      populateImageContainer env imageData i currentPrompt captionText ;;;
      saveImageToDatabase env (String c b) currentPrompt selectedModel captionText
  | _ => throw noImageMessage
  end.

Definition multimodalCatch (i : nat) (currentPrompt : string) : M unit :=
  fun w =>
    match placeholders w !! i with
    | Some _ => (Ok tt, set_placeholders (<[i := failedSlot currentPrompt]> (placeholders w)) w)
    | None => (Ok tt, w)
    end.





(* ------------------------------------------------------------------ *)
(** ** Reasoning about computations *)

Lemma exec_bind_ok {A B : Type} (m : M A) (k : A -> M B) w a :
  outcome m w = Ok a -> exec (bind m k) w = exec (k a) (exec m w).
Proof. unfold outcome, exec, bind. destruct (m w) as [r w1]; simpl. now intros ->. Qed.

Lemma outcome_bind_ok {A B : Type} (m : M A) (k : A -> M B) w a :
  outcome m w = Ok a -> outcome (bind m k) w = outcome (k a) (exec m w).
Proof. unfold outcome, exec, bind. destruct (m w) as [r w1]; simpl. now intros ->. Qed.

Section Stability.

Context {I : World -> Prop}.

Local Abbreviation stable := (stable I).

Lemma stable_ret {A : Type} (a : A) : stable (ret a).
Proof. intros w Hw. exact Hw. Qed.

Lemma stable_throw {A : Type} (e : string) : stable (@throw A e).
Proof. intros w Hw. exact Hw. Qed.

Lemma stable_gets {A : Type} (f : World -> A) : stable (gets f).
Proof. intros w Hw. exact Hw. Qed.

Lemma stable_modify (f : World -> World) :
  (forall w, I w -> I (f w)) -> stable (modify f).
Proof. intros Hf w Hw. apply Hf, Hw. Qed.

Lemma stable_bind {A B : Type} (m : M A) (k : A -> M B) :
  stable m -> (forall a, stable (k a)) -> stable (bind m k).
Proof.
  intros Hm Hk w Hw. specialize (Hm w Hw).
  unfold exec, bind in *. destruct (m w) as [[a|e] w1]; simpl in *.
  - apply (Hk a w1 Hm).
  - exact Hm.
Qed.

Lemma stable_try_catch {A : Type} (body : M A) (handler : string -> M A) :
  stable body -> (forall e, stable (handler e)) -> stable (try_catch body handler).
Proof.
  intros Hb Hh w Hw. specialize (Hb w Hw).
  unfold exec, try_catch in *. destruct (body w) as [[a|e] w1]; simpl in *.
  - exact Hb.
  - apply (Hh e w1 Hb).
Qed.

Lemma stable_try_finally {A : Type} (body : M A) (fin : World -> World) :
  stable body -> (forall w, I w -> I (fin w)) -> stable (try_finally body fin).
Proof.
  intros Hb Hf w Hw. specialize (Hb w Hw).
  unfold exec, try_finally in *. destruct (body w) as [r w1]; simpl in *.
  apply Hf, Hb.
Qed.

Lemma stable_request {A : Type} (c : Call) (answer : nat -> Result A) :
  (forall w, I w -> I (set_calls (c :: calls w) w)) -> stable (request c answer).
Proof. intros Hc w Hw. apply Hc, Hw. Qed.

(** The same rules for an invariant that is established half-way. *)
Lemma after_bind {A B : Type} (m : M A) (k : A -> M B) w :
  I (exec m w) -> (forall a, stable (k a)) -> I (exec (bind m k) w).
Proof.
  intros Hm Hk. unfold exec, bind in *. destruct (m w) as [[a|e] w1]; simpl in *.
  - apply (Hk a w1 Hm).
  - exact Hm.
Qed.

Lemma after_try_catch {A : Type} (body : M A) (handler : string -> M A) w :
  I (exec body w) -> (forall e, stable (handler e)) -> I (exec (try_catch body handler) w).
Proof.
  intros Hb Hh. unfold exec, try_catch in *. destruct (body w) as [[a|e] w1]; simpl in *.
  - exact Hb.
  - apply (Hh e w1 Hb).
Qed.

Lemma after_try_finally {A : Type} (body : M A) (fin : World -> World) w :
  I (exec body w) -> (forall w', I w' -> I (fin w')) -> I (exec (try_finally body fin) w).
Proof.
  intros Hb Hf. unfold exec, try_finally in *. destruct (body w) as [r w1]; simpl in *.
  apply Hf, Hb.
Qed.

End Stability.

(** The structural part of a stability proof, driven by the shape of the
    computation. *)
Ltac stable_step :=
  lazymatch goal with
  | |- stable _ (ret _) => apply stable_ret
  | |- stable _ (throw _) => apply stable_throw
  | |- stable _ (gets _) => apply stable_gets
  | |- stable _ (bind _ _) => apply stable_bind; [| intros ?]
  | |- stable _ (try_catch _ _) => apply stable_try_catch; [| intros ?]
  | |- stable _ (try_finally _ _) => apply stable_try_finally
  | |- stable _ (modify _) => apply stable_modify
  | |- stable _ (request _ _) => apply stable_request
  | |- stable _ (match ?x with _ => _ end) => destruct x
  end.

(** *** The part of the world that the unit loops leave alone *)

Lemma outsideUnits_ledgerState w w' :
  outsideUnits w' = outsideUnits w -> ledgerState w' = ledgerState w.
Proof.
  intros H. change (ledgerState (outsideUnits w') = ledgerState (outsideUnits w)).
  now rewrite H.
Qed.

Lemma logExtends_refl w : logExtends (calls w) w.
Proof. exists []. reflexivity. Qed.

Ltac stable_walk leaf := repeat stable_step; try solve [ leaf ].

Section Frames.

Variable env : Environment.

(** **** What the unit loops leave alone *)

Section UnitFrame.

Variable v : World.
Let I : World -> Prop := framed v.

Local Ltac leaf := unfold I, framed; intros ? <-; reflexivity.

Lemma withContainer_frame i e k : stable I (withContainer i e k).
Proof.
  unfold I, framed. intros w <-. unfold exec, withContainer.
  destruct (placeholders w !! i); reflexivity.
Qed.

Lemma generateCaption_frame b p : stable I (generateCaption env b p).
Proof. unfold generateCaption. stable_walk leaf. Qed.

Lemma captionOrDefault_frame b p : stable I (captionOrDefault env b p).
Proof. unfold captionOrDefault. stable_walk leaf. Qed.

Lemma getImageMetadata_frame p : stable I (getImageMetadata env p).
Proof. unfold getImageMetadata. stable_walk leaf. Qed.

Lemma saveImageToDatabase_frame b p m c : stable I (saveImageToDatabase env b p m c).
Proof.
  unfold saveImageToDatabase. stable_walk leaf; auto using getImageMetadata_frame.
Qed.

Lemma populateImageContainer_frame img i p c : stable I (populateImageContainer env img i p c).
Proof. apply withContainer_frame. Qed.

Lemma getDiversePrompts_frame p n : stable I (getDiversePrompts env p n).
Proof. unfold getDiversePrompts. stable_walk leaf. Qed.

Lemma arrayFill_frame n p : stable I (arrayFill n p).
Proof. unfold arrayFill. stable_walk leaf. Qed.

Lemma failedHandler_frame i p :
  stable I (fun w : World =>
              match placeholders w !! i with
              | Some _ => (Ok tt, set_placeholders (<[i := failedSlot p]> (placeholders w)) w)
              | None => (Ok tt, w)
              end).
Proof.
  unfold I, framed. intros w <-. unfold exec.
  destruct (placeholders w !! i); reflexivity.
Qed.

Lemma multimodalUnit_frame m total i p : stable I (multimodalUnit env m total i p).
Proof.
  unfold multimodalUnit, updateProgress, pushImage.
  stable_walk leaf;
    auto using populateImageContainer_frame, saveImageToDatabase_frame, failedHandler_frame.
Qed.

Lemma multimodalLoop_frame m total ps : forall i, stable I (multimodalLoop env m total i ps).
Proof.
  induction ps as [|p ps IH]; intros i; simpl.
  - apply stable_ret.
  - apply stable_bind; [apply multimodalUnit_frame | intros _; apply IH].
Qed.

Lemma generateAndProcessImage_frame m p i : stable I (generateAndProcessImage env m p i).
Proof.
  unfold generateAndProcessImage.
  stable_walk leaf;
    auto using withContainer_frame, captionOrDefault_frame, populateImageContainer_frame,
               saveImageToDatabase_frame.
Qed.

Lemma imagenDiverseLoop_frame m total ps : forall i, stable I (imagenDiverseLoop env m total i ps).
Proof.
  induction ps as [|p ps IH]; intros i; simpl.
  - apply stable_ret.
  - unfold updateProgress, pushImage.
    stable_walk leaf; auto using generateAndProcessImage_frame.
Qed.

Lemma imagenBatchLoop_frame m p imgs : forall i, stable I (imagenBatchLoop env m p i imgs).
Proof.
  induction imgs as [|img imgs IH]; intros i; simpl.
  - apply stable_ret.
  - stable_walk leaf;
      auto using captionOrDefault_frame, populateImageContainer_frame, saveImageToDatabase_frame.
Qed.

Lemma generateUnits_frame inp : stable I (generateUnits env inp).
Proof.
  unfold generateUnits, showIndeterminateProgress.
  stable_walk leaf;
    auto using getDiversePrompts_frame, arrayFill_frame, multimodalLoop_frame,
               imagenDiverseLoop_frame, imagenBatchLoop_frame.
Qed.

End UnitFrame.

(** Generating the units changes nothing but the request log, the
    containers, the collected images and the progress bar. *)
Lemma generateUnits_outside inp w :
  outsideUnits (exec (generateUnits env inp) w) = outsideUnits w.
Proof. now apply (generateUnits_frame (outsideUnits w) inp w). Qed.

End Frames.

(** *** The request log only grows *)

Section LogGrowth.

Variable env : Environment.
Variable base : list Call.
Let G : World -> Prop := logExtends base.

Local Ltac leaf :=
  unfold G, logExtends;
  first [ intros ? [later Hl]; exists later; exact Hl
        | intros ? [later Hl]; eexists (_ :: later); simpl; rewrite Hl; reflexivity ].

Lemma withContainer_log i e k : stable G (withContainer i e k).
Proof.
  unfold G, logExtends. intros w [later Hl]. exists later. unfold exec, withContainer.
  destruct (placeholders w !! i); exact Hl.
Qed.

Lemma failedHandler_log i p :
  stable G (fun w : World =>
              match placeholders w !! i with
              | Some _ => (Ok tt, set_placeholders (<[i := failedSlot p]> (placeholders w)) w)
              | None => (Ok tt, w)
              end).
Proof.
  unfold G, logExtends. intros w [later Hl]. exists later. unfold exec.
  destruct (placeholders w !! i); exact Hl.
Qed.

Lemma captionOrDefault_log b p : stable G (captionOrDefault env b p).
Proof. unfold captionOrDefault, generateCaption. stable_walk leaf. Qed.

Lemma saveImageToDatabase_log b p m c : stable G (saveImageToDatabase env b p m c).
Proof. unfold saveImageToDatabase, getImageMetadata. stable_walk leaf. Qed.

Lemma populateImageContainer_log img i p c : stable G (populateImageContainer env img i p c).
Proof. apply withContainer_log. Qed.

Lemma getDiversePrompts_log p n : stable G (getDiversePrompts env p n).
Proof. unfold getDiversePrompts. stable_walk leaf. Qed.

Lemma arrayFill_log n p : stable G (arrayFill n p).
Proof. unfold arrayFill. stable_walk leaf. Qed.

Lemma multimodalUnit_log m total i p : stable G (multimodalUnit env m total i p).
Proof.
  unfold multimodalUnit, updateProgress, pushImage.
  stable_walk leaf;
    auto using populateImageContainer_log, saveImageToDatabase_log, failedHandler_log.
Qed.

Lemma multimodalLoop_log m total ps : forall i, stable G (multimodalLoop env m total i ps).
Proof.
  induction ps as [|p ps IH]; intros i; simpl.
  - apply stable_ret.
  - apply stable_bind; [apply multimodalUnit_log | intros _; apply IH].
Qed.

Lemma generateAndProcessImage_log m p i : stable G (generateAndProcessImage env m p i).
Proof.
  unfold generateAndProcessImage.
  stable_walk leaf;
    auto using withContainer_log, captionOrDefault_log, populateImageContainer_log,
               saveImageToDatabase_log.
Qed.

Lemma imagenDiverseLoop_log m total ps : forall i, stable G (imagenDiverseLoop env m total i ps).
Proof.
  induction ps as [|p ps IH]; intros i; simpl.
  - apply stable_ret.
  - unfold updateProgress, pushImage.
    stable_walk leaf; auto using generateAndProcessImage_log.
Qed.

Lemma imagenBatchLoop_log m p imgs : forall i, stable G (imagenBatchLoop env m p i imgs).
Proof.
  induction imgs as [|img imgs IH]; intros i; simpl.
  - apply stable_ret.
  - stable_walk leaf;
      auto using captionOrDefault_log, populateImageContainer_log, saveImageToDatabase_log.
Qed.

Lemma generateUnits_log inp : stable G (generateUnits env inp).
Proof.
  unfold generateUnits, showIndeterminateProgress.
  stable_walk leaf;
    auto using getDiversePrompts_log, arrayFill_log, multimodalLoop_log,
               imagenDiverseLoop_log, imagenBatchLoop_log.
Qed.

Lemma saveHistory_log : stable G (saveHistory env).
Proof.
  unfold saveHistory, displayError. apply stable_try_catch.
  - unfold G, logExtends. intros w [later Hl]. exists later. unfold exec.
    destruct (setItemThrows env (setItemCalls w)); exact Hl.
  - intros e. stable_walk leaf.
Qed.

Lemma now_log : stable G (now env).
Proof. unfold G, logExtends. intros w [later Hl]. exists later. exact Hl. Qed.

Lemma addToHistory_log p m img : stable G (addToHistory env p m img).
Proof.
  unfold addToHistory, renderHistory.
  stable_walk leaf; auto using now_log, saveHistory_log.
Qed.

Lemma finalize_log inp : stable G (finalize env inp).
Proof.
  unfold finalize, updateUiCounts.
  stable_walk leaf; auto using addToHistory_log.
Qed.

Lemma appendPlaceholders_log n : stable G (appendPlaceholders n).
Proof. induction n as [|n IH]; simpl; stable_walk leaf. exact IH. Qed.

Lemma generateImages_log inp : stable G (generateImages env inp).
Proof.
  unfold generateImages, displayError, hideError, updateUiCounts, hideProgress.
  stable_walk leaf;
    auto using appendPlaceholders_log, generateUnits_log, finalize_log.
Qed.

End LogGrowth.

(** Whatever a run does, the requests issued before it stay in the log. *)
Lemma generateImages_logExtends env inp w :
  logExtends (calls w) (exec (generateImages env inp) w).
Proof. apply generateImages_log, logExtends_refl. Qed.

(* ------------------------------------------------------------------ *)
(** ** Validation *)

(** With an empty prompt box the function shows the banner and returns. *)
Lemma generateImages_empty env inp w :
  truthy (promptInput inp) = false ->
  generateImages env inp w = (Ok tt, set_errorBanner (Some promptMissing) w).
Proof. intros H. unfold generateImages. rewrite H. reflexivity. Qed.

Lemma appendPlaceholders_spec n w :
  appendPlaceholders n w = (Ok tt, set_placeholders (placeholders w ++ replicate n SlotLoading) w).
Proof.
  revert w. induction n as [|n IH]; intros w; simpl.
  - unfold ret. rewrite app_nil_r. now destruct w.
  - unfold bind, modify. rewrite IH. simpl. f_equal.
    rewrite <- app_assoc. reflexivity.
Qed.

Lemma generateImages_started env inp w :
  truthy (promptInput inp) = true ->
  generateImages env inp w = guardedBlock env inp (fst (generateButton w)) (started inp w).
Proof.
  intros H. unfold generateImages. rewrite H. simpl.
  unfold bind at 1. unfold gets at 1.
  unfold bind at 1. unfold modify at 1.
  unfold bind at 1. unfold modify at 1.
  unfold bind at 1. unfold modify at 1.
  unfold bind at 1. unfold hideError, modify at 1.
  unfold bind at 1. unfold updateUiCounts, modify at 1.
  unfold bind at 1. rewrite appendPlaceholders_spec.
  unfold bind at 1. unfold modify at 1.
  reflexivity.
Qed.

Lemma exec_generateImages_started env inp w :
  truthy (promptInput inp) = true ->
  exec (generateImages env inp) w
    = exec (guardedBlock env inp (fst (generateButton w))) (started inp w).
Proof. intros H. unfold exec. now rewrite generateImages_started. Qed.

(** C9. A request whose prompt is empty, whatever its count, model and
    diversity flag, fails at once with the validation message: the function
    returns normally with the banner as the only change to the world, so no
    request was issued and neither the button, the gallery, the progress
    bar nor the ledger were touched. *)
Theorem empty_prompt_rejected env count model diverse w :
  generateImages env (mkInputs "" count model diverse) w
    = (Ok tt, set_errorBanner (Some promptMissing) w)
  /\ calls (exec (generateImages env (mkInputs "" count model diverse)) w) = calls w
  /\ placeholders (exec (generateImages env (mkInputs "" count model diverse)) w) = placeholders w
  /\ progress (exec (generateImages env (mkInputs "" count model diverse)) w) = progress w
  /\ generationHistory (exec (generateImages env (mkInputs "" count model diverse)) w)
       = generationHistory w.
Proof.
  unfold exec. rewrite generateImages_empty by reflexivity. repeat split.
Qed.

(** On the Imagen path without diversification the batched request goes
    out with the count exactly as parsed. *)
Lemma batch_request_issued env inp w :
  String.eqb (generationModelSelect inp) multimodalModel = false ->
  diverseSubjectsCheckbox inp = false ->
  logExtends
    (CallImagen (generationModelSelect inp) (promptInput inp) (numImagesInput inp) :: calls w)
    (exec (generateUnits env inp) w).
Proof.
  intros Hm Hd. unfold generateUnits. rewrite Hm, Hd.
  unfold showIndeterminateProgress.
  change (exec (bind (modify ?f) ?k) w) with (exec (k tt) (f w)).
  apply after_bind.
  - exists []. reflexivity.
  - intros [|img imgs].
    + apply stable_modify. intros w' [later Hl]. exists later. exact Hl.
    + apply stable_bind.
      * apply stable_modify. intros w' [later Hl]. exists later. exact Hl.
      * intros _. apply imagenBatchLoop_log.
Qed.

(** C5 (amended). Of the two invariants of a request only the non-empty
    prompt is validated before orchestration starts: an empty prompt is
    rejected with the banner as the only effect, whatever the count. The
    count is not validated: with a prompt, whatever was parsed from the
    number box (zero, a negative number, NaN) and whatever the model and
    the diversity box, the function passes the validation and
    orchestration starts: it runs its guarded block from the started
    page, with the button disabled, the gallery cleared and the loading
    containers of the count created. On the Imagen path without
    diversification the batched request is then issued with that very
    count. (What a count that is no positive integer causes later in the
    guarded block on the other paths is not part of this statement.) *)
Theorem only_prompt_validated env inp w :
  (truthy (promptInput inp) = false ->
     generateImages env inp w = (Ok tt, set_errorBanner (Some promptMissing) w))
  /\ (truthy (promptInput inp) = true ->
      generateImages env inp w = guardedBlock env inp (fst (generateButton w)) (started inp w)
      /\ generateButton (started inp w) = ("Generating...", true)
      /\ imageGallery (started inp w) = None
      /\ placeholders (started inp w)
         = replicate (iterations (numImagesInput inp)) SlotLoading)
  /\ (truthy (promptInput inp) = true ->
      String.eqb (generationModelSelect inp) multimodalModel = false ->
      diverseSubjectsCheckbox inp = false ->
      logExtends
        (CallImagen (generationModelSelect inp) (promptInput inp) (numImagesInput inp) :: calls w)
        (exec (generateImages env inp) w)).
Proof.
  split; [| split].
  - apply generateImages_empty.
  - intros Hp. split; [now apply generateImages_started | repeat split].
  - intros Hp Hm Hd. rewrite exec_generateImages_started by exact Hp.
    unfold guardedBlock.
    apply after_try_finally; [| intros w' [later Hl]; exists later; exact Hl].
    apply after_try_catch.
    + apply after_bind.
      * apply (batch_request_issued env inp (started inp w) Hm Hd).
      * intros _. apply finalize_log.
    + intros e. unfold displayError.
      apply stable_bind; [| intros _];
        apply stable_modify; intros w' [later Hl]; exists later; exact Hl.
Qed.

(** The amended statement at an empty prompt, at a count of NaN on the
    multimodal path and at a count of zero on the Imagen path. *)
Lemma only_prompt_validated_witness :
  generateImages sunnyEnv (mkInputs "" (Int 3) imagenModel false) freshWorld
    = (Ok tt, set_errorBanner (Some promptMissing) freshWorld)
  /\ generateImages sunnyEnv (mkInputs "a red fox" NaN multimodalModel true) freshWorld
     = guardedBlock sunnyEnv (mkInputs "a red fox" NaN multimodalModel true) "Generate"
         (started (mkInputs "a red fox" NaN multimodalModel true) freshWorld)
  /\ logExtends [CallImagen imagenModel "a red fox" (Int 0)]
       (exec (generateImages sunnyEnv (mkInputs "a red fox" (Int 0) imagenModel false)) freshWorld).
Proof.
  split; [| split].
  - apply (proj1 (only_prompt_validated sunnyEnv (mkInputs "" (Int 3) imagenModel false) freshWorld)).
    reflexivity.
  - exact (proj1 (proj1 (proj2 (only_prompt_validated sunnyEnv
                                  (mkInputs "a red fox" NaN multimodalModel true) freshWorld))
                    eq_refl)).
  - apply (proj2 (proj2 (only_prompt_validated sunnyEnv
                           (mkInputs "a red fox" (Int 0) imagenModel false) freshWorld)));
      reflexivity.
Defined.

(** C5, as stated, fails: a count of zero violates [count >= 1], yet the
    run is not rejected. The batched generation request is sent with
    [numberOfImages = 0], no validation message is shown, and the run ends
    in the no-results message of the final step. *)
Lemma count_zero_not_rejected :
  calls (exec (generateImages sunnyEnv (mkInputs "a red fox" (Int 0) imagenModel false)) freshWorld)
    = [CallImagen imagenModel "a red fox" (Int 0)]
  /\ errorBanner (exec (generateImages sunnyEnv (mkInputs "a red fox" (Int 0) imagenModel false))
                    freshWorld) = None
  /\ imageGallery (exec (generateImages sunnyEnv (mkInputs "a red fox" (Int 0) imagenModel false))
                     freshWorld) = Some noResultsHtml.
Proof. vm_compute. repeat split. Qed.

(* ------------------------------------------------------------------ *)
(** ** The metadata classifier *)

Lemma substring_0_length n : forall s,
  String.length (substring 0 n s) = Nat.min n (String.length s).
Proof.
  induction n as [|n IH]; intros [|c s]; simpl; try reflexivity.
  now rewrite IH.
Qed.

Lemma substring_0_prefix n : forall s, String.prefix (substring 0 n s) s = true.
Proof.
  induction n as [|n IH]; intros [|c s]; simpl; try reflexivity.
  destruct (ascii_dec c c) as [_|Hc]; [apply IH | now elim Hc].
Qed.

(** The classifier returns a value for every answer of the service. *)
Lemma getImageMetadata_returns env prompt w :
  exists v, outcome (getImageMetadata env prompt) w = Ok v.
Proof.
  unfold outcome, getImageMetadata, try_catch, bind, request.
  destruct (metadataApi env (ncalls (kindOf (CallMetadata prompt)) w) prompt) as [[e|v]|e];
    simpl; eauto.
Qed.

(** C7. [getImageMetadata] never fails outward: when the backing request
    is rejected, or its text is not JSON, the function returns (it does not
    throw) the fallback whose title is the first 50 characters of the
    prompt (a prefix of the prompt of length [min 50 (length prompt)]) and
    whose category is Other. *)
Theorem classifier_fallback env prompt w e :
  metadataApi env (ncalls KMetadata w) prompt = Throw e
  \/ metadataApi env (ncalls KMetadata w) prompt = Ok (SyntaxError e) ->
  outcome (getImageMetadata env prompt) w
    = Ok (MetaFields (Some (substring 0 50 prompt)) (Some "Other"))
  /\ String.prefix (substring 0 50 prompt) prompt = true
  /\ String.length (substring 0 50 prompt) = Nat.min 50 (String.length prompt).
Proof.
  intros H. split; [| split; [apply substring_0_prefix | apply substring_0_length]].
  unfold outcome, getImageMetadata, try_catch, bind, request. simpl.
  destruct H as [-> | ->]; reflexivity.
Qed.

(* ------------------------------------------------------------------ *)
(** ** What one unit of work does *)

Lemma kindCount_app k l1 l2 : kindCount k (l1 ++ l2) = (kindCount k l1 + kindCount k l2)%nat.
Proof. unfold kindCount. now rewrite List.filter_app, length_app. Qed.

Lemma promptsGenerated_app l1 l2 :
  promptsGenerated (l1 ++ l2) = promptsGenerated l2 ++ promptsGenerated l1.
Proof. unfold promptsGenerated. now rewrite omap_app, rev_app_distr. Qed.

Lemma captionOrDefault_spec env b p w :
  captionOrDefault env b p w
    = (Ok (captionTextOf env (ncalls KCaption w) b p), set_calls (CallCaption b p :: calls w) w).
Proof.
  unfold captionOrDefault, generateCaption, try_catch, request, captionTextOf. simpl.
  destruct (captionApi env (ncalls KCaption w) b p); reflexivity.
Qed.

Lemma saveImageToDatabase_spec env b p m c w :
  saveImageToDatabase env b p m c w
    = (Ok tt, set_calls (dbCalls env (ncalls KMetadata w) b p m c ++ calls w) w).
Proof.
  unfold saveImageToDatabase, getImageMetadata, try_catch, bind, request, dbCalls. simpl.
  destruct (metadataApi env (ncalls KMetadata w) p) as [[e|[|t cat]]|e]; reflexivity.
Qed.

Lemma dbCalls_kinds env n b p m c :
  kindCount KMetadata (dbCalls env n b p m c) = 1%nat
  /\ kindCount KMultimodal (dbCalls env n b p m c) = 0%nat
  /\ kindCount KImagen (dbCalls env n b p m c) = 0%nat
  /\ kindCount KCaption (dbCalls env n b p m c) = 0%nat
  /\ kindCount KDiversify (dbCalls env n b p m c) = 0%nat
  /\ promptsGenerated (dbCalls env n b p m c) = [].
Proof.
  unfold dbCalls. destruct (metadataApi env n p) as [[e|[|t cat]]|e]; repeat split.
Qed.

Lemma insert_absent {A : Type} (l : list A) i x : l !! i = None -> <[i := x]> l = l.
Proof. intros H. apply list_insert_ge. now apply lookup_ge_None. Qed.

(** One iteration of the multimodal loop, as a function of the world. *)
Lemma multimodalUnit_run env m total i p w :
  multimodalUnit env m total i p w
    = let w1 := set_calls (CallMultimodal p :: calls w)
                  (set_progress (Determinate (Z.of_nat i + 1) (Z.of_nat total)) w) in
      match unitResult env (ncalls KMultimodal w) p with
      | Some (imageData, captionText) =>
          let w2 := set_allGeneratedImages (allGeneratedImages w ++ [imageData]) w1 in
          match placeholders w !! i with
          | Some _ =>
              (Ok tt,
               set_calls (dbCalls env (ncalls KMetadata w) (imageBytes imageData) p m captionText
                          ++ calls w1)
                 (set_placeholders
                    (<[i := populated env imageData p captionText]> (placeholders w)) w2))
          | None => (Ok tt, w2)
          end
      | None =>
          match placeholders w !! i with
          | Some _ => (Ok tt, set_placeholders (<[i := failedSlot p]> (placeholders w)) w1)
          | None => (Ok tt, w1)
          end
      end.
Proof.
  unfold unitResult, multimodalUnit, try_catch, bind, updateProgress, modify, request.
  simpl. change (ncalls KMultimodal (set_progress _ w)) with (ncalls KMultimodal w).
  destruct (multimodalApi env (ncalls KMultimodal w) p) as [parts|e]; simpl.
  - destruct (scanParts parts) as [[[|c b]|] cap]; simpl;
      try (destruct (placeholders w !! i); reflexivity).
    unfold pushImage, modify, populateImageContainer, withContainer. simpl.
    destruct (placeholders w !! i) eqn:Hi; simpl; [| now rewrite Hi].
    rewrite saveImageToDatabase_spec. reflexivity.
  - destruct (placeholders w !! i); reflexivity.
Qed.

(** One iteration of the multimodal loop: it always completes, adds the
    image of a successful unit to the collected images, writes the unit's
    container and issues exactly one generation request. *)
Lemma multimodalUnit_spec env m total i p w :
  outcome (multimodalUnit env m total i p) w = Ok tt
  /\ allGeneratedImages (exec (multimodalUnit env m total i p) w)
       = allGeneratedImages w ++ unitImages env (ncalls KMultimodal w) p
  /\ placeholders (exec (multimodalUnit env m total i p) w)
       = <[i := unitSlot env (ncalls KMultimodal w) p]> (placeholders w)
  /\ ncalls KMultimodal (exec (multimodalUnit env m total i p) w) = S (ncalls KMultimodal w)
  /\ promptsGenerated (calls (exec (multimodalUnit env m total i p) w))
       = promptsGenerated (calls w) ++ [p].
Proof.
  unfold outcome, exec. rewrite multimodalUnit_run.
  unfold unitImages, unitSlot.
  destruct (unitResult env (ncalls KMultimodal w) p) as [[img cap]|];
    destruct (placeholders w !! i) eqn:Hi; simpl;
    rewrite ?app_nil_r, ?(insert_absent _ _ _ Hi); repeat split.
  - change (kindCount KMultimodal
              (dbCalls env (ncalls KMetadata w) (imageBytes img) p m cap
               ++ CallMultimodal p :: calls w) = S (kindCount KMultimodal (calls w))).
    rewrite kindCount_app.
    destruct (dbCalls_kinds env (ncalls KMetadata w) (imageBytes img) p m cap) as (_ & -> & _).
    reflexivity.
  - rewrite promptsGenerated_app.
    destruct (dbCalls_kinds env (ncalls KMetadata w) (imageBytes img) p m cap)
      as (_ & _ & _ & _ & _ & ->).
    rewrite app_nil_r. reflexivity.
Qed.

(** *** The multimodal loop *)

Lemma multimodalLoop_spec env m total plan : forall i w,
  outcome (multimodalLoop env m total i plan) w = Ok tt
  /\ allGeneratedImages (exec (multimodalLoop env m total i plan) w)
       = allGeneratedImages w ++ loopImages env (ncalls KMultimodal w) plan
  /\ placeholders (exec (multimodalLoop env m total i plan) w)
       = loopSlots env (ncalls KMultimodal w) i plan (placeholders w)
  /\ ncalls KMultimodal (exec (multimodalLoop env m total i plan) w)
       = (ncalls KMultimodal w + length plan)%nat
  /\ promptsGenerated (calls (exec (multimodalLoop env m total i plan) w))
       = promptsGenerated (calls w) ++ plan.
Proof.
  induction plan as [|p rest IH]; intros i w.
  - simpl. unfold outcome, exec, ret. simpl. rewrite !app_nil_r, Nat.add_0_r. repeat split.
  - destruct (multimodalUnit_spec env m total i p w) as (Ho & Himg & Hsl & Hn & Hp).
    simpl multimodalLoop.
    rewrite (outcome_bind_ok _ _ _ _ Ho), (exec_bind_ok _ _ _ _ Ho).
    destruct (IH (S i) (exec (multimodalUnit env m total i p) w)) as (Ho' & Himg' & Hsl' & Hn' & Hp').
    rewrite Ho', Himg', Hsl', Hn', Hp', Himg, Hsl, Hn, Hp. simpl.
    rewrite <- !app_assoc. repeat split. lia.
Qed.

(* ------------------------------------------------------------------ *)
(** ** Scanning the parts of a multimodal response *)

Lemma scanPart_cases acc part :
  scanPart acc part
    = (match imageOf part with Some b => Some b | None => fst acc end,
       match textOf part with Some t => t | None => snd acc end).
Proof.
  unfold scanPart, imageOf, textOf. destruct acc as [img cap].
  destruct (text part) as [[|c t]|]; destruct (inlineData part); reflexivity.
Qed.

Lemma scan_fold parts : forall acc,
  fold_left scanPart parts acc
    = (match last (omap imageOf parts) with Some b => Some b | None => fst acc end,
       default (snd acc) (last (omap textOf parts))).
Proof.
  induction parts as [|part parts IH] using rev_ind; intros [img cap].
  - reflexivity.
  - rewrite fold_left_app. simpl fold_left. rewrite IH, scanPart_cases. simpl.
    rewrite !omap_app. simpl.
    destruct (imageOf part) as [b|]; destruct (textOf part) as [t|]; simpl;
      rewrite ?last_snoc, ?app_nil_r; reflexivity.
Qed.

(** After the scan, [imageBase64] is the data of the last image-bearing
    part and [captionText] the text of the last text-bearing part. *)
Lemma scanParts_last parts :
  scanParts parts
    = (last (omap imageOf (default [] parts)),
       default defaultCaption (last (omap textOf (default [] parts)))).
Proof.
  destruct parts as [ps|]; simpl; [| reflexivity].
  rewrite scan_fold. simpl. now destruct (last (omap imageOf ps)).
Qed.

(** C3 (amended). On the multimodal path the implementation scans all
    returned parts and keeps the LAST image-bearing part (a part without
    text that has inline data) as the unit's image and the LAST
    text-bearing part as its inline caption, with the default caption when
    no part bears text; the mime type is read from the first part that has
    inline data. When no image-bearing part is present, or the last one
    has empty data, the unit fails: nothing is collected and its container
    shows the failure message. *)
Theorem multimodal_unit_takes_last_parts env m total i p w parts :
  multimodalApi env (ncalls KMultimodal w) p = Ok parts ->
  scanParts parts
    = (last (omap imageOf (default [] parts)),
       default defaultCaption (last (omap textOf (default [] parts))))
  /\ match last (omap imageOf (default [] parts)) with
     | Some (String c b) =>
         allGeneratedImages (exec (multimodalUnit env m total i p) w)
           = allGeneratedImages w
             ++ [{| imageBytes := String c b; mimeType := responseMimeType parts |}]
         /\ placeholders (exec (multimodalUnit env m total i p) w)
            = <[i := populated env
                       {| imageBytes := String c b; mimeType := responseMimeType parts |} p
                       (default defaultCaption (last (omap textOf (default [] parts))))]>
                (placeholders w)
     | _ =>
         allGeneratedImages (exec (multimodalUnit env m total i p) w) = allGeneratedImages w
         /\ placeholders (exec (multimodalUnit env m total i p) w)
            = <[i := failedSlot p]> (placeholders w)
     end.
Proof.
  intros Hparts. split; [apply scanParts_last |].
  destruct (multimodalUnit_spec env m total i p w) as (_ & Himg & Hsl & _).
  rewrite Himg, Hsl. unfold unitImages, unitSlot, unitResult.
  rewrite Hparts, scanParts_last.
  destruct (last (omap imageOf (default [] parts))) as [[|c b]|]; simpl;
    rewrite ?app_nil_r; split; reflexivity.
Qed.

(** The amended statement on the interleaved answer: the second image and
    the second caption are the ones kept. *)
Lemma multimodal_unit_takes_last_parts_witness :
  scanParts (Some interleavedParts) = (Some "REVG", "second caption")
  /\ allGeneratedImages
       (exec (multimodalUnit interleavedEnv multimodalModel 1 0 "a red fox")
          (started (mkInputs "a red fox" (Int 1) multimodalModel false) freshWorld))
     = [png "REVG"]
  /\ placeholders
       (exec (multimodalUnit interleavedEnv multimodalModel 1 0 "a red fox")
          (started (mkInputs "a red fox" (Int 1) multimodalModel false) freshWorld))
     = [SlotImage "REVG" "a red fox" "second caption" true (Some FinishLoading)].
Proof.
  exact (multimodal_unit_takes_last_parts interleavedEnv multimodalModel 1 0 "a red fox"
           (started (mkInputs "a red fox" (Int 1) multimodalModel false) freshWorld)
           (Some interleavedParts) eq_refl).
Defined.

(** C3, as stated, fails: for the answer [text, image, text, image] the
    unit's image is the second image part, not the first, and its inline
    caption is the second text part, not the first. *)
Lemma first_parts_not_taken :
  placeholders
    (exec (generateImages interleavedEnv (mkInputs "a red fox" (Int 1) multimodalModel false))
       freshWorld)
    = [SlotImage "REVG" "a red fox" "second caption" true (Some FinishLoading)]
  /\ map imageBytes
       (allGeneratedImages
          (exec (generateImages interleavedEnv (mkInputs "a red fox" (Int 1) multimodalModel false))
             freshWorld))
     = ["REVG"]
  /\ omap imageOf interleavedParts = ["QUJD"; "REVG"]
  /\ omap textOf interleavedParts = ["first caption"; "second caption"].
Proof. vm_compute. repeat split. Qed.

(** The classifier's fallback when the service is down. *)
Lemma classifier_fallback_witness :
  outcome (getImageMetadata classifierDownEnv "a red fox jumping over the lazy dog in a snowy forest")
    freshWorld
    = Ok (MetaFields (Some "a red fox jumping over the lazy dog in a snowy for") (Some "Other")).
Proof.
  exact (proj1 (classifier_fallback classifierDownEnv
                  "a red fox jumping over the lazy dog in a snowy forest" freshWorld
                  "503 Service Unavailable" (or_introl eq_refl))).
Defined.

(* ------------------------------------------------------------------ *)
(** ** The Imagen paths *)

Lemma captionOf_populated env imageData p c :
  captionOf (populated env imageData p c) = Some (if truthy c then c else "Generating caption...").
Proof.
  unfold populated. destruct (truthy c); [| reflexivity].
  destruct (imgComplete env (imageBytes imageData)); reflexivity.
Qed.

(** [generateAndProcessImage] as a function of the world. *)
Lemma generateAndProcessImage_run env m p i w :
  generateAndProcessImage env m p i w
    = let w1 := set_calls (CallImagen m p (Int 1) :: calls w) w in
      match imagenApi env (ncalls KImagen w) m p (Int 1) with
      | Throw e => (Throw e, w1)
      | Ok [] =>
          match placeholders w !! i with
          | Some _ => (Ok None, set_placeholders (<[i := failedSlot p]> (placeholders w)) w1)
          | None => (Throw "Cannot set properties of undefined (setting 'innerHTML')", w1)
          end
      | Ok (imageData :: _) =>
          let captionText := captionTextOf env (ncalls KCaption w) (imageBytes imageData) p in
          let w2 := set_calls (CallCaption (imageBytes imageData) p :: calls w1) w1 in
          match placeholders w !! i with
          | Some _ =>
              (Ok (Some imageData),
               set_calls (dbCalls env (ncalls KMetadata w) (imageBytes imageData) p m captionText
                          ++ calls w2)
                 (set_placeholders
                    (<[i := populated env imageData p captionText]> (placeholders w)) w2))
          | None => (Throw "Cannot read properties of undefined (reading 'append')", w2)
          end
      end.
Proof.
  unfold generateAndProcessImage, bind at 1, request at 1. simpl.
  destruct (imagenApi env (ncalls KImagen w) m p (Int 1)) as [[|img rest]|e]; simpl.
  - unfold bind, withContainer. simpl. destruct (placeholders w !! i); reflexivity.
  - unfold bind at 1. rewrite captionOrDefault_spec.
    unfold bind at 1, populateImageContainer, withContainer. simpl.
    destruct (placeholders w !! i); simpl; [| reflexivity].
    unfold bind. rewrite saveImageToDatabase_spec. reflexivity.
  - reflexivity.
Qed.

(** One iteration of the batch loop, for a container that exists. *)
Lemma imagenBatchLoop_step env m p i imageData rest w s :
  placeholders w !! i = Some s ->
  imagenBatchLoop env m p i (imageData :: rest) w
    = let captionText := captionTextOf env (ncalls KCaption w) (imageBytes imageData) p in
      imagenBatchLoop env m p (S i) rest
        (set_calls (dbCalls env (ncalls KMetadata w) (imageBytes imageData) p m captionText
                    ++ CallCaption (imageBytes imageData) p :: calls w)
           (set_placeholders (<[i := populated env imageData p captionText]> (placeholders w)) w)).
Proof.
  intros Hi. simpl imagenBatchLoop. unfold bind at 1. rewrite captionOrDefault_spec.
  unfold bind at 1, populateImageContainer, withContainer. simpl. rewrite Hi.
  unfold bind at 1. rewrite saveImageToDatabase_spec. reflexivity.
Qed.

(** The image's [onload] handler of the deferred captioning. *)
Lemma imgOnload_deferred env i w bytes alt caption loading :
  placeholders w !! i = Some (SlotImage bytes alt caption loading (Some CaptionThenFinish)) ->
  imgOnload env i w
    = (Ok tt,
       set_placeholders
         (<[i := SlotImage bytes alt
                   (match captionApi env (ncalls KCaption w) bytes alt with
                    | Ok t => t
                    | Throw _ => "Could not generate caption."
                    end) false (Some CaptionThenFinish)]> (placeholders w))
         (set_calls (CallCaption bytes alt :: calls w) w)).
Proof.
  intros Hi. unfold imgOnload, bind at 1, gets. rewrite Hi.
  unfold bind, try_catch, generateCaption, request, modify. simpl.
  destruct (captionApi env (ncalls KCaption w) bytes alt); reflexivity.
Qed.

(** C6 (amended). When the captioning request made for an image fails,
    the unit is not failed: the guarded call of both Imagen paths yields
    the fallback [Caption not available.], [generateAndProcessImage]
    returns the image and its container shows it with that caption, and so
    does an iteration of the batch loop. The other fallback,
    [Could not generate caption.], is written only by the deferred
    captioning of [populateImageContainer], when the request made from the
    image's load handler fails. *)
Theorem caption_failure_keeps_unit env m p w imageData e :
  captionApi env (ncalls KCaption w) (imageBytes imageData) p = Throw e ->
  captionOrDefault env (imageBytes imageData) p w
    = (Ok "Caption not available.",
       set_calls (CallCaption (imageBytes imageData) p :: calls w) w)
  /\ (forall i s rest,
        placeholders w !! i = Some s ->
        imagenApi env (ncalls KImagen w) m p (Int 1) = Ok (imageData :: rest) ->
        outcome (generateAndProcessImage env m p i) w = Ok (Some imageData)
        /\ placeholders (exec (generateAndProcessImage env m p i) w)
           = <[i := populated env imageData p "Caption not available."]> (placeholders w)
        /\ captionOf (populated env imageData p "Caption not available.")
           = Some "Caption not available.")
  /\ (forall i s,
        placeholders w !! i = Some s ->
        outcome (imagenBatchLoop env m p i [imageData]) w = Ok tt
        /\ placeholders (exec (imagenBatchLoop env m p i [imageData]) w)
           = <[i := populated env imageData p "Caption not available."]> (placeholders w))
  /\ (forall i caption loading,
        placeholders w !! i
          = Some (SlotImage (imageBytes imageData) p caption loading (Some CaptionThenFinish)) ->
        outcome (imgOnload env i) w = Ok tt
        /\ placeholders (exec (imgOnload env i) w)
           = <[i := SlotImage (imageBytes imageData) p "Could not generate caption." false
                     (Some CaptionThenFinish)]> (placeholders w)).
Proof.
  intros Hcap. split; [| split; [| split]].
  - rewrite captionOrDefault_spec. unfold captionTextOf. now rewrite Hcap.
  - intros i s rest Hi Himg. unfold outcome, exec.
    rewrite generateAndProcessImage_run. simpl. rewrite Himg. simpl. rewrite Hi. simpl.
    unfold captionTextOf. rewrite Hcap. repeat split.
    now rewrite captionOf_populated.
  - intros i s Hi. unfold outcome, exec.
    rewrite (imagenBatchLoop_step env m p i imageData [] w s Hi). simpl.
    unfold captionTextOf. rewrite Hcap. split; reflexivity.
  - intros i caption loading Hi. unfold outcome, exec.
    rewrite (imgOnload_deferred env i w _ _ _ _ Hi). simpl. rewrite Hcap. split; reflexivity.
Qed.

(** The amended statement with the captioning service down. *)
Lemma caption_failure_keeps_unit_witness :
  captionOrDefault captionDownEnv "QUJD" "a red fox"
    (started (mkInputs "a red fox" (Int 1) imagenModel true) freshWorld)
    = (Ok "Caption not available.",
       set_calls [CallCaption "QUJD" "a red fox"]
         (started (mkInputs "a red fox" (Int 1) imagenModel true) freshWorld))
  /\ outcome (generateAndProcessImage captionDownEnv imagenModel "a red fox" 0)
       (started (mkInputs "a red fox" (Int 1) imagenModel true) freshWorld)
     = Ok (Some (png "QUJD")).
Proof.
  pose proof (caption_failure_keeps_unit captionDownEnv imagenModel "a red fox"
                (started (mkInputs "a red fox" (Int 1) imagenModel true) freshWorld)
                (png "QUJD") "503 Service Unavailable" eq_refl) as (H1 & H2 & _).
  split; [exact H1 |].
  exact (proj1 (H2 0%nat SlotLoading [] eq_refl eq_refl)).
Defined.

(** C6, as stated, fails: with the captioning service down, both units of
    a batched Imagen run succeed, but their caption is
    [Caption not available.], not [Could not generate caption.]. *)
Lemma caption_fallback_differs :
  map captionOf
    (placeholders
       (exec (generateImages captionDownEnv (mkInputs "a red fox" (Int 2) imagenModel false))
          freshWorld))
    = [Some "Caption not available."; Some "Caption not available."]
  /\ length
       (allGeneratedImages
          (exec (generateImages captionDownEnv (mkInputs "a red fox" (Int 2) imagenModel false))
             freshWorld)) = 2%nat
  /\ String.eqb "Caption not available." "Could not generate caption." = false.
Proof. vm_compute. repeat split. Qed.

(* ------------------------------------------------------------------ *)
(** ** The history ledger and the final step *)

(** [addToHistory] as a function of the world: the entry is put in front
    of the ledger, and the whole ledger is written to storage unless
    [setItem] throws, in which case the banner reports it. *)
Lemma addToHistory_run env prompt model image w :
  addToHistory env prompt model image w
    = let ledger := newItem env w prompt model image :: generationHistory w in
      let w1 := set_setItemCalls (S (setItemCalls w))
                  (set_generationHistory ledger
                     (set_clockReads (S (S (clockReads w))) w)) in
      match setItemThrows env (setItemCalls w) with
      | None => (Ok tt, set_localStorage (Some (JsonLedger ledger)) w1)
      | Some _ => (Ok tt, set_errorBanner (Some saveFailed) w1)
      end.
Proof.
  unfold addToHistory, bind, now, modify, saveHistory, try_catch, renderHistory, ret,
    displayError, modify, newItem. simpl.
  destruct (setItemThrows env (setItemCalls w)); reflexivity.
Qed.

Lemma finalize_run env inp w :
  finalize env inp w
    = match allGeneratedImages w with
      | [] => (Ok tt, set_imageGallery (Some noResultsHtml) w)
      | first :: _ =>
          let n := Z.of_nat (length (allGeneratedImages w)) in
          let w1 := exec (addToHistory env (promptInput inp) (generationModelSelect inp) first) w in
          (Ok tt,
           set_downloadHidden false
             (set_uiCounts (n, totalGeneratedCount w + n)
                (set_totalGeneratedCount (totalGeneratedCount w + n) w1)))
      end.
Proof.
  unfold finalize, bind at 1, gets.
  destruct (allGeneratedImages w) as [|first rest] eqn:Himgs; [reflexivity |].
  unfold exec, bind at 1. rewrite addToHistory_run.
  destruct (setItemThrows env (setItemCalls w)); reflexivity.
Qed.

(** The fields the final step writes, by whether an image was collected. *)
Lemma finalize_fields env inp w :
  match allGeneratedImages w with
  | [] =>
      generationHistory (exec (finalize env inp) w) = generationHistory w
      /\ localStorage (exec (finalize env inp) w) = localStorage w
      /\ totalGeneratedCount (exec (finalize env inp) w) = totalGeneratedCount w
      /\ imageGallery (exec (finalize env inp) w) = Some noResultsHtml
  | first :: rest =>
      generationHistory (exec (finalize env inp) w)
        = newItem env w (promptInput inp) (generationModelSelect inp) first
          :: generationHistory w
      /\ HistoryItem.thumbnail
           (newItem env w (promptInput inp) (generationModelSelect inp) first)
         = imageBytes first
      /\ totalGeneratedCount (exec (finalize env inp) w)
         = totalGeneratedCount w + Z.of_nat (S (length rest))
      /\ downloadHidden (exec (finalize env inp) w) = false
      /\ imageGallery (exec (finalize env inp) w) = imageGallery w
  end.
Proof.
  unfold exec. rewrite finalize_run.
  destruct (allGeneratedImages w) as [|first rest]; [repeat split |].
  unfold exec. rewrite addToHistory_run.
  destruct (setItemThrows env (setItemCalls w)); repeat split.
Qed.

(** The final step looks at the collected images only. When they are not
    empty, the new entry is put in front of the unchanged ledger with the
    first collected image as thumbnail, the running total grows by the
    number of images and the download button is revealed. When they are
    empty the gallery shows the aggregate failure message and neither the
    ledger nor its stored text changes. The sequential loop appends the
    image of a unit as soon as the unit has received it. *)
Lemma finalize_history env inp w :
  outcome (finalize env inp) w = Ok tt
  /\ (forall m total plan i w0,
        allGeneratedImages (exec (multimodalLoop env m total i plan) w0)
          = allGeneratedImages w0 ++ loopImages env (ncalls KMultimodal w0) plan)
  /\ match allGeneratedImages w with
     | [] =>
         generationHistory (exec (finalize env inp) w) = generationHistory w
         /\ localStorage (exec (finalize env inp) w) = localStorage w
         /\ totalGeneratedCount (exec (finalize env inp) w) = totalGeneratedCount w
         /\ imageGallery (exec (finalize env inp) w) = Some noResultsHtml
     | first :: rest =>
         generationHistory (exec (finalize env inp) w)
           = newItem env w (promptInput inp) (generationModelSelect inp) first
             :: generationHistory w
         /\ HistoryItem.thumbnail
              (newItem env w (promptInput inp) (generationModelSelect inp) first)
            = imageBytes first
         /\ totalGeneratedCount (exec (finalize env inp) w)
            = totalGeneratedCount w + Z.of_nat (S (length rest))
         /\ downloadHidden (exec (finalize env inp) w) = false
         /\ imageGallery (exec (finalize env inp) w) = imageGallery w
     end.
Proof.
  split; [| split; [intros; apply multimodalLoop_spec |]].
  - unfold outcome. rewrite finalize_run. now destruct (allGeneratedImages w).
  - apply finalize_fields.
Qed.

(** The multimodal unit is its [try] block guarded by its [catch] block. *)
Lemma multimodalUnit_try env m total i p :
  multimodalUnit env m total i p
  = (updateProgress (Z.of_nat i + 1) (Z.of_nat total) ;;;
     try_catch (multimodalTry env m i p) (fun _ => multimodalCatch i p)).
Proof. reflexivity. Qed.

(** A multimodal unit without a container: when its request returns an
    image, the image is collected first, then rendering it throws, so
    that the unit ends in its [catch] block with the image still
    collected, nothing rendered and no save started. *)
Lemma collected_without_container env m i p w parts c b captionText :
  multimodalApi env (ncalls KMultimodal w) p = Ok parts ->
  scanParts parts = (Some (String c b), captionText) ->
  placeholders w !! i = None ->
  multimodalTry env m i p w
  = (Throw "Cannot read properties of undefined (reading 'append')",
     set_allGeneratedImages
       (allGeneratedImages w
        ++ [{| imageBytes := String c b; mimeType := responseMimeType parts |}])
       (set_calls (CallMultimodal p :: calls w) w))
  /\ exec (try_catch (multimodalTry env m i p) (fun _ => multimodalCatch i p)) w
     = set_allGeneratedImages
         (allGeneratedImages w
          ++ [{| imageBytes := String c b; mimeType := responseMimeType parts |}])
         (set_calls (CallMultimodal p :: calls w) w).
Proof.
  intros Hapi Hscan Hi.
  assert (Htry : multimodalTry env m i p w
                 = (Throw "Cannot read properties of undefined (reading 'append')",
                    set_allGeneratedImages
                      (allGeneratedImages w
                       ++ [{| imageBytes := String c b; mimeType := responseMimeType parts |}])
                      (set_calls (CallMultimodal p :: calls w) w))).
  { unfold multimodalTry, bind at 1, request. cbn [kindOf]. rewrite Hapi, Hscan.
    unfold bind, pushImage, modify, populateImageContainer, withContainer.
    cbn [placeholders set_allGeneratedImages set_calls]. now rewrite Hi. }
  split; [exact Htry |].
  unfold exec, try_catch. rewrite Htry. unfold multimodalCatch.
  cbn [placeholders set_allGeneratedImages set_calls]. now rewrite Hi.
Qed.


(** *** The ledger across runs *)

Lemma newestFirst_nil : newestFirst [].
Proof. intros i j a b _ H. now rewrite lookup_nil in H. Qed.

Lemma newestFirst_cons item ledger :
  newestFirst ledger ->
  (forall b, b ∈ ledger -> HistoryItem.timestamp b <= HistoryItem.timestamp item) ->
  newestFirst (item :: ledger).
Proof.
  intros Hl Hb [|i] [|j] a b Hij Ha Hb'; simpl in *; try lia.
  - injection Ha as <-. apply Hb. eapply list_elem_of_lookup_2, Hb'.
  - apply (Hl i j a b); [lia | exact Ha | exact Hb'].
Qed.

Lemma notAfter_later env n m ledger :
  clockMonotone env -> (n <= m)%nat -> notAfter env n ledger -> notAfter env m ledger.
Proof.
  intros Hc Hnm Hl a Ha. specialize (Hl a Ha). specialize (Hc n m Hnm). lia.
Qed.

Lemma record_ordered env prompt model thumbnail s :
  clockMonotone env -> ledgerOrdered env s -> ledgerOrdered env (record env prompt model thumbnail s).
Proof.
  intros Hc. destruct s as [[[ledger stored] reads] writes]. simpl.
  intros (Hs & Hb & Hss & Hsb).
  set (item := {| HistoryItem.id := dateNow env reads; HistoryItem.prompt := prompt;
                  HistoryItem.model := model; HistoryItem.thumbnail := thumbnail;
                  HistoryItem.timestamp := dateNow env (S reads) |}).
  assert (Hnew : newestFirst (item :: ledger)).
  { apply newestFirst_cons; [exact Hs |]. intros b Hin. simpl.
    specialize (Hb b Hin). specialize (Hc reads (S reads)). lia. }
  assert (Hbound : notAfter env (S (S reads)) (item :: ledger)).
  { intros a Ha. apply elem_of_cons in Ha as [-> | Ha].
    - simpl. apply Hc. lia.
    - specialize (Hb a Ha). specialize (Hc reads (S (S reads))). lia. }
  repeat split; try assumption.
  - destruct (setItemThrows env writes); [exact Hss | exact Hnew].
  - destruct (setItemThrows env writes); [| exact Hbound].
    apply (notAfter_later env reads); [exact Hc | lia | exact Hsb].
Qed.

Lemma addToHistory_ledgerState env prompt model image w :
  ledgerState (exec (addToHistory env prompt model image) w)
    = record env prompt model (imageBytes image) (ledgerState w).
Proof.
  unfold exec. rewrite addToHistory_run. unfold ledgerState, record, newItem. simpl.
  destruct (setItemThrows env (setItemCalls w)); reflexivity.
Qed.

Lemma finalize_ledgerState env inp w :
  ledgerState (exec (finalize env inp) w)
    = match allGeneratedImages w with
      | [] => ledgerState w
      | first :: _ =>
          record env (promptInput inp) (generationModelSelect inp) (imageBytes first) (ledgerState w)
      end.
Proof.
  unfold exec at 1. rewrite finalize_run.
  destruct (allGeneratedImages w) as [|first rest]; [reflexivity |].
  rewrite <- addToHistory_ledgerState. reflexivity.
Qed.

Lemma guardedBlock_ledgerState env inp originalButtonText w :
  ledgerState (exec (guardedBlock env inp originalButtonText) w) = ledgerState w
  \/ exists thumbnail,
       ledgerState (exec (guardedBlock env inp originalButtonText) w)
         = record env (promptInput inp) (generationModelSelect inp) thumbnail (ledgerState w).
Proof.
  pose proof (generateUnits_outside env inp w) as Hframe.
  apply outsideUnits_ledgerState in Hframe.
  unfold guardedBlock, exec, try_finally, try_catch, bind in *.
  destruct (generateUnits env inp w) as [[[]|e] w1]; cbn [fst snd] in *.
  - rewrite finalize_run.
    destruct (allGeneratedImages w1) as [|first rest]; cbn [fst snd].
    + left. exact Hframe.
    + right. exists (imageBytes first). rewrite <- Hframe, <- addToHistory_ledgerState.
      reflexivity.
  - left. exact Hframe.
Qed.

(** A run leaves the ledger alone or records exactly one entry. *)
Lemma generateImages_ledgerState env inp w :
  ledgerState (exec (generateImages env inp) w) = ledgerState w
  \/ exists thumbnail,
       ledgerState (exec (generateImages env inp) w)
         = record env (promptInput inp) (generationModelSelect inp) thumbnail (ledgerState w).
Proof.
  destruct (truthy (promptInput inp)) eqn:Hp.
  - rewrite exec_generateImages_started by exact Hp.
    apply (guardedBlock_ledgerState env inp (fst (generateButton w)) (started inp w)).
  - left. unfold exec. now rewrite generateImages_empty.
Qed.

Lemma loadHistory_reopened w :
  generationHistory (exec loadHistory (reopened w)) = storedLedger (localStorage w).
Proof.
  unfold exec, loadHistory, try_catch, bind, gets. simpl.
  destruct (localStorage w) as [[items| | |]|]; reflexivity.
Qed.

(** What a session does to the ledger: it stays ordered, its old entries
    stay where they were behind the new ones, and the stored copy follows
    when no write fails. *)
Lemma session_ledger env requests : forall w,
  clockMonotone env ->
  ledgerOrdered env (ledgerState w) ->
  ledgerOrdered env (ledgerState (session env requests w))
  /\ (exists newer, generationHistory (session env requests w) = newer ++ generationHistory w)
  /\ ((forall n, setItemThrows env n = None) ->
      storedLedger (localStorage w) = generationHistory w ->
      storedLedger (localStorage (session env requests w))
        = generationHistory (session env requests w)).
Proof.
  induction requests as [|inp requests IH]; intros w Hc Hord.
  - simpl. split; [exact Hord |]. split; [now exists [] | auto].
  - simpl session.
    set (w1 := exec (generateImages env inp) w).
    assert (Hstep : ledgerOrdered env (ledgerState w1)
                    /\ (exists newer, generationHistory w1 = newer ++ generationHistory w)
                    /\ ((forall n, setItemThrows env n = None) ->
                        storedLedger (localStorage w) = generationHistory w ->
                        storedLedger (localStorage w1) = generationHistory w1)).
    { destruct (generateImages_ledgerState env inp w) as [Heq | [thumbnail Heq]];
        fold w1 in Heq.
      - rewrite Heq. split; [exact Hord |].
        injection Heq as Hh Hs _ _. rewrite Hh, Hs. split; [now exists [] | auto].
      - rewrite Heq. split; [now apply record_ordered |].
        unfold ledgerState, record in Heq. injection Heq as Hh Hs _ _.
        rewrite Hh, Hs. split; [now eexists [_] |].
        intros Hq _. now rewrite Hq. }
    destruct Hstep as (Hord1 & [newer1 Hnew1] & Hsync1).
    destruct (IH w1 Hc Hord1) as (Hord2 & [newer2 Hnew2] & Hsync2).
    split; [exact Hord2 |]. split.
    + exists (newer2 ++ newer1). rewrite Hnew2, Hnew1. apply app_assoc.
    + intros Hq Hsync. apply Hsync2; [exact Hq |]. now apply Hsync1.
Qed.

(** C8. [addToHistory] puts the new entry in front of the ledger and
    writes the whole ledger to storage (unless the write throws, which is
    reported and leaves the older stored copy). Hence, with a clock that
    never goes back and from an ordered ledger, after any session of runs
    the ledger in memory and the ledger that [loadHistory] restores on a
    reloaded page are most recent first: for all i < j the timestamp of
    entry i is at least that of entry j. No entry is changed in place: the
    ledger before the session is the tail of the ledger after it. When no
    storage write fails, the restored ledger is the full ledger. *)
Theorem ledger_newest_first env requests w :
  clockMonotone env ->
  ledgerOrdered env (ledgerState w) ->
  (forall prompt model image w0,
     ledgerState (exec (addToHistory env prompt model image) w0)
       = record env prompt model (imageBytes image) (ledgerState w0))
  /\ newestFirst (generationHistory (session env requests w))
  /\ newestFirst (generationHistory (exec loadHistory (reopened (session env requests w))))
  /\ (exists newer, generationHistory (session env requests w) = newer ++ generationHistory w)
  /\ ((forall n, setItemThrows env n = None) ->
      storedLedger (localStorage w) = generationHistory w ->
      generationHistory (exec loadHistory (reopened (session env requests w)))
        = generationHistory (session env requests w)).
Proof.
  intros Hc Hord.
  destruct (session_ledger env requests w Hc Hord) as (Hord' & Hnewer & Hsync).
  unfold ledgerOrdered, ledgerState in Hord'. destruct Hord' as (Hs & _ & Hss & _).
  rewrite loadHistory_reopened.
  split; [intros; apply addToHistory_ledgerState |].
  repeat split; assumption.
Qed.

Lemma sunnyEnv_clockMonotone : clockMonotone sunnyEnv.
Proof. intros n m Hnm. simpl. lia. Qed.

Lemma freshWorld_ledgerOrdered env : ledgerOrdered env (ledgerState freshWorld).
Proof.
  simpl. repeat split; try apply newestFirst_nil; intros a Ha; now apply elem_of_nil in Ha.
Qed.

(** The ledger after the two runs: the later entry first, and the same
    ledger restored after a reload. *)
Lemma ledger_newest_first_witness :
  newestFirst (generationHistory (session sunnyEnv twoRequests freshWorld))
  /\ generationHistory (exec loadHistory (reopened (session sunnyEnv twoRequests freshWorld)))
     = generationHistory (session sunnyEnv twoRequests freshWorld)
  /\ map HistoryItem.timestamp (generationHistory (session sunnyEnv twoRequests freshWorld))
     = [1700000000003; 1700000000001].
Proof.
  pose proof (ledger_newest_first sunnyEnv twoRequests freshWorld sunnyEnv_clockMonotone
                (freshWorld_ledgerOrdered sunnyEnv)) as (_ & H1 & _ & _ & H4).
  split; [exact H1 |]. split; [apply H4; reflexivity | reflexivity].
Defined.

(* ------------------------------------------------------------------ *)
(** ** The guarded block, by outcome of the unit generation *)

Lemma guardedBlock_ok env inp originalButtonText w :
  outcome (generateUnits env inp) w = Ok tt ->
  exec (guardedBlock env inp originalButtonText) w
    = restored originalButtonText (exec (finalize env inp) (exec (generateUnits env inp) w)).
Proof.
  unfold guardedBlock, outcome, exec, try_finally, try_catch, bind.
  destruct (generateUnits env inp w) as [r w1]; cbn [fst snd]. intros ->.
  rewrite finalize_run. now destruct (allGeneratedImages w1).
Qed.

Lemma guardedBlock_throw env inp originalButtonText w e :
  outcome (generateUnits env inp) w = Throw e ->
  exec (guardedBlock env inp originalButtonText) w
    = restored originalButtonText
        (set_imageGallery (Some failedHtml)
           (set_errorBanner
              (Some ("An error occurred: " +:+ js_or e "Could not generate images."))
              (exec (generateUnits env inp) w))).
Proof.
  unfold guardedBlock, outcome, exec, try_finally, try_catch, bind.
  destruct (generateUnits env inp w) as [r w1]; cbn [fst snd]. intros ->. reflexivity.
Qed.

(** *** The batch loop *)

Lemma batchSlots_length env prompt images : forall n i slots,
  length (batchSlots env n i prompt images slots) = length slots.
Proof.
  induction images as [|img images IH]; intros n i slots; simpl; [reflexivity |].
  now rewrite IH, length_insert.
Qed.

(** Containers outside the range of the images are not touched. *)
Lemma batchSlots_outside env prompt images : forall n i slots j,
  (j < i \/ i + length images <= j)%nat ->
  batchSlots env n i prompt images slots !! j = slots !! j.
Proof.
  induction images as [|img images IH]; intros n i slots j Hj; simpl; [reflexivity |].
  rewrite IH by (simpl in Hj; lia).
  apply list_lookup_insert_ne. simpl in Hj. lia.
Qed.

(** A container in the range shows the image of its index. *)
Lemma batchSlots_inside env prompt images : forall n i slots j,
  (i <= j < i + length images)%nat -> (j < length slots)%nat ->
  exists imageData captionText,
    images !! (j - i)%nat = Some imageData
    /\ batchSlots env n i prompt images slots !! j
       = Some (populated env imageData prompt captionText).
Proof.
  induction images as [|img images IH]; intros n i slots j Hj Hlen; simpl in *; [lia |].
  destruct (decide (j = i)) as [-> | Hne].
  - exists img, (captionTextOf env n (imageBytes img) prompt).
    rewrite Nat.sub_diag. split; [reflexivity |].
    rewrite batchSlots_outside by lia.
    now apply list_lookup_insert_eq.
  - destruct (IH (S n) (S i)
                 (<[i := populated env img prompt (captionTextOf env n (imageBytes img) prompt)]>
                    slots) j) as (img' & cap' & Hl & Hs);
      [lia | now rewrite length_insert |].
    exists img', cap'. split; [| exact Hs].
    replace (j - i)%nat with (S (j - S i)) by lia. exact Hl.
Qed.

Lemma imagenBatchLoop_spec env m p images : forall i w,
  (i + length images <= length (placeholders w))%nat ->
  outcome (imagenBatchLoop env m p i images) w = Ok tt
  /\ placeholders (exec (imagenBatchLoop env m p i images) w)
       = batchSlots env (ncalls KCaption w) i p images (placeholders w)
  /\ ncalls KMetadata (exec (imagenBatchLoop env m p i images) w)
       = (ncalls KMetadata w + length images)%nat
  /\ allGeneratedImages (exec (imagenBatchLoop env m p i images) w) = allGeneratedImages w.
Proof.
  induction images as [|img images IH]; intros i w Hlen.
  - simpl. unfold outcome, exec, ret. simpl. rewrite Nat.add_0_r. repeat split.
  - simpl in Hlen.
    destruct (lookup_lt_is_Some_2 (placeholders w) i) as [s Hs]; [lia |].
    unfold outcome, exec. rewrite (imagenBatchLoop_step env m p i img images w s Hs).
    cbv zeta.
    set (w1 := set_calls _ _).
    assert (Hcap : ncalls KCaption w1 = S (ncalls KCaption w)).
    { unfold w1, ncalls. cbn [calls set_calls set_placeholders]. fold (kindCount KCaption).
      change (kindCount KCaption
                (dbCalls env (ncalls KMetadata w) (imageBytes img) p m
                   (captionTextOf env (ncalls KCaption w) (imageBytes img) p)
                 ++ CallCaption (imageBytes img) p :: calls w)
              = S (kindCount KCaption (calls w))).
      rewrite kindCount_app.
      destruct (dbCalls_kinds env (ncalls KMetadata w) (imageBytes img) p m
                  (captionTextOf env (ncalls KCaption w) (imageBytes img) p))
        as (_ & _ & _ & -> & _).
      reflexivity. }
    assert (Hmeta : ncalls KMetadata w1 = S (ncalls KMetadata w)).
    { unfold w1.
      change (kindCount KMetadata
                (dbCalls env (ncalls KMetadata w) (imageBytes img) p m
                   (captionTextOf env (ncalls KCaption w) (imageBytes img) p)
                 ++ CallCaption (imageBytes img) p :: calls w)
              = S (kindCount KMetadata (calls w))).
      rewrite kindCount_app.
      destruct (dbCalls_kinds env (ncalls KMetadata w) (imageBytes img) p m
                  (captionTextOf env (ncalls KCaption w) (imageBytes img) p))
        as (-> & _).
      reflexivity. }
    destruct (IH (S i) w1) as (Ho & Hsl & Hn & Himgs).
    { unfold w1. cbn [placeholders set_calls set_placeholders]. rewrite length_insert. lia. }
    unfold outcome, exec in Ho, Hsl, Hn, Himgs.
    rewrite Ho, Hsl, Hn, Himgs, Hcap, Hmeta. simpl. repeat split. lia.
Qed.

(** The Imagen branch without diversification, as a function of the world. *)
Lemma generateUnits_batch env inp w :
  String.eqb (generationModelSelect inp) multimodalModel = false ->
  diverseSubjectsCheckbox inp = false ->
  generateUnits env inp w
    = let w1 := set_calls
                  (CallImagen (generationModelSelect inp) (promptInput inp) (numImagesInput inp)
                   :: calls w)
                  (set_progress
                     (Indeterminate
                        ("Generating " +:+ js_toString (numImagesInput inp) +:+ " images...")) w) in
      match imagenApi env (ncalls KImagen w) (generationModelSelect inp) (promptInput inp)
              (numImagesInput inp) with
      | Throw e => (Throw e, w1)
      | Ok [] => (Ok tt, set_placeholders (map (fun _ => failedBatchSlot) (placeholders w)) w1)
      | Ok (imageData :: rest) =>
          imagenBatchLoop env (generationModelSelect inp) (promptInput inp) 0 (imageData :: rest)
            (set_allGeneratedImages (imageData :: rest) w1)
      end.
Proof.
  intros Hm Hd. unfold generateUnits. rewrite Hm, Hd.
  unfold showIndeterminateProgress, bind at 1, modify at 1, bind at 1, request at 1.
  cbn [kindOf calls set_progress].
  change (ncalls KImagen (set_progress _ w)) with (ncalls KImagen w).
  destruct (imagenApi env (ncalls KImagen w) (generationModelSelect inp) (promptInput inp)
              (numImagesInput inp)) as [[|img rest]|e]; reflexivity.
Qed.

(** What a filled container shows. *)
Lemma populated_shape env imageData p captionText :
  exists loading onload,
    populated env imageData p captionText
    = SlotImage (imageBytes imageData) p (js_or captionText "Generating caption...")
        loading onload.
Proof.
  unfold populated, js_or. destruct (truthy captionText); [| eauto].
  destruct (imgComplete env (imageBytes imageData)); eauto.
Qed.

(** A container in the range shows the image of its index with the
    caption of the captioning request of that index. *)
Lemma batchSlots_lookup env prompt images : forall n i slots j,
  (i <= j < i + length images)%nat -> (j < length slots)%nat ->
  exists imageData,
    images !! (j - i)%nat = Some imageData
    /\ batchSlots env n i prompt images slots !! j
       = Some (populated env imageData prompt
                 (captionTextOf env (n + (j - i)) (imageBytes imageData) prompt)).
Proof.
  induction images as [|img images IH]; intros n i slots j Hj Hlen; simpl in *; [lia |].
  destruct (decide (j = i)) as [-> | Hne].
  - exists img. rewrite Nat.sub_diag, Nat.add_0_r. split; [reflexivity |].
    rewrite batchSlots_outside by lia.
    now apply list_lookup_insert_eq.
  - destruct (IH (S n) (S i)
                 (<[i := populated env img prompt (captionTextOf env n (imageBytes img) prompt)]>
                    slots) j) as (img' & Hl & Hs);
      [lia | now rewrite length_insert |].
    exists img'. replace (j - i)%nat with (S (j - S i)) by lia.
    split; [exact Hl |]. rewrite Hs. do 3 f_equal. lia.
Qed.

Lemma ncalls_after_unit env n b p m captionText w w' :
  calls w' = dbCalls env n b p m captionText ++ CallCaption b p :: calls w ->
  ncalls KCaption w' = S (ncalls KCaption w) /\ ncalls KMetadata w' = S (ncalls KMetadata w).
Proof.
  intros H. unfold ncalls. rewrite H. fold (kindCount KCaption) (kindCount KMetadata).
  change (kindCount KCaption (dbCalls env n b p m captionText ++ CallCaption b p :: calls w)
          = S (kindCount KCaption (calls w))
          /\ kindCount KMetadata (dbCalls env n b p m captionText ++ CallCaption b p :: calls w)
             = S (kindCount KMetadata (calls w))).
  rewrite !kindCount_app.
  destruct (dbCalls_kinds env n b p m captionText) as (-> & _ & _ & -> & _).
  split; reflexivity.
Qed.

(** The requests of the batch loop, in whatever order they are issued. *)
Lemma imagenBatchLoop_requests env m p images : forall i w,
  (i + length images <= length (placeholders w))%nat ->
  Permutation (calls (exec (imagenBatchLoop env m p i images) w))
    (batchRequests env (ncalls KCaption w) (ncalls KMetadata w) p m images ++ calls w).
Proof.
  induction images as [|img images IH]; intros i w Hlen.
  - reflexivity.
  - simpl in Hlen.
    destruct (lookup_lt_is_Some_2 (placeholders w) i) as [s Hs]; [lia |].
    unfold exec. rewrite (imagenBatchLoop_step env m p i img images w s Hs). cbv zeta.
    set (w1 := set_calls _ _).
    destruct (ncalls_after_unit env (ncalls KMetadata w) (imageBytes img) p m
                (captionTextOf env (ncalls KCaption w) (imageBytes img) p) w w1 eq_refl)
      as (Hcap & Hmeta).
    specialize (IH (S i) w1). unfold exec in IH. rewrite IH.
    2: { unfold w1. cbn [placeholders set_calls set_placeholders]. rewrite length_insert. lia. }
    rewrite Hcap, Hmeta. unfold w1. cbn [calls set_calls batchRequests].
    rewrite Permutation_app_comm. cbn [app]. rewrite <- !app_assoc. cbn [app].
    rewrite <- Permutation_middle. apply perm_skip.
    apply Permutation_app_head. rewrite Permutation_app_comm. reflexivity.
Qed.

Lemma batchRequests_unit env p m images : forall nc nm j imageData request,
  images !! j = Some imageData ->
  In request (dbCalls env (nm + j) (imageBytes imageData) p m
                (captionTextOf env (nc + j) (imageBytes imageData) p)) ->
  In request (batchRequests env nc nm p m images).
Proof.
  induction images as [|img images IH]; intros nc nm j imageData request Hj Hin; [discriminate |].
  cbn [batchRequests]. right. apply in_or_app. destruct j as [|j].
  - injection Hj as <-. rewrite !Nat.add_0_r in Hin. now left.
  - right. apply (IH (S nc) (S nm) j imageData); [exact Hj |].
    now rewrite <- !Nat.add_succ_comm in Hin.
Qed.

(** The save of an image posts its record unless the value of the
    classifier is [null]. *)
Lemma dbCalls_post env n b p m captionText :
  metadataApi env n p <> Ok (Parses MetaNull) ->
  exists title category,
    In (CallDatabase {| p_title := title; p_prompt := p; p_category := category;
                        p_model := m; p_caption := captionText; p_imageData := b |})
       (dbCalls env n b p m captionText).
Proof.
  intros Hnull. unfold dbCalls.
  destruct (metadataApi env n p) as [[e|[|title category]]|e]; try congruence;
    eexists _, _; left; reflexivity.
Qed.

(** C10 (amended). On the Imagen path without diversification, when the
    single batched request for [c] images returns [k] images with
    1 <= k < c, the run counts as a success: the function returns
    normally, the k images are the collected ones, a history entry with
    the first image as thumbnail is put in front of the ledger, the
    running total grows by k and the download button is revealed. The
    first k containers are rendered: container j shows the j-th image of
    the answer, with the base prompt as alternative text and the caption
    of its captioning request (the default caption when that request
    fails, the pending text when it is empty). For each of the k images a
    background save is started: apart from the batched request, the
    requests of the run are, for every image, one captioning request and
    the requests of its save, that is one classification request and,
    unless the value of the classifier is [null], one POST of the image
    with the prompt, the model and the caption. The remaining c - k
    containers are still the untouched loading placeholders: they were
    not marked failed, and no load or error handler of any container
    changes them afterwards. *)
Theorem partial_batch_is_success env inp w c images :
  truthy (promptInput inp) = true ->
  String.eqb (generationModelSelect inp) multimodalModel = false ->
  diverseSubjectsCheckbox inp = false ->
  numImagesInput inp = Int c ->
  imagenApi env (ncalls KImagen w) (generationModelSelect inp) (promptInput inp) (Int c)
    = Ok images ->
  (1 <= length images < Z.to_nat c)%nat ->
  outcome (generateImages env inp) w = Ok tt
  /\ allGeneratedImages (exec (generateImages env inp) w) = images
  /\ (exists first rest,
        images = first :: rest
        /\ generationHistory (exec (generateImages env inp) w)
           = newItem env w (promptInput inp) (generationModelSelect inp) first
             :: generationHistory w)
  /\ totalGeneratedCount (exec (generateImages env inp) w)
     = totalGeneratedCount w + Z.of_nat (length images)
  /\ downloadHidden (exec (generateImages env inp) w) = false
  /\ imageGallery (exec (generateImages env inp) w) = None
  /\ length (placeholders (exec (generateImages env inp) w)) = Z.to_nat c
  /\ (forall j, (j < length images)%nat ->
        exists imageData loading onload,
          images !! j = Some imageData
          /\ placeholders (exec (generateImages env inp) w) !! j
             = Some (SlotImage (imageBytes imageData) (promptInput inp)
                       (js_or (captionTextOf env (ncalls KCaption w + j) (imageBytes imageData)
                                 (promptInput inp))
                              "Generating caption...")
                       loading onload))
  /\ (forall j, (length images <= j < Z.to_nat c)%nat ->
        placeholders (exec (generateImages env inp) w) !! j = Some SlotLoading)
  /\ ncalls KMetadata (exec (generateImages env inp) w)
     = (ncalls KMetadata w + length images)%nat
  /\ Permutation (calls (exec (generateImages env inp) w))
       (batchRequests env (ncalls KCaption w) (ncalls KMetadata w) (promptInput inp)
          (generationModelSelect inp) images
        ++ CallImagen (generationModelSelect inp) (promptInput inp) (Int c) :: calls w)
  /\ (forall j imageData,
        images !! j = Some imageData ->
        metadataApi env (ncalls KMetadata w + j) (promptInput inp) <> Ok (Parses MetaNull) ->
        exists title category,
          In (CallDatabase
                {| p_title := title; p_prompt := promptInput inp; p_category := category;
                   p_model := generationModelSelect inp;
                   p_caption := captionTextOf env (ncalls KCaption w + j)
                                  (imageBytes imageData) (promptInput inp);
                   p_imageData := imageBytes imageData |})
             (calls (exec (generateImages env inp) w)))
  /\ (forall i j, (length images <= j < Z.to_nat c)%nat ->
        placeholders (exec (imgOnload env i) (exec (generateImages env inp) w)) !! j
          = Some SlotLoading
        /\ placeholders (exec (imgOnerror i) (exec (generateImages env inp) w)) !! j
           = Some SlotLoading).
Proof.
  intros Hp Hm Hd Hc Himg Hk.
  destruct images as [|first rest]; [simpl in Hk; lia |].
  set (w0 := started inp w).
  pose proof (generateUnits_batch env inp w0 Hm Hd) as Hrun.
  change (ncalls KImagen w0) with (ncalls KImagen w) in Hrun.
  rewrite Hc, Himg in Hrun. cbv zeta in Hrun.
  set (w2 := set_allGeneratedImages (first :: rest) _) in Hrun.
  assert (Hslots : placeholders w2 = replicate (Z.to_nat c) SlotLoading).
  { unfold w2, w0, started. simpl. now rewrite Hc. }
  destruct (imagenBatchLoop_spec env (generationModelSelect inp) (promptInput inp)
              (first :: rest) 0 w2) as (Ho & Hsl & Hn & Hall).
  { rewrite Hslots, length_replicate. lia. }
  pose proof (imagenBatchLoop_frame env (outsideUnits w2) (generationModelSelect inp)
                (promptInput inp) (first :: rest) 0%nat w2 eq_refl) as Hframe.
  unfold framed in Hframe.
  pose proof (imagenBatchLoop_requests env (generationModelSelect inp) (promptInput inp)
                (first :: rest) 0 w2) as Hperm.
  rewrite Hslots, length_replicate in Hperm. specialize (Hperm ltac:(lia)).
  change (ncalls KCaption w2) with (ncalls KCaption w) in Hperm, Hsl.
  change (ncalls KMetadata w2) with (ncalls KMetadata w) in Hperm.
  change (calls w2)
    with (CallImagen (generationModelSelect inp) (promptInput inp) (Int c) :: calls w) in Hperm.
  unfold outcome, exec in Ho, Hsl, Hn, Hall, Hframe, Hperm.
  rewrite <- Hrun in Ho, Hsl, Hn, Hall, Hframe, Hperm.
  set (w3 := snd (generateUnits env inp w0)) in *.
  assert (Hfield : forall {A : Type} (f : World -> A),
             (forall x, f (outsideUnits x) = f x) -> f w3 = f w2).
  { intros A f Hf. rewrite <- (Hf w3), <- (Hf w2). now rewrite Hframe. }
  assert (Hfinal : exec (generateImages env inp) w
                   = restored (fst (generateButton w)) (exec (finalize env inp) w3)).
  { rewrite exec_generateImages_started by exact Hp. now apply guardedBlock_ok. }
  assert (Hout : outcome (generateImages env inp) w = Ok tt).
  { unfold outcome. rewrite generateImages_started by exact Hp.
    unfold guardedBlock, try_finally, try_catch, bind. fold w0.
    destruct (generateUnits env inp w0) as [r wx]; cbn [fst snd] in *. rewrite Ho.
    rewrite finalize_run. now destruct (allGeneratedImages wx). }
  pose proof (finalize_fields env inp w3) as Hfin. rewrite Hall in Hfin.
  unfold w2 in Hfin at 1. cbn [allGeneratedImages set_allGeneratedImages] in Hfin.
  destruct Hfin as (Hhist & _ & Htotal & Hdl & Hgal).
  assert (Hph : placeholders (exec (generateImages env inp) w)
                = batchSlots env (ncalls KCaption w) 0 (promptInput inp) (first :: rest)
                    (replicate (Z.to_nat c) SlotLoading)).
  { rewrite Hfinal. unfold restored, hideProgress.
    cbn [placeholders set_progress set_generateButton].
    unfold exec. rewrite finalize_run. rewrite Hall. unfold w2 at 1.
    cbn [allGeneratedImages set_allGeneratedImages fst snd].
    cbn [placeholders set_downloadHidden set_uiCounts set_totalGeneratedCount].
    unfold exec. rewrite addToHistory_run.
    destruct (setItemThrows env (setItemCalls w3)); cbn; rewrite Hsl, Hslots; reflexivity. }
  assert (Hloading : forall j, (length (first :: rest) <= j < Z.to_nat c)%nat ->
             placeholders (exec (generateImages env inp) w) !! j = Some SlotLoading).
  { intros j Hj. rewrite Hph, batchSlots_outside by lia.
    apply lookup_replicate_2. lia. }
  split; [exact Hout |]. rewrite Hfinal.
  assert (Hcalls : calls (restored (fst (generateButton w)) (exec (finalize env inp) w3))
                   = calls w3).
  { unfold restored, hideProgress. cbn [calls set_progress set_generateButton].
    unfold exec. rewrite finalize_run, Hall. unfold w2 at 1.
    cbn [allGeneratedImages set_allGeneratedImages fst snd].
    unfold exec. rewrite addToHistory_run.
    now destruct (setItemThrows env (setItemCalls w3)). }
  split; [| split; [| split; [| split; [| split; [| split; [| split; [| split; [| split;
    [| split; [| split]]]]]]]]]].
  - unfold restored, hideProgress. cbn [allGeneratedImages set_progress set_generateButton].
    unfold exec. rewrite finalize_run, Hall. unfold w2 at 1.
    cbn [allGeneratedImages set_allGeneratedImages fst snd].
    unfold exec. rewrite addToHistory_run.
    destruct (setItemThrows env (setItemCalls w3)); cbn; exact Hall.
  - exists first, rest. split; [reflexivity |].
    change (generationHistory (exec (finalize env inp) w3)
            = newItem env w (promptInput inp) (generationModelSelect inp) first
              :: generationHistory w).
    rewrite Hhist. f_equal.
    + unfold newItem. now rewrite (Hfield _ clockReads (fun _ => eq_refl)).
    + now rewrite (Hfield _ generationHistory (fun _ => eq_refl)).
  - change (totalGeneratedCount (exec (finalize env inp) w3)
            = totalGeneratedCount w + Z.of_nat (length (first :: rest))).
    rewrite Htotal. now rewrite (Hfield _ totalGeneratedCount (fun _ => eq_refl)).
  - exact Hdl.
  - change (imageGallery (exec (finalize env inp) w3) = None).
    rewrite Hgal. now rewrite (Hfield _ imageGallery (fun _ => eq_refl)).
  - rewrite <- Hfinal, Hph, batchSlots_length. apply length_replicate.
  - intros j Hj. rewrite <- Hfinal, Hph.
    destruct (batchSlots_lookup env (promptInput inp) (first :: rest) (ncalls KCaption w) 0
                (replicate (Z.to_nat c) SlotLoading) j) as (img & Hl & Hs);
      [lia | rewrite length_replicate; lia |].
    rewrite Nat.sub_0_r in Hl, Hs.
    destruct (populated_shape env img (promptInput inp)
                (captionTextOf env (ncalls KCaption w + j) (imageBytes img) (promptInput inp)))
      as (loading & onload & Hshape).
    exists img, loading, onload. split; [exact Hl |]. now rewrite Hs, Hshape.
  - rewrite <- Hfinal. exact Hloading.
  - unfold restored, hideProgress.
    change (ncalls KMetadata (exec (finalize env inp) w3)
            = (ncalls KMetadata w + length (first :: rest))%nat).
    unfold exec. rewrite finalize_run, Hall. unfold w2 at 1.
    cbn [allGeneratedImages set_allGeneratedImages fst snd].
    unfold exec. rewrite addToHistory_run.
    destruct (setItemThrows env (setItemCalls w3)); cbn; exact Hn.
  - rewrite Hcalls. exact Hperm.
  - intros j imageData Hj Hnull. rewrite Hcalls.
    destruct (dbCalls_post env (ncalls KMetadata w + j) (imageBytes imageData) (promptInput inp)
                (generationModelSelect inp)
                (captionTextOf env (ncalls KCaption w + j) (imageBytes imageData)
                   (promptInput inp)) Hnull) as (title & category & Hin).
    exists title, category.
    apply (Permutation_in _ (Permutation_sym Hperm)). apply in_or_app. left.
    now apply (batchRequests_unit env _ _ _ _ _ j imageData).
  - intros i j Hj. rewrite <- Hfinal.
    set (wf := exec (generateImages env inp) w) in *.
    specialize (Hloading j Hj). split.
    2: { unfold exec, imgOnerror, bind, gets, modify, ret.
         destruct (placeholders wf !! i) as [[|bytes alt caption loading onload|html]|] eqn:Hi;
           cbn [snd placeholders set_placeholders]; try exact Hloading.
         rewrite list_lookup_insert_ne; [exact Hloading |].
         intros ->. rewrite Hloading in Hi. discriminate. }
    unfold exec, imgOnload, bind at 1, gets.
    destruct (placeholders wf !! i) as [[|bytes alt caption loading [[|]|]|html]|] eqn:Hi;
      try exact Hloading.
    + unfold modify. cbn [snd placeholders set_placeholders].
      rewrite list_lookup_insert_ne; [exact Hloading |].
      intros ->. rewrite Hloading in Hi. discriminate.
    + unfold bind, try_catch, generateCaption, request, modify, ret.
      destruct (captionApi env _ bytes alt); cbn [snd placeholders set_placeholders set_calls];
        (rewrite list_lookup_insert_ne; [exact Hloading |]);
        intros ->; rewrite Hloading in Hi; discriminate.
Qed.

(** A batch of two images for three containers. *)
Lemma partial_batch_is_success_witness :
  allGeneratedImages
    (exec (generateImages twoImagesEnv (mkInputs "a red fox" (Int 3) imagenModel false)) freshWorld)
    = [png "QUJD"; png "REVG"]
  /\ totalGeneratedCount
       (exec (generateImages twoImagesEnv (mkInputs "a red fox" (Int 3) imagenModel false))
          freshWorld) = 0 + 2
  /\ placeholders
       (exec (generateImages twoImagesEnv (mkInputs "a red fox" (Int 3) imagenModel false))
          freshWorld) !! 2%nat = Some SlotLoading
  /\ (exists title category,
        In (CallDatabase {| p_title := title; p_prompt := "a red fox"; p_category := category;
                            p_model := imagenModel; p_caption := "a short caption";
                            p_imageData := "REVG" |})
           (calls (exec (generateImages twoImagesEnv
                           (mkInputs "a red fox" (Int 3) imagenModel false)) freshWorld))).
Proof.
  pose proof (partial_batch_is_success twoImagesEnv
                (mkInputs "a red fox" (Int 3) imagenModel false) freshWorld 3
                [png "QUJD"; png "REVG"] eq_refl eq_refl eq_refl eq_refl eq_refl
                ltac:(simpl; lia))
    as (_ & H1 & _ & H3 & _ & _ & _ & _ & H8 & _ & _ & H11 & _).
  split; [exact H1 |]. split; [exact H3 |]. split; [apply H8; simpl; lia |].
  exact (H11 1%nat (png "REVG") eq_refl ltac:(discriminate)).
Defined.

(** C10, as stated, fails: the units of a partial batch are rendered and
    counted, but they are not all persisted. With a batch of two images
    for three containers and a classifier whose value is [null], the run
    is a success (both images rendered, one history entry, the total
    grown by two), a save was started for each image (two classification
    requests), and yet nothing was posted to the gallery database. *)
Lemma partial_batch_not_persisted :
  outcome (generateImages nullClassifierEnv (mkInputs "a red fox" (Int 3) imagenModel false))
    freshWorld = Ok tt
  /\ map slotBytes
       (placeholders
          (exec (generateImages nullClassifierEnv
                   (mkInputs "a red fox" (Int 3) imagenModel false)) freshWorld))
     = [Some "QUJD"; Some "REVG"; None]
  /\ totalGeneratedCount
       (exec (generateImages nullClassifierEnv (mkInputs "a red fox" (Int 3) imagenModel false))
          freshWorld) = 2
  /\ length
       (generationHistory
          (exec (generateImages nullClassifierEnv
                   (mkInputs "a red fox" (Int 3) imagenModel false)) freshWorld)) = 1%nat
  /\ kindCount KMetadata
       (calls (exec (generateImages nullClassifierEnv
                       (mkInputs "a red fox" (Int 3) imagenModel false)) freshWorld)) = 2%nat
  /\ kindCount KDatabase
       (calls (exec (generateImages nullClassifierEnv
                       (mkInputs "a red fox" (Int 3) imagenModel false)) freshWorld)) = 0%nat.
Proof. vm_compute. repeat split. Qed.

(* ------------------------------------------------------------------ *)
(** ** The prompt diversifier *)

Lemma getDiversePrompts_run env basePrompt count w :
  getDiversePrompts env basePrompt count w
    = (diversePromptsOf (diversifyApi env (ncalls KDiversify w) basePrompt count),
       set_calls (CallDiversify basePrompt count :: calls w) w).
Proof.
  unfold getDiversePrompts, bind, request, diversePromptsOf. simpl.
  destruct (diversifyApi env (ncalls KDiversify w) basePrompt count)
    as [[e|[e| |[|p ps]]]|e]; reflexivity.
Qed.


(** Neither the final step nor the error handler issue requests. *)
Lemma guardedBlock_calls env inp originalButtonText w :
  calls (exec (guardedBlock env inp originalButtonText) w) = calls (exec (generateUnits env inp) w).
Proof.
  unfold guardedBlock, exec, try_finally, try_catch, bind.
  destruct (generateUnits env inp w) as [[[]|e] w1]; cbn [fst snd]; [| reflexivity].
  rewrite finalize_run. destruct (allGeneratedImages w1); [reflexivity |].
  unfold exec. rewrite addToHistory_run.
  destruct (setItemThrows env (setItemCalls w1)); reflexivity.
Qed.





(* ------------------------------------------------------------------ *)
(** ** Failure of one unit *)

Lemma loopSlots_before env plan : forall n i slots j,
  (j < i)%nat -> loopSlots env n i plan slots !! j = slots !! j.
Proof.
  induction plan as [|q plan IH]; intros n i slots j Hj; simpl; [reflexivity |].
  rewrite IH by lia. apply list_lookup_insert_ne. lia.
Qed.

Lemma loopSlots_length env plan : forall n i slots,
  length (loopSlots env n i plan slots) = length slots.
Proof.
  induction plan as [|q plan IH]; intros n i slots; simpl; [reflexivity |].
  now rewrite IH, length_insert.
Qed.

(** The container of plan index [j - i] holds the outcome of that unit. *)
Lemma loopSlots_lookup env plan : forall n i slots j p,
  (i <= j)%nat -> (j < length slots)%nat -> plan !! (j - i)%nat = Some p ->
  loopSlots env n i plan slots !! j = Some (unitSlot env (n + (j - i)) p).
Proof.
  induction plan as [|q plan IH]; intros n i slots j p Hij Hlen Hp; simpl.
  - now rewrite lookup_nil in Hp.
  - destruct (decide (j = i)) as [-> | Hne].
    + rewrite Nat.sub_diag in *. simpl in Hp. injection Hp as ->.
      rewrite loopSlots_before by lia. rewrite Nat.add_0_r.
      now apply list_lookup_insert_eq.
    + replace (j - i)%nat with (S (j - S i)) in * by lia. simpl in Hp.
      rewrite (IH (S n) (S i) _ j p); [| lia | now rewrite length_insert | exact Hp].
      do 2 f_equal. lia.
Qed.

Lemma unitImages_length env n p :
  length (unitImages env n p) = match unitResult env n p with Some _ => 1%nat | None => 0%nat end.
Proof. unfold unitImages. now destruct (unitResult env n p) as [[img cap]|]. Qed.

Lemma loopImages_all env plan : forall n,
  (forall j p, plan !! j = Some p -> unitResult env (n + j) p <> None) ->
  length (loopImages env n plan) = length plan.
Proof.
  induction plan as [|q plan IH]; intros n Hall; simpl; [reflexivity |].
  rewrite length_app, unitImages_length.
  pose proof (Hall 0%nat q eq_refl) as Hq. rewrite Nat.add_0_r in Hq.
  destruct (unitResult env n q) as [res|]; [| congruence].
  rewrite IH; [reflexivity |].
  intros j p Hj. replace (S n + j)%nat with (n + S j)%nat by lia. now apply Hall.
Qed.

(** With exactly one failing unit, all the others are collected. *)
Lemma loopImages_one_failure env plan : forall n k pk,
  plan !! k = Some pk ->
  unitResult env (n + k) pk = None ->
  (forall j p, j <> k -> plan !! j = Some p -> unitResult env (n + j) p <> None) ->
  S (length (loopImages env n plan)) = length plan.
Proof.
  induction plan as [|q plan IH]; intros n k pk Hk Hfail Hothers; simpl.
  - now rewrite lookup_nil in Hk.
  - rewrite length_app, unitImages_length. destruct k as [|k]; simpl in Hk.
    + injection Hk as ->. rewrite Nat.add_0_r in Hfail. rewrite Hfail. simpl.
      rewrite loopImages_all; [reflexivity |].
      intros j p Hj. replace (S n + j)%nat with (n + S j)%nat by lia.
      apply Hothers; [lia | exact Hj].
    + pose proof (Hothers 0%nat q ltac:(lia) eq_refl) as Hq. rewrite Nat.add_0_r in Hq.
      destruct (unitResult env n q) as [res|]; [| congruence]. simpl. f_equal.
      apply (IH (S n) k pk Hk).
      * now replace (S n + k)%nat with (n + S k)%nat by lia.
      * intros j p Hj Hp. replace (S n + j)%nat with (n + S j)%nat by lia.
        apply Hothers; [lia | exact Hp].
Qed.

(** The multimodal branch without diversification, for a count that
    [Array] accepts: the plan is [count] copies of the prompt. *)
Lemma generateUnits_multimodal env inp w c :
  String.eqb (generationModelSelect inp) multimodalModel = true ->
  diverseSubjectsCheckbox inp = false ->
  numImagesInput inp = Int c ->
  0 <= c < 2 ^ 32 ->
  generateUnits env inp w
    = multimodalLoop env (generationModelSelect inp) (Z.to_nat c) 0
        (replicate (Z.to_nat c) (promptInput inp)) w.
Proof.
  intros Hm Hd Hc Hrange. unfold generateUnits. rewrite Hm, Hd, Hc. cbn [andb].
  unfold bind, arrayFill.
  destruct (Z.leb_spec 0 c); [| lia]. destruct (Z.ltb_spec c (2 ^ 32)); [| lia].
  cbn [andb]. unfold ret. now rewrite length_replicate.
Qed.

(** The final step leaves the collected images, the containers and the
    request log as they are. *)
Lemma finalize_keeps env inp w :
  allGeneratedImages (exec (finalize env inp) w) = allGeneratedImages w
  /\ placeholders (exec (finalize env inp) w) = placeholders w
  /\ calls (exec (finalize env inp) w) = calls w.
Proof.
  unfold exec. rewrite finalize_run.
  destruct (allGeneratedImages w) as [|first rest] eqn:Himgs.
  - cbn [snd allGeneratedImages placeholders calls set_imageGallery]. now rewrite Himgs.
  - cbv zeta. unfold exec. rewrite addToHistory_run. cbv zeta.
    destruct (setItemThrows env (setItemCalls w)); cbn; now rewrite Himgs.
Qed.

(** The sibling of the Imagen loop keeps a failing unit to itself: on the
    multimodal path, when the unit at index [k] fails (its request is
    rejected or its answer has no image) and every other unit succeeds,
    all [c] requests are issued, the container at [k] shows the failure,
    every other container shows its image, and [c - 1] images are
    collected and counted. *)
Lemma multimodal_failure_isolated env inp w c k :
  truthy (promptInput inp) = true ->
  String.eqb (generationModelSelect inp) multimodalModel = true ->
  diverseSubjectsCheckbox inp = false ->
  numImagesInput inp = Int c ->
  1 < c < 2 ^ 32 ->
  (k < Z.to_nat c)%nat ->
  unitResult env (ncalls KMultimodal w + k) (promptInput inp) = None ->
  (forall j, (j < Z.to_nat c)%nat -> j <> k ->
     unitResult env (ncalls KMultimodal w + j) (promptInput inp) <> None) ->
  outcome (generateImages env inp) w = Ok tt
  /\ S (length (allGeneratedImages (exec (generateImages env inp) w))) = Z.to_nat c
  /\ totalGeneratedCount (exec (generateImages env inp) w) = totalGeneratedCount w + (c - 1)
  /\ ncalls KMultimodal (exec (generateImages env inp) w) = (ncalls KMultimodal w + Z.to_nat c)%nat
  /\ placeholders (exec (generateImages env inp) w) !! k = Some (failedSlot (promptInput inp))
  /\ (forall j, (j < Z.to_nat c)%nat -> j <> k ->
        exists imageData captionText,
          unitResult env (ncalls KMultimodal w + j) (promptInput inp)
            = Some (imageData, captionText)
          /\ placeholders (exec (generateImages env inp) w) !! j
             = Some (populated env imageData (promptInput inp) captionText)).
Proof.
  intros Hp Hm Hd Hc Hrange Hk Hfail Hothers.
  set (w0 := started inp w).
  set (plan := replicate (Z.to_nat c) (promptInput inp)).
  pose proof (generateUnits_multimodal env inp w0 c Hm Hd Hc ltac:(lia)) as Hrun. fold plan in Hrun.
  assert (Hex : exec (generateUnits env inp) w0
                = exec (multimodalLoop env (generationModelSelect inp) (Z.to_nat c) 0 plan) w0)
    by (unfold exec; now rewrite Hrun).
  assert (Hou : outcome (generateUnits env inp) w0
                = outcome (multimodalLoop env (generationModelSelect inp) (Z.to_nat c) 0 plan) w0)
    by (unfold outcome; now rewrite Hrun).
  destruct (multimodalLoop_spec env (generationModelSelect inp) (Z.to_nat c) plan 0 w0)
    as (Ho & Himgs & Hsl & Hn & _).
  pose proof (multimodalLoop_frame env (outsideUnits w0) (generationModelSelect inp)
                (Z.to_nat c) plan 0%nat w0 eq_refl) as Hframe.
  unfold framed in Hframe.
  rewrite <- Hex in Himgs, Hsl, Hn, Hframe. rewrite <- Hou in Ho.
  set (w3 := exec (generateUnits env inp) w0) in *.
  change (ncalls KMultimodal w0) with (ncalls KMultimodal w) in *.
  change (allGeneratedImages w0) with (@nil GeneratedImage) in Himgs. simpl app in Himgs.
  assert (Hplan : forall j, (j < Z.to_nat c)%nat -> plan !! j = Some (promptInput inp))
    by (intros j Hj; now apply lookup_replicate_2).
  assert (Hcount : S (length (allGeneratedImages w3)) = Z.to_nat c).
  { rewrite Himgs.
    rewrite (loopImages_one_failure env plan (ncalls KMultimodal w) k (promptInput inp)).
    - apply length_replicate.
    - now apply Hplan.
    - exact Hfail.
    - intros j p Hj Hjp. pose proof (lookup_lt_Some _ _ _ Hjp) as Hlt.
      unfold plan in Hlt. rewrite length_replicate in Hlt.
      rewrite Hplan in Hjp by exact Hlt. injection Hjp as <-. now apply Hothers. }
  assert (Hfinal : exec (generateImages env inp) w
                   = restored (fst (generateButton w)) (exec (finalize env inp) w3)).
  { rewrite exec_generateImages_started by exact Hp. now apply guardedBlock_ok. }
  assert (Hout : outcome (generateImages env inp) w = Ok tt).
  { unfold outcome. rewrite generateImages_started by exact Hp.
    unfold guardedBlock, try_finally, try_catch, bind. fold w0.
    unfold outcome in Ho. unfold w3, exec in *.
    destruct (generateUnits env inp w0) as [r wx]; cbn [fst snd] in *. rewrite Ho.
    rewrite finalize_run. now destruct (allGeneratedImages wx). }
  destruct (finalize_keeps env inp w3) as (Hkimgs & Hkslots & Hkcalls).
  assert (Hslots : placeholders (exec (generateImages env inp) w)
                   = loopSlots env (ncalls KMultimodal w) 0 plan (placeholders w0)).
  { rewrite Hfinal. unfold restored, hideProgress.
    cbn [placeholders set_progress set_generateButton]. now rewrite Hkslots, Hsl. }
  assert (Hlen0 : length (placeholders w0) = Z.to_nat c).
  { unfold w0, started. cbn [placeholders set_allGeneratedImages set_placeholders].
    rewrite Hc. apply length_replicate. }
  split; [exact Hout |]. split; [| split; [| split; [| split]]].
  - rewrite Hfinal. unfold restored, hideProgress.
    cbn [allGeneratedImages set_progress set_generateButton]. now rewrite Hkimgs.
  - rewrite Hfinal. unfold restored, hideProgress.
    cbn [totalGeneratedCount set_progress set_generateButton].
    pose proof (finalize_fields env inp w3) as Hfin.
    destruct (allGeneratedImages w3) as [|first rest] eqn:Himg3.
    + simpl in Hcount. lia.
    + destruct Hfin as (_ & _ & -> & _).
      change (totalGeneratedCount (outsideUnits w3) + Z.of_nat (S (length rest))
              = totalGeneratedCount w + (c - 1)).
      rewrite Hframe. simpl in Hcount. cbn [totalGeneratedCount outsideUnits]. 
      change (totalGeneratedCount (outsideUnits w0)) with (totalGeneratedCount w). lia.
  - rewrite Hfinal. unfold restored, hideProgress, ncalls.
    cbn [calls set_progress set_generateButton]. rewrite Hkcalls.
    fold (ncalls KMultimodal w3). rewrite Hn. unfold plan. now rewrite length_replicate.
  - rewrite Hslots.
    rewrite (loopSlots_lookup env plan (ncalls KMultimodal w) 0 _ k (promptInput inp));
      [| lia | lia | rewrite Nat.sub_0_r; now apply Hplan].
    rewrite Nat.sub_0_r. unfold unitSlot. now rewrite Hfail.
  - intros j Hj Hjk. specialize (Hothers j Hj Hjk).
    destruct (unitResult env (ncalls KMultimodal w + j) (promptInput inp)) as [[img cap]|] eqn:Hres;
      [| congruence].
    exists img, cap. split; [reflexivity |]. rewrite Hslots.
    rewrite (loopSlots_lookup env plan (ncalls KMultimodal w) 0 _ j (promptInput inp));
      [| lia | lia | rewrite Nat.sub_0_r; now apply Hplan].
    rewrite Nat.sub_0_r. unfold unitSlot. now rewrite Hres.
Qed.

(** C1 on the Imagen path with diversification, at a plan of two prompts.
    When the request of the unit at index 0 is rejected, the error leaves
    [generateAndProcessImage] and the loop: the unit at index 1, whose
    request would have returned an image, is never requested, nothing is
    collected, and the run ends in the top-level error with the gallery
    replaced by the failure message. When the unit at index 1 is the one
    rejected, the image of unit 0, already collected and shown, is wiped
    with the gallery, and neither the ledger nor the running total see it.
    On the multimodal path the same rejection at index 0 stays in its
    unit: the other unit is collected and recorded. *)
Theorem imagen_unit_rejection_aborts_run :
  (calls (exec (generateImages (imagenFailsAt 0) (mkInputs "city" (Int 2) imagenModel true))
            freshWorld)
     = [CallImagen imagenModel "city at dawn" (Int 1); CallDiversify "city" (Int 2)]
   /\ imagenApi (imagenFailsAt 0) 1 imagenModel "city at night" (Int 1) = Ok [png "QUJD"]
   /\ allGeneratedImages
        (exec (generateImages (imagenFailsAt 0) (mkInputs "city" (Int 2) imagenModel true))
           freshWorld) = []
   /\ errorBanner
        (exec (generateImages (imagenFailsAt 0) (mkInputs "city" (Int 2) imagenModel true))
           freshWorld) = Some "An error occurred: 503 Service Unavailable"
   /\ imageGallery
        (exec (generateImages (imagenFailsAt 0) (mkInputs "city" (Int 2) imagenModel true))
           freshWorld) = Some failedHtml)
  /\ (allGeneratedImages
        (exec (generateImages (imagenFailsAt 1) (mkInputs "city" (Int 2) imagenModel true))
           freshWorld) = [png "QUJD"]
      /\ imageGallery
           (exec (generateImages (imagenFailsAt 1) (mkInputs "city" (Int 2) imagenModel true))
              freshWorld) = Some failedHtml
      /\ generationHistory
           (exec (generateImages (imagenFailsAt 1) (mkInputs "city" (Int 2) imagenModel true))
              freshWorld) = []
      /\ totalGeneratedCount
           (exec (generateImages (imagenFailsAt 1) (mkInputs "city" (Int 2) imagenModel true))
              freshWorld) = 0)
  /\ (length
        (allGeneratedImages
           (exec (generateImages (multimodalFailsAt 0)
                    (mkInputs "city" (Int 2) multimodalModel true)) freshWorld)) = 1%nat
      /\ imageGallery
           (exec (generateImages (multimodalFailsAt 0)
                    (mkInputs "city" (Int 2) multimodalModel true)) freshWorld) = None
      /\ map HistoryItem.thumbnail
           (generationHistory
              (exec (generateImages (multimodalFailsAt 0)
                       (mkInputs "city" (Int 2) multimodalModel true)) freshWorld)) = ["QUJD"]).
Proof. vm_compute. repeat split. Qed.

(* ------------------------------------------------------------------ *)
(** ** Every run, whatever its outcome *)

Lemma framed_field {A : Type} (f : World -> A) w w' :
  (forall x, f (outsideUnits x) = f x) -> outsideUnits w' = outsideUnits w -> f w' = f w.
Proof. intros Hf H. rewrite <- (Hf w'), <- (Hf w). now rewrite H. Qed.

(** The guarded block either caught an error of the unit generation or
    ran the final step. *)
Lemma guardedBlock_cases env inp originalButtonText w :
  (exists e,
     outcome (generateUnits env inp) w = Throw e
     /\ exec (guardedBlock env inp originalButtonText) w
        = restored originalButtonText
            (set_imageGallery (Some failedHtml)
               (set_errorBanner
                  (Some ("An error occurred: " +:+ js_or e "Could not generate images."))
                  (exec (generateUnits env inp) w))))
  \/ (outcome (generateUnits env inp) w = Ok tt
      /\ exec (guardedBlock env inp originalButtonText) w
         = restored originalButtonText (exec (finalize env inp) (exec (generateUnits env inp) w))).
Proof.
  destruct (outcome (generateUnits env inp) w) as [[]|e] eqn:Ho; [right | left].
  - split; [reflexivity | now apply guardedBlock_ok].
  - exists e. split; [reflexivity | now apply guardedBlock_throw].
Qed.



(** The counters after the final step. *)
Lemma finalize_counts env inp w :
  totalGeneratedCount (exec (finalize env inp) w)
    = totalGeneratedCount w + Z.of_nat (length (allGeneratedImages w))
  /\ uiCounts (exec (finalize env inp) w)
     = match allGeneratedImages w with
       | [] => uiCounts w
       | _ :: _ => (Z.of_nat (length (allGeneratedImages w)),
                    totalGeneratedCount w + Z.of_nat (length (allGeneratedImages w)))
       end.
Proof.
  unfold exec. rewrite finalize_run.
  destruct (allGeneratedImages w) as [|first rest]; cbn [snd length].
  - split; [cbn; lia | reflexivity].
  - unfold exec. rewrite addToHistory_run.
    destruct (setItemThrows env (setItemCalls w)); split; reflexivity.
Qed.



(** X2. The counters shown after a run with a prompt agree with the
    running total: the total never decreases, the gallery counter shows
    what this run added to it, and the total counter shows the total. A
    run that ended in the top-level error adds nothing; a run that
    reached its final step adds the number of collected images. *)
Theorem counters_consistent env inp w :
  truthy (promptInput inp) = true ->
  totalGeneratedCount w <= totalGeneratedCount (exec (generateImages env inp) w)
  /\ uiCounts (exec (generateImages env inp) w)
     = (totalGeneratedCount (exec (generateImages env inp) w) - totalGeneratedCount w,
        totalGeneratedCount (exec (generateImages env inp) w))
  /\ ((imageGallery (exec (generateImages env inp) w) = Some failedHtml
       /\ totalGeneratedCount (exec (generateImages env inp) w) = totalGeneratedCount w)
      \/ totalGeneratedCount (exec (generateImages env inp) w)
         = totalGeneratedCount w
           + Z.of_nat (length (allGeneratedImages (exec (generateImages env inp) w))))
  /\ (imageGallery (exec (generateImages env inp) w) = Some failedHtml ->
      totalGeneratedCount (exec (generateImages env inp) w) = totalGeneratedCount w)
  /\ (imageGallery (exec (generateImages env inp) w) <> Some failedHtml ->
      totalGeneratedCount (exec (generateImages env inp) w)
      = totalGeneratedCount w
        + Z.of_nat (length (allGeneratedImages (exec (generateImages env inp) w)))).
Proof.
  intros Hp. rewrite exec_generateImages_started by exact Hp.
  set (w0 := started inp w).
  pose proof (generateUnits_outside env inp w0) as Hframe.
  assert (Ht : totalGeneratedCount (exec (generateUnits env inp) w0) = totalGeneratedCount w)
    by (apply (framed_field totalGeneratedCount _ _ (fun _ => eq_refl) Hframe)).
  assert (Hu : uiCounts (exec (generateUnits env inp) w0) = (0, totalGeneratedCount w))
    by (apply (framed_field uiCounts _ _ (fun _ => eq_refl) Hframe)).
  destruct (guardedBlock_cases env inp (fst (generateButton w)) w0)
    as [(e & _ & ->) | (_ & ->)]; unfold restored, hideProgress;
    cbn [totalGeneratedCount uiCounts imageGallery allGeneratedImages
         set_progress set_generateButton set_imageGallery set_errorBanner].
  - rewrite Ht, Hu. split; [lia |]. split; [f_equal; lia |].
    split; [left; now split |]. split; [reflexivity | congruence].
  - destruct (finalize_counts env inp (exec (generateUnits env inp) w0)) as (Hc & Hd).
    destruct (finalize_keeps env inp (exec (generateUnits env inp) w0)) as (Hk & _ & _).
    pose proof (finalize_fields env inp (exec (generateUnits env inp) w0)) as Hfin.
    assert (Hgal : imageGallery (exec (generateUnits env inp) w0) = None)
      by (apply (framed_field imageGallery w0 _ (fun _ => eq_refl) Hframe)).
    assert (Hnot : imageGallery (exec (finalize env inp) (exec (generateUnits env inp) w0))
                   <> Some failedHtml).
    { destruct (allGeneratedImages (exec (generateUnits env inp) w0)).
      - destruct Hfin as (_ & _ & _ & ->). discriminate.
      - destruct Hfin as (_ & _ & _ & _ & ->). rewrite Hgal. discriminate. }
    rewrite Hc, Hd, Hk, Ht, Hu.
    split; [lia |]. split.
    { destruct (allGeneratedImages (exec (generateUnits env inp) w0)); cbn [length];
        f_equal; lia. }
    split; [now right |]. split; [intros Hf; now apply Hnot in Hf | reflexivity].
Qed.

Lemma counters_consistent_witness :
  uiCounts (exec (generateImages sunnyEnv (mkInputs "a red fox" (Int 2) imagenModel false))
              freshWorld) = (2, 2)
  /\ uiCounts
       (exec (generateImages (imagenFailsAt 0) (mkInputs "a red fox" (Int 2) imagenModel true))
          freshWorld) = (0, 0).
Proof.
  pose proof (counters_consistent sunnyEnv (mkInputs "a red fox" (Int 2) imagenModel false)
                freshWorld eq_refl) as (_ & Hsunny & _).
  pose proof (counters_consistent (imagenFailsAt 0)
                (mkInputs "a red fox" (Int 2) imagenModel true) freshWorld eq_refl)
    as (_ & Hfails & _).
  split; [rewrite Hsunny | rewrite Hfails]; vm_compute; reflexivity.
Defined.

(** *** The number of containers *)

Section ContainerCount.

Variable env : Environment.
Variable k : nat.
Let K : World -> Prop := fun w => length (placeholders w) = k.

Local Ltac leaf :=
  unfold K; intros ? Hw; cbn; rewrite ?length_insert, ?length_map; exact Hw.

Lemma withContainer_count i e f : stable K (withContainer i e f).
Proof.
  unfold K. intros w Hw. unfold exec, withContainer.
  destruct (placeholders w !! i); cbn; rewrite ?length_insert; exact Hw.
Qed.

Lemma failedHandler_count i p :
  stable K (fun w : World =>
              match placeholders w !! i with
              | Some _ => (Ok tt, set_placeholders (<[i := failedSlot p]> (placeholders w)) w)
              | None => (Ok tt, w)
              end).
Proof.
  unfold K. intros w Hw. unfold exec.
  destruct (placeholders w !! i); cbn; rewrite ?length_insert; exact Hw.
Qed.

Lemma captionOrDefault_count b p : stable K (captionOrDefault env b p).
Proof. unfold captionOrDefault, generateCaption. stable_walk leaf. Qed.

Lemma saveImageToDatabase_count b p m c : stable K (saveImageToDatabase env b p m c).
Proof. unfold saveImageToDatabase, getImageMetadata. stable_walk leaf. Qed.

Lemma populateImageContainer_count img i p c : stable K (populateImageContainer env img i p c).
Proof. apply withContainer_count. Qed.

Lemma getDiversePrompts_count p n : stable K (getDiversePrompts env p n).
Proof. unfold getDiversePrompts. stable_walk leaf. Qed.

Lemma arrayFill_count n p : stable K (arrayFill n p).
Proof. unfold arrayFill. stable_walk leaf. Qed.

Lemma multimodalUnit_count m total i p : stable K (multimodalUnit env m total i p).
Proof.
  unfold multimodalUnit, updateProgress, pushImage.
  stable_walk leaf;
    auto using populateImageContainer_count, saveImageToDatabase_count, failedHandler_count.
Qed.

Lemma multimodalLoop_count m total ps : forall i, stable K (multimodalLoop env m total i ps).
Proof.
  induction ps as [|p ps IH]; intros i; simpl.
  - apply stable_ret.
  - apply stable_bind; [apply multimodalUnit_count | intros _; apply IH].
Qed.

Lemma generateAndProcessImage_count m p i : stable K (generateAndProcessImage env m p i).
Proof.
  unfold generateAndProcessImage.
  stable_walk leaf;
    auto using withContainer_count, captionOrDefault_count, populateImageContainer_count,
               saveImageToDatabase_count.
Qed.

Lemma imagenDiverseLoop_count m total ps : forall i, stable K (imagenDiverseLoop env m total i ps).
Proof.
  induction ps as [|p ps IH]; intros i; simpl.
  - apply stable_ret.
  - unfold updateProgress, pushImage.
    stable_walk leaf; auto using generateAndProcessImage_count.
Qed.

Lemma imagenBatchLoop_count m p imgs : forall i, stable K (imagenBatchLoop env m p i imgs).
Proof.
  induction imgs as [|img imgs IH]; intros i; simpl.
  - apply stable_ret.
  - stable_walk leaf;
      auto using captionOrDefault_count, populateImageContainer_count, saveImageToDatabase_count.
Qed.

Lemma generateUnits_count inp : stable K (generateUnits env inp).
Proof.
  unfold generateUnits, showIndeterminateProgress.
  stable_walk leaf;
    auto using getDiversePrompts_count, arrayFill_count, multimodalLoop_count,
               imagenDiverseLoop_count, imagenBatchLoop_count.
Qed.

End ContainerCount.

(** X3. Whatever the services return (a plan or a batch that is shorter
    or longer than asked for, failures, errors), a run with a prompt ends
    with exactly as many image containers as the loop over the requested
    count created: no unit adds or removes a container. *)
Theorem container_count_kept env inp w :
  truthy (promptInput inp) = true ->
  length (placeholders (exec (generateImages env inp) w)) = iterations (numImagesInput inp).
Proof.
  intros Hp. rewrite exec_generateImages_started by exact Hp.
  set (w0 := started inp w).
  assert (H0 : length (placeholders w0) = iterations (numImagesInput inp))
    by apply length_replicate.
  pose proof (generateUnits_count env _ inp w0 H0) as Hu.
  destruct (guardedBlock_cases env inp (fst (generateButton w)) w0)
    as [(e & _ & ->) | (_ & ->)]; unfold restored, hideProgress;
    cbn [placeholders set_progress set_generateButton set_imageGallery set_errorBanner].
  - exact Hu.
  - destruct (finalize_keeps env inp (exec (generateUnits env inp) w0)) as (_ & -> & _).
    exact Hu.
Qed.

Lemma container_count_kept_witness :
  length (placeholders
            (exec (generateImages twoImagesEnv (mkInputs "a red fox" (Int 1) imagenModel false))
               freshWorld)) = 1%nat.
Proof.
  exact (container_count_kept twoImagesEnv (mkInputs "a red fox" (Int 1) imagenModel false)
           freshWorld eq_refl).
Defined.

(** X4. A run changes the ledger by at most one entry. When it does, the
    entry is put in front, carries the prompt of the prompt box (the base
    prompt, also when the units were generated from diversified prompts)
    and the selected model, the image of the first collected unit as
    thumbnail, and two consecutive clock readings as id and timestamp. *)
Theorem one_entry_per_run env inp w :
  generationHistory (exec (generateImages env inp) w) = generationHistory w
  \/ exists first rest,
       allGeneratedImages (exec (generateImages env inp) w) = first :: rest
       /\ generationHistory (exec (generateImages env inp) w)
          = {| HistoryItem.id := dateNow env (clockReads w);
               HistoryItem.prompt := promptInput inp;
               HistoryItem.model := generationModelSelect inp;
               HistoryItem.thumbnail := imageBytes first;
               HistoryItem.timestamp := dateNow env (S (clockReads w)) |}
            :: generationHistory w.
Proof.
  destruct (truthy (promptInput inp)) eqn:Hp.
  2: { left. unfold exec. now rewrite generateImages_empty. }
  rewrite exec_generateImages_started by exact Hp.
  set (w0 := started inp w).
  pose proof (generateUnits_outside env inp w0) as Hframe.
  assert (Hh : generationHistory (exec (generateUnits env inp) w0) = generationHistory w)
    by (apply (framed_field generationHistory _ _ (fun _ => eq_refl) Hframe)).
  assert (Hc : clockReads (exec (generateUnits env inp) w0) = clockReads w)
    by (apply (framed_field clockReads _ _ (fun _ => eq_refl) Hframe)).
  destruct (guardedBlock_cases env inp (fst (generateButton w)) w0)
    as [(e & _ & ->) | (_ & ->)]; unfold restored, hideProgress;
    cbn [generationHistory allGeneratedImages
         set_progress set_generateButton set_imageGallery set_errorBanner].
  - left. exact Hh.
  - pose proof (finalize_fields env inp (exec (generateUnits env inp) w0)) as Hfin.
    destruct (finalize_keeps env inp (exec (generateUnits env inp) w0)) as (Hk & _ & _).
    rewrite Hk.
    destruct (allGeneratedImages (exec (generateUnits env inp) w0)) as [|first rest].
    + left. destruct Hfin as (-> & _). exact Hh.
    + right. exists first, rest. split; [reflexivity |].
      destruct Hfin as (-> & _). unfold newItem. now rewrite Hh, Hc.
Qed.

(* ------------------------------------------------------------------ *)
(** ** Storage of the ledger *)

Lemma clearHistory_run env w :
  clearHistory env w
    = let w1 := set_setItemCalls (S (setItemCalls w)) (set_generationHistory [] w) in
      match setItemThrows env (setItemCalls w) with
      | None => (Ok tt, set_localStorage (Some (JsonLedger [])) w1)
      | Some _ => (Ok tt, set_errorBanner (Some saveFailed) w1)
      end.
Proof.
  unfold clearHistory, bind, modify, saveHistory, try_catch, renderHistory, ret, displayError,
    modify. simpl.
  destruct (setItemThrows env (setItemCalls w)); reflexivity.
Qed.

(** X5. Save and load are a round trip: when the storage write succeeds,
    the ledger that [loadHistory] restores on a reloaded page is the
    ledger [addToHistory] left in memory, new entry first; and after
    [clearHistory] both the ledger in memory and the restored one are
    empty. *)
Theorem ledger_round_trip env prompt model image w :
  setItemThrows env (setItemCalls w) = None ->
  generationHistory (exec (addToHistory env prompt model image) w)
    = newItem env w prompt model image :: generationHistory w
  /\ generationHistory
       (exec loadHistory (reopened (exec (addToHistory env prompt model image) w)))
     = generationHistory (exec (addToHistory env prompt model image) w)
  /\ generationHistory (exec (clearHistory env) w) = []
  /\ generationHistory (exec loadHistory (reopened (exec (clearHistory env) w))) = [].
Proof.
  intros Hs. rewrite !loadHistory_reopened. unfold exec.
  rewrite addToHistory_run, clearHistory_run. cbv zeta. rewrite Hs. repeat split.
Qed.

Lemma ledger_round_trip_witness :
  generationHistory
    (exec loadHistory (reopened (exec (addToHistory sunnyEnv "a red fox" imagenModel (png "QUJD"))
                                   freshWorld)))
    = generationHistory (exec (addToHistory sunnyEnv "a red fox" imagenModel (png "QUJD")) freshWorld)
  /\ map HistoryItem.thumbnail
       (generationHistory
          (exec (addToHistory sunnyEnv "a red fox" imagenModel (png "QUJD")) freshWorld))
     = ["QUJD"].
Proof.
  pose proof (ledger_round_trip sunnyEnv "a red fox" imagenModel (png "QUJD") freshWorld eq_refl)
    as (_ & H & _).
  split; [exact H | reflexivity].
Defined.

(** X6. A stored ledger that cannot be read or drawn does not raise: when
    the stored text is not JSON, or is JSON of a value on which drawing
    the history list throws ([null], a number, a boolean, a non-empty
    string, an object whose [length] is not 0, an array with a [null]
    entry), [loadHistory] returns normally with an empty ledger and
    changes nothing else. The next entry recorded with a successful write
    replaces the stored text, so that a reload then restores exactly that
    entry. (A stored value that is drawn without an error although it is
    no array of items is kept by [loadHistory] and is not covered.) *)
Theorem corrupt_storage_recovers env prompt model image w :
  localStorage w = Some NotJson \/ localStorage w = Some JsonOther ->
  loadHistory w = (Ok tt, set_generationHistory [] w)
  /\ (setItemThrows env (setItemCalls w) = None ->
      generationHistory
        (exec loadHistory
           (reopened (exec (addToHistory env prompt model image) (exec loadHistory w))))
      = [newItem env w prompt model image]).
Proof.
  intros Hc.
  assert (Hl : loadHistory w = (Ok tt, set_generationHistory [] w)).
  { unfold loadHistory, try_catch, bind, gets, modify, renderHistory, ret, throw.
    destruct Hc as [-> | ->]; reflexivity. }
  split; [exact Hl |]. intros Hs.
  rewrite loadHistory_reopened. unfold exec. rewrite Hl. cbn [snd].
  rewrite addToHistory_run. cbv zeta.
  cbn [setItemCalls set_generationHistory]. rewrite Hs. reflexivity.
Qed.

Lemma corrupt_storage_recovers_witness :
  loadHistory (set_localStorage (Some NotJson) freshWorld)
    = (Ok tt, set_generationHistory [] (set_localStorage (Some NotJson) freshWorld)).
Proof.
  exact (proj1 (corrupt_storage_recovers sunnyEnv "a red fox" imagenModel (png "QUJD")
                  (set_localStorage (Some NotJson) freshWorld) (or_introl eq_refl))).
Defined.

(** X7. A full storage does not lose the entry in memory: when
    [localStorage.setItem] throws, [addToHistory] still returns normally
    with the new entry in front of the ledger and reports the failure in
    the banner; the stored text is left as it was, so a reload restores
    the older stored ledger, without the entry. *)
Theorem storage_full_keeps_entry env prompt model image w e :
  setItemThrows env (setItemCalls w) = Some e ->
  outcome (addToHistory env prompt model image) w = Ok tt
  /\ generationHistory (exec (addToHistory env prompt model image) w)
     = newItem env w prompt model image :: generationHistory w
  /\ errorBanner (exec (addToHistory env prompt model image) w) = Some saveFailed
  /\ localStorage (exec (addToHistory env prompt model image) w) = localStorage w
  /\ generationHistory
       (exec loadHistory (reopened (exec (addToHistory env prompt model image) w)))
     = storedLedger (localStorage w).
Proof.
  intros Hs. rewrite loadHistory_reopened. unfold outcome, exec.
  rewrite addToHistory_run. cbv zeta. rewrite Hs. repeat split.
Qed.

Lemma storage_full_keeps_entry_witness :
  map HistoryItem.thumbnail
    (generationHistory
       (exec (addToHistory storageFullEnv "a red fox" imagenModel (png "QUJD")) freshWorld))
    = ["QUJD"]
  /\ generationHistory
       (exec loadHistory
          (reopened (exec (addToHistory storageFullEnv "a red fox" imagenModel (png "QUJD"))
                       freshWorld)))
     = [].
Proof.
  pose proof (storage_full_keeps_entry storageFullEnv "a red fox" imagenModel (png "QUJD")
                freshWorld "QuotaExceededError" eq_refl) as (_ & H1 & _ & _ & H2).
  split; [now rewrite H1 | exact H2].
Defined.

(* ------------------------------------------------------------------ *)
(** ** The background save *)

(** X8. The background save never fails outward and touches nothing but
    the request log: it issues exactly one classification request and at
    most one POST. The POST carries the image, prompt, model and caption
    it was given; its title and category are the classifier's, or the
    fallback (first 50 characters of the prompt, Other) when the
    classification request is rejected or its text is not JSON. When the
    classifier's value is null, nothing is posted. *)
Theorem background_save_isolated env base64 prompt model caption w :
  exists issued,
    saveImageToDatabase env base64 prompt model caption w
      = (Ok tt, set_calls (issued ++ calls w) w)
    /\ match metadataApi env (ncalls KMetadata w) prompt with
       | Ok (Parses MetaNull) => issued = [CallMetadata prompt]
       | Ok (Parses (MetaFields title category)) =>
           issued = [CallDatabase {| p_title := title; p_prompt := prompt;
                                     p_category := category; p_model := model;
                                     p_caption := caption; p_imageData := base64 |};
                     CallMetadata prompt]
       | Ok (SyntaxError _) | Throw _ =>
           issued = [CallDatabase {| p_title := Some (substring 0 50 prompt); p_prompt := prompt;
                                     p_category := Some "Other"; p_model := model;
                                     p_caption := caption; p_imageData := base64 |};
                     CallMetadata prompt]
       end.
Proof.
  exists (dbCalls env (ncalls KMetadata w) base64 prompt model caption).
  split; [apply saveImageToDatabase_spec |].
  unfold dbCalls. destruct (metadataApi env (ncalls KMetadata w) prompt) as [[e|[|t c]]|e];
    reflexivity.
Qed.

(* ------------------------------------------------------------------ *)
(** ** An empty caption *)

(** X9. An empty caption counts as no caption. When the captioning
    service answers the guarded call of [generateAndProcessImage] with an
    empty text, the unit still succeeds, but its container shows
    [Generating caption...] and stays loading; when the image then loads,
    a second captioning request is made for the same image and prompt, and
    its text (or [Could not generate caption.] if it fails) becomes the
    caption and the loading state ends. *)
Theorem empty_caption_is_retried env m p i w imageData rest s :
  placeholders w !! i = Some s ->
  imagenApi env (ncalls KImagen w) m p (Int 1) = Ok (imageData :: rest) ->
  captionApi env (ncalls KCaption w) (imageBytes imageData) p = Ok EmptyString ->
  outcome (generateAndProcessImage env m p i) w = Ok (Some imageData)
  /\ placeholders (exec (generateAndProcessImage env m p i) w) !! i
     = Some (SlotImage (imageBytes imageData) p "Generating caption..." true
               (Some CaptionThenFinish))
  /\ calls (exec (imgOnload env i) (exec (generateAndProcessImage env m p i) w))
     = CallCaption (imageBytes imageData) p :: calls (exec (generateAndProcessImage env m p i) w)
  /\ placeholders (exec (imgOnload env i) (exec (generateAndProcessImage env m p i) w)) !! i
     = Some (SlotImage (imageBytes imageData) p
               (match captionApi env (S (ncalls KCaption w)) (imageBytes imageData) p with
                | Ok t => t
                | Throw _ => "Could not generate caption."
                end) false (Some CaptionThenFinish)).
Proof.
  intros Hi Himg Hcap.
  pose proof (generateAndProcessImage_run env m p i w) as Hrun. cbv zeta in Hrun.
  rewrite Himg, Hi in Hrun. unfold captionTextOf in Hrun. rewrite Hcap in Hrun.
  set (w1 := exec (generateAndProcessImage env m p i) w).
  assert (Hw1 : w1 = snd (generateAndProcessImage env m p i w)) by reflexivity.
  rewrite Hrun in Hw1. cbn [snd] in Hw1.
  assert (Hslot : placeholders w1 !! i
                  = Some (SlotImage (imageBytes imageData) p "Generating caption..." true
                            (Some CaptionThenFinish))).
  { rewrite Hw1. cbn [placeholders set_calls set_placeholders].
    apply list_lookup_insert_eq. now apply lookup_lt_Some in Hi. }
  assert (Hn : ncalls KCaption w1 = S (ncalls KCaption w)).
  { rewrite Hw1.
    change (kindCount KCaption
              (dbCalls env (ncalls KMetadata w) (imageBytes imageData) p m EmptyString
               ++ CallCaption (imageBytes imageData) p :: CallImagen m p (Int 1) :: calls w)
            = S (kindCount KCaption (calls w))).
    rewrite kindCount_app.
    destruct (dbCalls_kinds env (ncalls KMetadata w) (imageBytes imageData) p m EmptyString)
      as (_ & _ & _ & -> & _).
    reflexivity. }
  split; [unfold outcome; now rewrite Hrun |]. split; [exact Hslot |].
  unfold exec. rewrite (imgOnload_deferred env i w1 _ _ _ _ Hslot). cbn [snd].
  rewrite Hn. split; [reflexivity |].
  cbn [placeholders set_placeholders set_calls].
  apply list_lookup_insert_eq. now apply lookup_lt_Some in Hslot.
Qed.

Lemma empty_caption_is_retried_witness :
  map captionOf
    (placeholders
       (exec (imgOnload emptyCaptionFirstEnv 0)
          (exec (generateAndProcessImage emptyCaptionFirstEnv imagenModel "a red fox" 0)
             (started (mkInputs "a red fox" (Int 1) imagenModel true) freshWorld))))
    = [Some "a late caption"].
Proof.
  pose proof (empty_caption_is_retried emptyCaptionFirstEnv imagenModel "a red fox" 0
                (started (mkInputs "a red fox" (Int 1) imagenModel true) freshWorld)
                (png "QUJD") [] SlotLoading eq_refl eq_refl eq_refl) as (_ & _ & _ & H).
  vm_compute in H. vm_compute. congruence.
Defined.

(* ------------------------------------------------------------------ *)
(** ** Which services a path talks to *)

Section OnlyKinds.

Variable env : Environment.
Variable allowed : CallKind -> bool.
Variable base : list Call.

(** The requests issued since [base] are all of an allowed kind. *)
Let Q : World -> Prop :=
  fun w => exists later,
      calls w = later ++ base /\ forallb (fun c => allowed (kindOf c)) later = true.

Hypothesis allow_diversify : allowed KDiversify = true.
Hypothesis allow_multimodal : allowed KMultimodal = true.
Hypothesis allow_imagen : allowed KImagen = true.
Hypothesis allow_caption : allowed KCaption = true.
Hypothesis allow_metadata : allowed KMetadata = true.
Hypothesis allow_database : allowed KDatabase = true.

Local Ltac leaf :=
  unfold Q;
  first [ intros ? (later & Hl & Ha); exists later; split; [exact Hl | exact Ha]
        | intros ? (later & Hl & Ha); eexists (_ :: later); split;
          [ simpl; rewrite Hl; reflexivity
          | simpl; rewrite Ha, ?allow_diversify, ?allow_multimodal, ?allow_imagen,
              ?allow_caption, ?allow_metadata, ?allow_database; reflexivity ] ].

Lemma withContainer_kinds i e f : stable Q (withContainer i e f).
Proof.
  unfold Q. intros w (later & Hl & Ha). exists later. unfold exec, withContainer.
  destruct (placeholders w !! i); split; assumption.
Qed.

Lemma failedHandler_kinds i p :
  stable Q (fun w : World =>
              match placeholders w !! i with
              | Some _ => (Ok tt, set_placeholders (<[i := failedSlot p]> (placeholders w)) w)
              | None => (Ok tt, w)
              end).
Proof.
  unfold Q. intros w (later & Hl & Ha). exists later. unfold exec.
  destruct (placeholders w !! i); split; assumption.
Qed.

Lemma saveImageToDatabase_kinds b p m c : stable Q (saveImageToDatabase env b p m c).
Proof. unfold saveImageToDatabase, getImageMetadata. stable_walk leaf. Qed.

Lemma captionOrDefault_kinds b p : stable Q (captionOrDefault env b p).
Proof. unfold captionOrDefault, generateCaption. stable_walk leaf. Qed.

Lemma getDiversePrompts_kinds p n : stable Q (getDiversePrompts env p n).
Proof. unfold getDiversePrompts. stable_walk leaf. Qed.

Lemma arrayFill_kinds n p : stable Q (arrayFill n p).
Proof. unfold arrayFill. stable_walk leaf. Qed.

Lemma multimodalUnit_kinds m total i p : stable Q (multimodalUnit env m total i p).
Proof.
  unfold multimodalUnit, updateProgress, pushImage, populateImageContainer.
  stable_walk leaf;
    auto using withContainer_kinds, saveImageToDatabase_kinds, failedHandler_kinds.
Qed.

Lemma multimodalLoop_kinds m total ps : forall i, stable Q (multimodalLoop env m total i ps).
Proof.
  induction ps as [|p ps IH]; intros i; simpl.
  - apply stable_ret.
  - apply stable_bind; [apply multimodalUnit_kinds | intros _; apply IH].
Qed.

Lemma generateAndProcessImage_kinds m p i : stable Q (generateAndProcessImage env m p i).
Proof.
  unfold generateAndProcessImage, populateImageContainer.
  stable_walk leaf;
    auto using withContainer_kinds, captionOrDefault_kinds, saveImageToDatabase_kinds.
Qed.

Lemma imagenDiverseLoop_kinds m total ps : forall i, stable Q (imagenDiverseLoop env m total i ps).
Proof.
  induction ps as [|p ps IH]; intros i; simpl.
  - apply stable_ret.
  - unfold updateProgress, pushImage.
    stable_walk leaf; auto using generateAndProcessImage_kinds.
Qed.

Lemma imagenBatchLoop_kinds m p imgs : forall i, stable Q (imagenBatchLoop env m p i imgs).
Proof.
  induction imgs as [|img imgs IH]; intros i; simpl.
  - apply stable_ret.
  - unfold populateImageContainer.
    stable_walk leaf;
      auto using captionOrDefault_kinds, withContainer_kinds, saveImageToDatabase_kinds.
Qed.

(** The multimodal branch of [generateUnits]. *)
Lemma generateUnits_multimodal_kinds inp :
  String.eqb (generationModelSelect inp) multimodalModel = true ->
  stable Q (generateUnits env inp).
Proof.
  intros Hm. unfold generateUnits, showIndeterminateProgress. rewrite Hm.
  stable_walk leaf;
    auto using getDiversePrompts_kinds, arrayFill_kinds, multimodalLoop_kinds.
Qed.

(** The Imagen branches of [generateUnits]. *)
Lemma generateUnits_imagen_kinds inp :
  String.eqb (generationModelSelect inp) multimodalModel = false ->
  stable Q (generateUnits env inp).
Proof.
  intros Hm. unfold generateUnits, showIndeterminateProgress. rewrite Hm.
  stable_walk leaf;
    auto using getDiversePrompts_kinds, imagenDiverseLoop_kinds, imagenBatchLoop_kinds.
Qed.

(** The multimodal branch when the diversifier is not consulted. *)
Lemma generateUnits_plain_kinds inp :
  String.eqb (generationModelSelect inp) multimodalModel = true ->
  diverseSubjectsCheckbox inp && js_gt (numImagesInput inp) 1 = false ->
  stable Q (generateUnits env inp).
Proof.
  intros Hm Hd. unfold generateUnits. rewrite Hm, Hd.
  stable_walk leaf; auto using arrayFill_kinds, multimodalLoop_kinds.
Qed.

End OnlyKinds.

Lemma forallb_kindCount allowed k later :
  forallb (fun c => allowed (kindOf c)) later = true ->
  allowed k = false ->
  kindCount k later = 0%nat.
Proof.
  intros Ha Hk. induction later as [|c later IH]; [reflexivity |].
  simpl in Ha. apply andb_prop in Ha as [Hc Ha].
  unfold kindCount in *. simpl.
  destruct (sameKind (kindOf c) k) eqn:Hs; [| now apply IH].
  assert (kindOf c = k) as <- by (destruct (kindOf c), k; simpl in Hs; congruence).
  congruence.
Qed.

(** A run whose unit generation issues only allowed kinds issues no
    request of any other kind. *)
Lemma run_kinds env inp allowed w k :
  (forall base, stable (fun w' => exists later,
                           calls w' = later ++ base
                           /\ forallb (fun c => allowed (kindOf c)) later = true)
                  (generateUnits env inp)) ->
  allowed k = false ->
  ncalls k (exec (generateImages env inp) w) = ncalls k w.
Proof.
  intros Hst Hk. destruct (truthy (promptInput inp)) eqn:Hp.
  2: { unfold exec. now rewrite generateImages_empty. }
  rewrite exec_generateImages_started by exact Hp.
  unfold ncalls. rewrite guardedBlock_calls.
  destruct (Hst (calls w) (started inp w)) as (later & Hl & Ha).
  { exists []. split; reflexivity. }
  rewrite Hl. fold (kindCount k (later ++ calls w)). rewrite kindCount_app.
  now rewrite (forallb_kindCount allowed k later Ha Hk).
Qed.

(** X10. The two paths keep to their own services. A run with the
    multimodal model selected never asks the captioning service or the
    Imagen service (the caption is the inline one, or the default), and
    without a diversity request above one image it never asks the
    diversifier either; a run with any other model never asks the
    multimodal service. This holds whatever the services answer. *)
Theorem paths_keep_to_their_services env inp w :
  (String.eqb (generationModelSelect inp) multimodalModel = true ->
   ncalls KCaption (exec (generateImages env inp) w) = ncalls KCaption w
   /\ ncalls KImagen (exec (generateImages env inp) w) = ncalls KImagen w
   /\ (diverseSubjectsCheckbox inp && js_gt (numImagesInput inp) 1 = false ->
       ncalls KDiversify (exec (generateImages env inp) w) = ncalls KDiversify w))
  /\ (String.eqb (generationModelSelect inp) multimodalModel = false ->
      ncalls KMultimodal (exec (generateImages env inp) w) = ncalls KMultimodal w).
Proof.
  split.
  - intros Hm.
    pose (allowed := fun k => match k with KCaption | KImagen => false | _ => true end).
    assert (Hst : forall base,
               stable (fun w' => exists later,
                           calls w' = later ++ base
                           /\ forallb (fun c => allowed (kindOf c)) later = true)
                 (generateUnits env inp)).
    { intros base.
      apply (generateUnits_multimodal_kinds env allowed base) with (inp := inp); auto. }
    split; [| split].
    + apply (run_kinds env inp allowed w KCaption Hst eq_refl).
    + apply (run_kinds env inp allowed w KImagen Hst eq_refl).
    + intros Hd.
      pose (plain := fun k => match k with
                              | KMultimodal | KMetadata | KDatabase => true
                              | _ => false
                              end).
      apply (run_kinds env inp plain w KDiversify); [| reflexivity].
      intros base. apply (generateUnits_plain_kinds env plain base) with (inp := inp); auto.
  - intros Hm.
    pose (others := fun k => match k with KMultimodal => false | _ => true end).
    apply (run_kinds env inp others w KMultimodal); [| reflexivity].
    intros base. apply (generateUnits_imagen_kinds env others base) with (inp := inp); auto.
Qed.

(* ------------------------------------------------------------------ *)
(** ** The plan without diversification *)

(** The multimodal branch when the diversifier is not consulted. *)
Lemma generateUnits_plain env inp w :
  String.eqb (generationModelSelect inp) multimodalModel = true ->
  diverseSubjectsCheckbox inp && js_gt (numImagesInput inp) 1 = false ->
  generateUnits env inp w
    = match numImagesInput inp with
      | Int z =>
          if (0 <=? z) && (z <? 2 ^ 32)
          then multimodalLoop env (generationModelSelect inp) (Z.to_nat z) 0
                 (replicate (Z.to_nat z) (promptInput inp)) w
          else (Throw "Invalid array length", w)
      | NaN => (Throw "Invalid array length", w)
      end.
Proof.
  intros Hm Hd. unfold generateUnits. rewrite Hm, Hd. unfold bind, arrayFill.
  destruct (numImagesInput inp) as [|z]; [reflexivity |].
  destruct ((0 <=? z) && (z <? 2 ^ 32)); [| reflexivity].
  unfold ret. now rewrite length_replicate.
Qed.

(** X11. Without diversification (the box unchecked, or a count of at
    most one) and with a count [c] that is a valid array length, the plan
    of the multimodal path is [c] copies of the base prompt: the run
    issues exactly [c] generation requests, each for the base prompt, one
    after the other, it always reaches its final step, and the collected
    images are those of the successful units in order. *)
Theorem plain_plan_repeats_prompt env inp w c :
  truthy (promptInput inp) = true ->
  String.eqb (generationModelSelect inp) multimodalModel = true ->
  diverseSubjectsCheckbox inp && js_gt (numImagesInput inp) 1 = false ->
  numImagesInput inp = Int c ->
  0 <= c < 2 ^ 32 ->
  promptsGenerated (calls (exec (generateImages env inp) w))
    = promptsGenerated (calls w) ++ replicate (Z.to_nat c) (promptInput inp)
  /\ ncalls KMultimodal (exec (generateImages env inp) w)
     = (ncalls KMultimodal w + Z.to_nat c)%nat
  /\ allGeneratedImages (exec (generateImages env inp) w)
     = loopImages env (ncalls KMultimodal w) (replicate (Z.to_nat c) (promptInput inp))
  /\ (imageGallery (exec (generateImages env inp) w) = None
      \/ imageGallery (exec (generateImages env inp) w) = Some noResultsHtml).
Proof.
  intros Hp Hm Hd Hc Hrange.
  rewrite exec_generateImages_started by exact Hp.
  set (w0 := started inp w).
  set (plan := replicate (Z.to_nat c) (promptInput inp)).
  pose proof (generateUnits_plain env inp w0 Hm Hd) as Hrun. rewrite Hc in Hrun.
  destruct (Z.leb_spec 0 c); [| lia]. destruct (Z.ltb_spec c (2 ^ 32)); [| lia].
  cbn [andb] in Hrun. fold plan in Hrun.
  assert (Hex : exec (generateUnits env inp) w0
                = exec (multimodalLoop env (generationModelSelect inp) (Z.to_nat c) 0 plan) w0)
    by (unfold exec; now rewrite Hrun).
  assert (Hou : outcome (generateUnits env inp) w0
                = outcome (multimodalLoop env (generationModelSelect inp) (Z.to_nat c) 0 plan) w0)
    by (unfold outcome; now rewrite Hrun).
  destruct (multimodalLoop_spec env (generationModelSelect inp) (Z.to_nat c) plan 0 w0)
    as (Ho & Himgs & _ & Hn & Hprompts).
  rewrite <- Hex in Himgs, Hn, Hprompts. rewrite <- Hou in Ho.
  pose proof (generateUnits_outside env inp w0) as Hframe.
  rewrite (guardedBlock_ok env inp _ w0 Ho).
  destruct (finalize_keeps env inp (exec (generateUnits env inp) w0)) as (Hki & _ & Hkc).
  unfold restored, hideProgress, ncalls.
  cbn [calls allGeneratedImages imageGallery set_progress set_generateButton].
  rewrite Hkc, Hki. fold (ncalls KMultimodal (exec (generateUnits env inp) w0)).
  split; [exact Hprompts |]. split; [rewrite Hn; unfold plan; now rewrite length_replicate |].
  split; [exact Himgs |].
  pose proof (finalize_fields env inp (exec (generateUnits env inp) w0)) as Hfin.
  destruct (allGeneratedImages (exec (generateUnits env inp) w0)).
  - right. apply Hfin.
  - left. destruct Hfin as (_ & _ & _ & _ & ->).
    apply (framed_field imageGallery _ _ (fun _ => eq_refl) Hframe).
Qed.

Lemma plain_plan_repeats_prompt_witness :
  promptsGenerated
    (calls (exec (generateImages sunnyEnv (mkInputs "a red fox" (Int 3) multimodalModel false))
              freshWorld))
    = ["a red fox"; "a red fox"; "a red fox"].
Proof.
  exact (proj1 (plain_plan_repeats_prompt sunnyEnv
                  (mkInputs "a red fox" (Int 3) multimodalModel false) freshWorld 3
                  eq_refl eq_refl eq_refl eq_refl ltac:(vm_compute; split; congruence))).
Defined.

(** X12. A count that is NaN (an empty number box) or negative aborts a
    multimodal run without diversification before any request: the loop
    over the count creates no container, [Array(numberOfImages)] throws,
    the error is shown, the gallery shows the failure message, and the
    ledger and the running total are as before. *)
Theorem invalid_count_aborts env inp w :
  truthy (promptInput inp) = true ->
  String.eqb (generationModelSelect inp) multimodalModel = true ->
  diverseSubjectsCheckbox inp && js_gt (numImagesInput inp) 1 = false ->
  match numImagesInput inp with
  | NaN => True
  | Int z => z < 0
  end ->
  calls (exec (generateImages env inp) w) = calls w
  /\ placeholders (exec (generateImages env inp) w) = []
  /\ errorBanner (exec (generateImages env inp) w)
     = Some "An error occurred: Invalid array length"
  /\ imageGallery (exec (generateImages env inp) w) = Some failedHtml
  /\ generationHistory (exec (generateImages env inp) w) = generationHistory w
  /\ totalGeneratedCount (exec (generateImages env inp) w) = totalGeneratedCount w.
Proof.
  intros Hp Hm Hd Hbad.
  rewrite exec_generateImages_started by exact Hp.
  set (w0 := started inp w).
  assert (Hrun : generateUnits env inp w0 = (Throw "Invalid array length", w0)).
  { rewrite (generateUnits_plain env inp w0 Hm Hd).
    destruct (numImagesInput inp) as [|z]; [reflexivity |].
    destruct (Z.leb_spec 0 z); destruct (Z.ltb_spec z (2 ^ 32)); cbn [andb];
      try reflexivity; lia. }
  rewrite (guardedBlock_throw env inp _ w0 "Invalid array length")
    by (unfold outcome; now rewrite Hrun).
  unfold exec. rewrite Hrun. repeat split.
  unfold w0, started, restored, hideProgress. cbn.
  destruct (numImagesInput inp) as [|z]; [reflexivity |].
  unfold iterations. destruct z; try lia. reflexivity.
Qed.

Lemma invalid_count_aborts_witness :
  calls (exec (generateImages sunnyEnv (mkInputs "a red fox" NaN multimodalModel false)) freshWorld)
    = []
  /\ imageGallery
       (exec (generateImages sunnyEnv (mkInputs "a red fox" (Int (-2)) multimodalModel true))
          freshWorld) = Some failedHtml.
Proof.
  split.
  - exact (proj1 (invalid_count_aborts sunnyEnv (mkInputs "a red fox" NaN multimodalModel false)
                    freshWorld eq_refl eq_refl eq_refl I)).
  - exact (proj1 (proj2 (proj2 (proj2 (invalid_count_aborts sunnyEnv
                                          (mkInputs "a red fox" (Int (-2)) multimodalModel true)
                                          freshWorld eq_refl eq_refl eq_refl eq_refl))))).
Defined.

(* ------------------------------------------------------------------ *)
(** ** The Imagen paths, end to end *)

(** The Imagen branch with the diversity box checked. *)
Lemma generateUnits_imagen_diverse env inp w :
  String.eqb (generationModelSelect inp) multimodalModel = false ->
  diverseSubjectsCheckbox inp = true ->
  generateUnits env inp w
    = let w1 := set_calls (CallDiversify (promptInput inp) (numImagesInput inp) :: calls w)
                  (set_progress (Indeterminate "Generating diverse prompts...") w) in
      match diversePromptsOf
              (diversifyApi env (ncalls KDiversify w) (promptInput inp) (numImagesInput inp)) with
      | Throw e => (Throw e, w1)
      | Ok plan => imagenDiverseLoop env (generationModelSelect inp) (length plan) 0 plan w1
      end.
Proof.
  intros Hm Hd. unfold generateUnits. rewrite Hm, Hd.
  unfold showIndeterminateProgress, bind, modify. rewrite getDiversePrompts_run.
  change (ncalls KDiversify (set_progress _ w)) with (ncalls KDiversify w).
  destruct (diversePromptsOf _); reflexivity.
Qed.

(** X13. On the Imagen path the diversity box alone decides: when it is
    checked, the diversifier is asked for every count, also for a count of
    one, zero or NaN, and its request is the first of the run. (The
    multimodal path asks it only for a count above one.) *)
Theorem imagen_always_diversifies env inp w :
  truthy (promptInput inp) = true ->
  String.eqb (generationModelSelect inp) multimodalModel = false ->
  diverseSubjectsCheckbox inp = true ->
  exists later,
    calls (exec (generateImages env inp) w)
      = later ++ CallDiversify (promptInput inp) (numImagesInput inp) :: calls w.
Proof.
  intros Hp Hm Hd. rewrite exec_generateImages_started by exact Hp.
  rewrite guardedBlock_calls. set (w0 := started inp w).
  pose proof (generateUnits_imagen_diverse env inp w0 Hm Hd) as Hrun. cbv zeta in Hrun.
  unfold exec. rewrite Hrun.
  destruct (diversePromptsOf _) as [plan|e]; [| now exists []].
  apply (imagenDiverseLoop_log env
           (CallDiversify (promptInput inp) (numImagesInput inp) :: calls w)).
  exists []. reflexivity.
Qed.

Lemma imagen_always_diversifies_witness :
  exists later,
    calls (exec (generateImages sunnyEnv (mkInputs "city" (Int 1) imagenModel true)) freshWorld)
      = later ++ [CallDiversify "city" (Int 1)].
Proof.
  exact (imagen_always_diversifies sunnyEnv (mkInputs "city" (Int 1) imagenModel true) freshWorld
           eq_refl eq_refl eq_refl).
Defined.

(** X14. An empty answer to the batched Imagen request is no error: the
    run returns through its final step with the no-results message in the
    gallery, every container marked as failed, no caption or
    classification request made, and the ledger, the running total and
    the hidden download button as before. No error banner is shown. *)
Theorem empty_batch_is_no_results env inp w :
  truthy (promptInput inp) = true ->
  String.eqb (generationModelSelect inp) multimodalModel = false ->
  diverseSubjectsCheckbox inp = false ->
  imagenApi env (ncalls KImagen w) (generationModelSelect inp) (promptInput inp)
    (numImagesInput inp) = Ok [] ->
  calls (exec (generateImages env inp) w)
    = CallImagen (generationModelSelect inp) (promptInput inp) (numImagesInput inp) :: calls w
  /\ imageGallery (exec (generateImages env inp) w) = Some noResultsHtml
  /\ placeholders (exec (generateImages env inp) w)
     = replicate (iterations (numImagesInput inp)) failedBatchSlot
  /\ errorBanner (exec (generateImages env inp) w) = None
  /\ downloadHidden (exec (generateImages env inp) w) = true
  /\ generationHistory (exec (generateImages env inp) w) = generationHistory w
  /\ totalGeneratedCount (exec (generateImages env inp) w) = totalGeneratedCount w.
Proof.
  intros Hp Hm Hd Himg. rewrite exec_generateImages_started by exact Hp.
  set (w0 := started inp w).
  pose proof (generateUnits_batch env inp w0 Hm Hd) as Hrun. cbv zeta in Hrun.
  change (ncalls KImagen w0) with (ncalls KImagen w) in Hrun. rewrite Himg in Hrun.
  rewrite (guardedBlock_ok env inp _ w0) by (unfold outcome; now rewrite Hrun).
  replace (exec (generateUnits env inp) w0) with (snd (generateUnits env inp w0))
    by reflexivity.
  rewrite Hrun. cbn [snd]. unfold exec. rewrite finalize_run.
  unfold restored, hideProgress. cbn.
  repeat split. induction (iterations (numImagesInput inp)) as [|n IH]; [reflexivity |].
  simpl. now rewrite IH.
Qed.

Lemma empty_batch_is_no_results_witness :
  imageGallery
    (exec (generateImages noImagesEnv (mkInputs "a red fox" (Int 2) imagenModel false)) freshWorld)
    = Some noResultsHtml
  /\ placeholders
       (exec (generateImages noImagesEnv (mkInputs "a red fox" (Int 2) imagenModel false))
          freshWorld)
     = [failedBatchSlot; failedBatchSlot].
Proof.
  pose proof (empty_batch_is_no_results noImagesEnv
                (mkInputs "a red fox" (Int 2) imagenModel false) freshWorld
                eq_refl eq_refl eq_refl eq_refl) as (_ & H1 & H2 & _).
  split; [exact H1 | exact H2].
Defined.

(** X15. A rejected batched Imagen request is a top-level failure: the
    banner shows the message of the error, or [Could not generate images.]
    when the error has no message, the gallery shows the failure message,
    nothing is collected, no other request is made, and the ledger and the
    running total are as before. *)
Theorem rejected_batch_is_reported env inp w e :
  truthy (promptInput inp) = true ->
  String.eqb (generationModelSelect inp) multimodalModel = false ->
  diverseSubjectsCheckbox inp = false ->
  imagenApi env (ncalls KImagen w) (generationModelSelect inp) (promptInput inp)
    (numImagesInput inp) = Throw e ->
  errorBanner (exec (generateImages env inp) w)
    = Some ("An error occurred: " +:+ (if truthy e then e else "Could not generate images."))
  /\ imageGallery (exec (generateImages env inp) w) = Some failedHtml
  /\ calls (exec (generateImages env inp) w)
     = CallImagen (generationModelSelect inp) (promptInput inp) (numImagesInput inp) :: calls w
  /\ allGeneratedImages (exec (generateImages env inp) w) = []
  /\ generationHistory (exec (generateImages env inp) w) = generationHistory w
  /\ totalGeneratedCount (exec (generateImages env inp) w) = totalGeneratedCount w.
Proof.
  intros Hp Hm Hd Himg. rewrite exec_generateImages_started by exact Hp.
  set (w0 := started inp w).
  pose proof (generateUnits_batch env inp w0 Hm Hd) as Hrun. cbv zeta in Hrun.
  change (ncalls KImagen w0) with (ncalls KImagen w) in Hrun. rewrite Himg in Hrun.
  rewrite (guardedBlock_throw env inp _ w0 e) by (unfold outcome; now rewrite Hrun).
  unfold exec. rewrite Hrun. repeat split.
Qed.

Lemma rejected_batch_is_reported_witness :
  errorBanner
    (exec (generateImages (imagenFailsAt 0) (mkInputs "a red fox" (Int 2) imagenModel false))
       freshWorld)
    = Some "An error occurred: 503 Service Unavailable"
  /\ errorBanner
       (exec (generateImages (withImagenApi (fun _ _ _ _ => Throw EmptyString) sunnyEnv)
                (mkInputs "a red fox" (Int 2) imagenModel false)) freshWorld)
     = Some "An error occurred: Could not generate images.".
Proof.
  split.
  - exact (proj1 (rejected_batch_is_reported (imagenFailsAt 0)
                    (mkInputs "a red fox" (Int 2) imagenModel false) freshWorld
                    "503 Service Unavailable" eq_refl eq_refl eq_refl eq_refl)).
  - exact (proj1 (rejected_batch_is_reported
                    (withImagenApi (fun _ _ _ _ => Throw EmptyString) sunnyEnv)
                    (mkInputs "a red fox" (Int 2) imagenModel false) freshWorld
                    EmptyString eq_refl eq_refl eq_refl eq_refl)).
Defined.

(** The batch loop at an index without container: the caption is still
    requested, then rendering throws. *)
Lemma imagenBatchLoop_no_container env m p i imageData rest w :
  placeholders w !! i = None ->
  imagenBatchLoop env m p i (imageData :: rest) w
    = (Throw noContainer, set_calls (CallCaption (imageBytes imageData) p :: calls w) w).
Proof.
  intros Hi. simpl imagenBatchLoop. unfold bind at 1. rewrite captionOrDefault_spec.
  unfold bind at 1, populateImageContainer, withContainer. simpl. now rewrite Hi.
Qed.

(** With more images than containers the batch loop throws. *)
Lemma imagenBatchLoop_overflow env m p images : forall i w,
  (i <= length (placeholders w) < i + length images)%nat ->
  outcome (imagenBatchLoop env m p i images) w = Throw noContainer.
Proof.
  induction images as [|img images IH]; intros i w Hlen; [simpl in Hlen; lia |].
  destruct (placeholders w !! i) as [s|] eqn:Hi.
  - unfold outcome. rewrite (imagenBatchLoop_step env m p i img images w s Hi). cbv zeta.
    apply lookup_lt_Some in Hi. apply IH.
    cbn [placeholders set_calls set_placeholders]. rewrite length_insert.
    simpl in Hlen. lia.
  - unfold outcome. now rewrite (imagenBatchLoop_no_container env m p i img images w Hi).
Qed.

(** X16. A batch that is larger than asked for aborts the run. When the
    batched Imagen request returns more images than there are containers,
    rendering the first image without a container throws a TypeError: the
    run ends in the top-level error with the gallery replaced by the
    failure message, and although images were received, no history entry
    is recorded and the running total does not change. *)
Theorem oversized_batch_aborts env inp w images :
  truthy (promptInput inp) = true ->
  String.eqb (generationModelSelect inp) multimodalModel = false ->
  diverseSubjectsCheckbox inp = false ->
  imagenApi env (ncalls KImagen w) (generationModelSelect inp) (promptInput inp)
    (numImagesInput inp) = Ok images ->
  (iterations (numImagesInput inp) < length images)%nat ->
  errorBanner (exec (generateImages env inp) w) = Some ("An error occurred: " +:+ noContainer)
  /\ imageGallery (exec (generateImages env inp) w) = Some failedHtml
  /\ generationHistory (exec (generateImages env inp) w) = generationHistory w
  /\ totalGeneratedCount (exec (generateImages env inp) w) = totalGeneratedCount w
  /\ downloadHidden (exec (generateImages env inp) w) = true.
Proof.
  intros Hp Hm Hd Himg Hlen. rewrite exec_generateImages_started by exact Hp.
  set (w0 := started inp w).
  pose proof (generateUnits_batch env inp w0 Hm Hd) as Hrun. cbv zeta in Hrun.
  change (ncalls KImagen w0) with (ncalls KImagen w) in Hrun. rewrite Himg in Hrun.
  destruct images as [|first rest]; [simpl in Hlen; lia |].
  assert (Ho : outcome (generateUnits env inp) w0 = Throw noContainer).
  { unfold outcome. rewrite Hrun. apply imagenBatchLoop_overflow.
    cbn [placeholders set_allGeneratedImages set_calls set_progress w0 started
         set_placeholders].
    rewrite length_replicate. lia. }
  pose proof (generateUnits_outside env inp w0) as Hframe.
  rewrite (guardedBlock_throw env inp _ w0 noContainer Ho).
  unfold restored, hideProgress. cbn.
  split; [reflexivity |]. split; [reflexivity |]. split; [| split].
  - apply (framed_field generationHistory _ _ (fun _ => eq_refl) Hframe).
  - apply (framed_field totalGeneratedCount _ _ (fun _ => eq_refl) Hframe).
  - apply (framed_field downloadHidden _ _ (fun _ => eq_refl) Hframe).
Qed.

Lemma oversized_batch_aborts_witness :
  imageGallery
    (exec (generateImages twoImagesEnv (mkInputs "a red fox" (Int 1) imagenModel false)) freshWorld)
    = Some failedHtml
  /\ generationHistory
       (exec (generateImages twoImagesEnv (mkInputs "a red fox" (Int 1) imagenModel false))
          freshWorld) = [].
Proof.
  pose proof (oversized_batch_aborts twoImagesEnv
                (mkInputs "a red fox" (Int 1) imagenModel false) freshWorld
                [png "QUJD"; png "REVG"] eq_refl eq_refl eq_refl eq_refl ltac:(simpl; lia))
    as (_ & H1 & H2 & _).
  split; [exact H1 | exact H2].
Defined.

(* ------------------------------------------------------------------ *)
(** ** Prompt suggestions *)

Lemma suggestCategories_run result : forall pg,
  suggestCategories result pg
    = (Ok tt, set_suggestionsContainer (suggestionsContainer pg ++ categoryNodes result) pg).
Proof.
  induction result as [|[category categoryPrompts] rest IH]; intros pg.
  - simpl. unfold retS. rewrite app_nil_r. now destruct pg.
  - cbn [suggestCategories]. unfold bindS at 1, modifyS at 1.
    destruct categoryPrompts as [prompts|].
    + unfold bindS at 1, modifyS at 1. rewrite IH.
      unfold appendChild, set_suggestionsContainer; cbn. now rewrite <- !app_assoc.
    + unfold bindS at 1, retS at 1. rewrite IH.
      unfold appendChild, set_suggestionsContainer; cbn. now rewrite <- !app_assoc.
Qed.

(** [suggestPrompts] as a function of the page and of the answer. *)
Lemma suggestPrompts_run penv pg :
  suggestPrompts penv pg
    = let settled banner nodes :=
        {| world := set_errorBanner banner (set_errorBanner None (world pg));
           inputs := inputs pg; suggestPromptsButton := false;
           suggestionsContainer := nodes; suggestCalls := S (suggestCalls pg);
           downloadAllButton := downloadAllButton pg; downloads := downloads pg |} in
      let failed e :=
        settled (Some ("An error occurred: " +:+ js_or e "Could not suggest prompts.")) [] in
      match suggestApi penv (suggestCalls pg) with
      | Ok (Parses result) => (Ok tt, settled None (categoryNodes result ++ [MoreButton]))
      | Ok (SyntaxError e) => (Ok tt, failed e)
      | Throw e => (Ok tt, failed e)
      end.
Proof.
  unfold suggestPrompts, bindS, modifyS, inWorld, hideError, modify, tryFinallyS, tryCatchS,
    suggestRequest, parsed, displayError.
  cbn [world set_world set_suggestionsContainer set_suggestPromptsButton suggestCalls
       set_suggestCalls].
  destruct (suggestApi penv (suggestCalls pg)) as [[e|result]|e]; cbn; try reflexivity.
  rewrite suggestCategories_run. cbn. reflexivity.
Qed.

Lemma categoryNodes_not_loading result : ~ In LoadingMessage (categoryNodes result).
Proof.
  unfold categoryNodes. rewrite in_flat_map. intros ([category [prompts|]] & _ & Hin);
    cbn in Hin; intuition discriminate.
Qed.

Lemma offered_categoryNodes result :
  offered (categoryNodes result ++ [MoreButton])
    = flat_map (fun entry => default [] (snd entry)) result.
Proof.
  unfold offered. rewrite flat_map_app. cbn. rewrite app_nil_r.
  induction result as [|[category [prompts|]] rest IH]; cbn; [reflexivity | |].
  - f_equal. exact IH.
  - exact IH.
Qed.

(** X17. Asking for suggestions always settles: whatever the service
    answers (a rejection, text that is not JSON, any JSON value) the
    function returns normally, exactly one request was issued, the button
    is enabled again, the loading message is gone from the panel, and
    nothing of the page but the panel and the error banner has changed. *)
Theorem suggestions_always_settle penv pg :
  outcomeS (suggestPrompts penv) pg = Ok tt
  /\ suggestPromptsButton (execS (suggestPrompts penv) pg) = false
  /\ suggestCalls (execS (suggestPrompts penv) pg) = S (suggestCalls pg)
  /\ ~ In LoadingMessage (suggestionsContainer (execS (suggestPrompts penv) pg))
  /\ inputs (execS (suggestPrompts penv) pg) = inputs pg
  /\ downloads (execS (suggestPrompts penv) pg) = downloads pg
  /\ downloadAllButton (execS (suggestPrompts penv) pg) = downloadAllButton pg
  /\ world (execS (suggestPrompts penv) pg)
     = set_errorBanner (errorBanner (world (execS (suggestPrompts penv) pg))) (world pg).
Proof.
  unfold outcomeS, execS. rewrite suggestPrompts_run. cbv zeta.
  destruct (suggestApi penv (suggestCalls pg)) as [[e|result]|e]; cbn [fst snd];
    repeat split; cbn; try tauto.
  intros Hin. apply in_app_or in Hin as [Hin | [Hin | []]]; [| discriminate].
  now apply categoryNodes_not_loading in Hin.
Qed.

(** X18. A failed request for suggestions (the service rejects, or its
    text is not JSON) empties the panel: the suggestions shown before are
    gone with the loading message, no button to ask again is left in the
    panel, and the banner shows the message of the error, or the default
    text when that message is empty. *)
Theorem failed_suggestions_empty_panel penv pg e :
  suggestApi penv (suggestCalls pg) = Throw e
  \/ suggestApi penv (suggestCalls pg) = Ok (SyntaxError e) ->
  suggestionsContainer (execS (suggestPrompts penv) pg) = []
  /\ errorBanner (world (execS (suggestPrompts penv) pg))
     = Some ("An error occurred: " +:+ js_or e "Could not suggest prompts.").
Proof.
  intros H. unfold execS. rewrite suggestPrompts_run. cbv zeta.
  destruct H as [-> | ->]; now split.
Qed.

Lemma failed_suggestions_empty_panel_witness :
  suggestionsContainer
    (execS (suggestPrompts brokenPage)
       (set_suggestionsContainer [CategoryTitle "Fantasy"; ButtonWrapper ["a dragon"]; MoreButton]
          (pageOf freshWorld (mkInputs "a red fox" (Int 2) imagenModel false)))) = []
  /\ errorBanner
       (world (execS (suggestPrompts brokenPage)
                 (set_suggestionsContainer
                    [CategoryTitle "Fantasy"; ButtonWrapper ["a dragon"]; MoreButton]
                    (pageOf freshWorld (mkInputs "a red fox" (Int 2) imagenModel false)))))
     = Some "An error occurred: Unexpected token < in JSON at position 0".
Proof.
  exact (failed_suggestions_empty_panel brokenPage
           (set_suggestionsContainer [CategoryTitle "Fantasy"; ButtonWrapper ["a dragon"]; MoreButton]
              (pageOf freshWorld (mkInputs "a red fox" (Int 2) imagenModel false)))
           "Unexpected token < in JSON at position 0" (or_intror eq_refl)).
Defined.

(** X19. When the answer of the suggestion service parses, the panel is
    rebuilt from it alone: for every key of the answer, in order, a
    heading, followed by one wrapper of buttons when the value of the key
    is an array (a key with another value gets the heading only); the
    button to ask again comes last. The prompts on the buttons are the
    strings of the arrays, in the order of the answer, and an error shown
    before is hidden. *)
Theorem suggestions_follow_answer penv pg result :
  suggestApi penv (suggestCalls pg) = Ok (Parses result) ->
  suggestionsContainer (execS (suggestPrompts penv) pg) = categoryNodes result ++ [MoreButton]
  /\ offered (suggestionsContainer (execS (suggestPrompts penv) pg))
     = flat_map (fun entry => default [] (snd entry)) result
  /\ last (suggestionsContainer (execS (suggestPrompts penv) pg)) = Some MoreButton
  /\ errorBanner (world (execS (suggestPrompts penv) pg)) = None.
Proof.
  intros H. unfold execS. rewrite suggestPrompts_run. cbv zeta. rewrite H. cbn [snd].
  cbn [suggestionsContainer world errorBanner set_errorBanner].
  repeat split.
  - apply offered_categoryNodes.
  - apply last_snoc.
Qed.

Lemma suggestions_follow_answer_witness :
  offered
    (suggestionsContainer
       (execS (suggestPrompts sunnyPage)
          (pageOf (set_errorBanner (Some promptMissing) freshWorld)
             (mkInputs EmptyString (Int 2) imagenModel false))))
    = ["a dragon"; "an elf"; "a rover"; "a station"; "a fjord"; "a dune"; "a spiral"; "a grid"]
  /\ errorBanner
       (world (execS (suggestPrompts sunnyPage)
                 (pageOf (set_errorBanner (Some promptMissing) freshWorld)
                    (mkInputs EmptyString (Int 2) imagenModel false)))) = None.
Proof.
  pose proof (suggestions_follow_answer sunnyPage
                (pageOf (set_errorBanner (Some promptMissing) freshWorld)
                   (mkInputs EmptyString (Int 2) imagenModel false))
                _ eq_refl) as (_ & Hoffered & _ & Hbanner).
  split; [exact Hoffered | exact Hbanner].
Defined.

(* ------------------------------------------------------------------ *)
(** ** The archive of the gallery *)

(** The name of the archive entry of the image at [index]. *)
Local Abbreviation entryName index :=
  ("image_" +:+ js_toString (Int (Z.of_nat index + 1)) +:+ ".png").

Lemma append_length s t : String.length (s +:+ t) = (String.length s + String.length t)%nat.
Proof. induction s as [|c s IH]; simpl; [reflexivity | now rewrite IH]. Qed.

Lemma append_inj_r t : forall s1 s2, s1 +:+ t = s2 +:+ t -> s1 = s2.
Proof.
  induction s1 as [|c1 s1 IH]; intros [|c2 s2] H; simpl in H.
  - reflexivity.
  - apply (f_equal String.length) in H. rewrite !append_length in H. simpl in H. lia.
  - apply (f_equal String.length) in H. rewrite !append_length in H. simpl in H. lia.
  - injection H as -> H. f_equal. now apply IH.
Qed.

Lemma js_toString_inj a b : 0 < a -> 0 < b -> js_toString (Int a) = js_toString (Int b) -> a = b.
Proof.
  intros Ha Hb H. unfold js_toString in H.
  apply DecimalZ.to_int_inj.
  assert (Hnil : forall z, 0 < z ->
            NilZero.int_of_string (NilZero.string_of_int (Z.to_int z)) = Some (Z.to_int z)).
  { intros z Hz. apply NilZero.isi; destruct z as [|p|p]; try lia; simpl;
      try discriminate.
    intros Heq. injection Heq as Heq. now apply DecimalPos.Unsigned.to_uint_nonnil in Heq. }
  pose proof (Hnil a Ha) as H1. rewrite H, (Hnil b Hb) in H1. now injection H1.
Qed.

Lemma entryName_inj i j : entryName i = entryName j -> i = j.
Proof.
  intros H. apply String.app_inj in H. apply append_inj_r in H.
  apply js_toString_inj in H; lia.
Qed.

Lemma splitComma_src b :
  splitComma ("data:image/png;base64," +:+ b) = "data:image/png;base64" :: splitComma b.
Proof. reflexivity. Qed.

Lemma splitComma_noComma : forall b, noComma b = true -> splitComma b = [b].
Proof.
  unfold noComma. induction b as [|c b IH]; intros H; [reflexivity |].
  simpl in H. apply andb_prop in H as [Hc Hb].
  simpl. destruct (Ascii.eqb c ","); [discriminate |]. now rewrite (IH Hb).
Qed.

(** The data taken back out of the [src] that [populateImageContainer]
    builds are the bytes it was built from. *)
Lemma src_round_trip b :
  noComma b = true -> splitComma ("data:image/png;base64," +:+ b) !! 1%nat = Some b.
Proof. intros H. rewrite splitComma_src, (splitComma_noComma b H). reflexivity. Qed.

Lemma zipFile_fresh name data : forall zip,
  ~ In name (map fst zip) -> zipFile name data zip = zip ++ [(name, data)].
Proof.
  induction zip as [|[name' data'] zip IH]; intros Hfresh; [reflexivity |].
  simpl in *. destruct (String.eqb_spec name' name) as [-> | Hne]; [tauto |].
  rewrite IH by tauto. reflexivity.
Qed.

(** No entry of the archive overwrites another. *)
Lemma zipImages_spec : forall images index zip,
  (forall name, In name (map fst zip) -> exists j, (j < index)%nat /\ name = entryName j) ->
  zipImages index images zip
    = zip ++ imap (fun i src => (entryName (index + i), splitComma src !! 1%nat)) images.
Proof.
  induction images as [|src rest IH]; intros index zip Hzip.
  - simpl. now rewrite app_nil_r.
  - cbn [zipImages]. cbv zeta. rewrite zipFile_fresh.
    + rewrite IH.
      * rewrite <- app_assoc. f_equal. rewrite imap_cons. cbn [app]. rewrite Nat.add_0_r.
        f_equal. apply imap_ext. intros i x _. cbn. now rewrite Nat.add_succ_r.
      * intros name Hin. rewrite map_app in Hin. apply in_app_or in Hin as [Hin | [<- | []]].
        -- destruct (Hzip name Hin) as (j & Hj & ->). exists j. split; [lia | reflexivity].
        -- exists index. split; [lia | reflexivity].
    + intros Hin. destruct (Hzip _ Hin) as (j & Hj & Heq).
      apply entryName_inj in Heq. lia.
Qed.

Lemma zipImages_entries images : zipImages 0 images [] = archiveEntries images.
Proof. rewrite zipImages_spec by (intros name []). reflexivity. Qed.

Lemma archiveEntries_NoDup images : NoDup (map fst (archiveEntries images)).
Proof.
  unfold archiveEntries. apply NoDup_alt. intros i j name Hi Hj.
  rewrite list_lookup_fmap, list_lookup_imap in Hi, Hj.
  destruct (images !! i); [| discriminate]. destruct (images !! j); [| discriminate].
  cbn [fmap option_fmap option_map fst] in Hi, Hj. injection Hi as Hi. injection Hj as Hj.
  apply entryName_inj. exact (eq_trans Hi (eq_sym Hj)).
Qed.

(** When no message holds a wrapped image, the query finds the images
    the containers were filled with. *)
Lemma galleryImages_shownBytes penv w :
  messagesHoldNoImage penv w = true ->
  galleryImages penv w = map (fun b => "data:image/png;base64," +:+ b) (shownBytes w).
Proof.
  unfold messagesHoldNoImage, galleryImages, shownBytes.
  destruct (imageGallery w) as [html|].
  - now destruct (wrappedImages penv html).
  - induction (placeholders w) as [|s l IH]; [reflexivity |].
    cbn [forallb flat_map]. intros H. apply andb_prop in H as [Hs Hl].
    destruct s as [|bytes alt caption loading onload|html]; cbn.
    + now apply IH.
    + f_equal. now apply IH.
    + destruct (wrappedImages penv html); [now apply IH | discriminate].
Qed.

(** The entries for images whose bytes hold no comma. *)
Lemma archiveEntries_round_trip bytes :
  forallb noComma bytes = true ->
  archiveEntries (map (fun b => "data:image/png;base64," +:+ b) bytes) = archiveOf bytes.
Proof.
  intros Hc. unfold archiveEntries, archiveOf. rewrite forallb_forall in Hc.
  induction bytes as [|b l IH] using rev_ind; [reflexivity |].
  rewrite map_app. cbn [map]. rewrite !imap_app. cbn [imap]. rewrite length_map.
  f_equal.
  - apply IH. intros x Hx. apply Hc. apply in_or_app. now left.
  - rewrite src_round_trip by (apply Hc; apply in_or_app; right; now left). reflexivity.
Qed.

(** [downloadAllImages] as a function of the page. *)
Lemma downloadAllImages_run env penv pg :
  downloadAllImages env penv pg
    = let settled w' delivered :=
        {| world := w'; inputs := inputs pg; suggestPromptsButton := suggestPromptsButton pg;
           suggestionsContainer := suggestionsContainer pg; suggestCalls := suggestCalls pg;
           downloadAllButton := (fst (downloadAllButton pg), false);
           downloads := downloads pg ++ delivered |} in
      match galleryImages penv (world pg) with
      | [] =>
          (Ok tt, settled (set_errorBanner (Some "An error occurred: No images to download.")
                             (world pg)) [])
      | src :: rest =>
          match zipGenerate penv (zipImages 0 (src :: rest) []) with
          | Some e =>
              (Ok tt, settled (set_errorBanner
                                 (Some ("An error occurred: "
                                        +:+ js_or e "Could not create ZIP file."))
                                 (world pg)) [])
          | None =>
              (Ok tt, settled (set_clockReads (S (clockReads (world pg))) (world pg))
                        [{| download := archiveName (dateNow env (clockReads (world pg)));
                            files := zipImages 0 (src :: rest) [] |}])
          end
      end.
Proof.
  unfold downloadAllImages, downloadBody, bindS, getsS, modifyS, tryFinallyS, tryCatchS,
    inWorld, displayError, modify, now, throwS.
  cbn [world downloadAllButton set_downloadAllButton fst snd].
  destruct (galleryImages penv (world pg)) as [|src rest].
  - cbn. now rewrite app_nil_r.
  - destruct (zipGenerate penv (zipImages 0 (src :: rest) [])) as [e|].
    + cbn. now rewrite app_nil_r.
    + reflexivity.
Qed.

(** X20. Asking for the archive of a gallery in which the query finds no
    image (it shows a message, or every container failed or is still
    loading) delivers nothing: the function returns normally, the banner
    says that there is nothing to download, the clock is not read, and
    the button has its text back and is enabled. *)
Theorem nothing_to_download env penv pg :
  galleryImages penv (world pg) = [] ->
  outcomeS (downloadAllImages env penv) pg = Ok tt
  /\ downloads (execS (downloadAllImages env penv) pg) = downloads pg
  /\ world (execS (downloadAllImages env penv) pg)
     = set_errorBanner (Some "An error occurred: No images to download.") (world pg)
  /\ downloadAllButton (execS (downloadAllImages env penv) pg)
     = (fst (downloadAllButton pg), false).
Proof.
  intros H. unfold outcomeS, execS. rewrite downloadAllImages_run. cbv zeta.
  rewrite H. cbn. now rewrite app_nil_r.
Qed.

Lemma nothing_to_download_witness :
  downloads (execS (downloadAllImages sunnyEnv sunnyPage)
               (pageOf freshWorld (mkInputs "a red fox" (Int 2) imagenModel false))) = []
  /\ errorBanner
       (world (execS (downloadAllImages sunnyEnv sunnyPage)
                 (pageOf freshWorld (mkInputs "a red fox" (Int 2) imagenModel false))))
     = Some "An error occurred: No images to download.".
Proof.
  pose proof (nothing_to_download sunnyEnv sunnyPage
                (pageOf freshWorld (mkInputs "a red fox" (Int 2) imagenModel false)) eq_refl)
    as (_ & Hd & Hw & _).
  split; [exact Hd | now rewrite Hw].
Defined.

(** X21. The archive of a gallery holds one entry per image that the
    query [.image-wrapper img] finds in it, named [image_1.png],
    [image_2.png], ... in document order without a gap, no entry
    overwriting another, and the data of an entry is what follows the
    first comma of the [src] of its image. One file is delivered, named
    after the time of the click; the banner is not touched and the button
    is restored. The images found are those of the filled containers
    and, besides, any image that markup in the prompt of a failed unit
    put into its failure message. When no message on the page holds such
    an image and the bytes of the filled containers hold no comma (as
    base64 text does), the entries are exactly these bytes, container by
    container: taking the [src] apart at the comma undoes what
    [populateImageContainer] built. *)
Theorem archive_lists_shown_images env penv pg src rest :
  galleryImages penv (world pg) = src :: rest ->
  zipGenerate penv (archiveEntries (galleryImages penv (world pg))) = None ->
  outcomeS (downloadAllImages env penv) pg = Ok tt
  /\ downloads (execS (downloadAllImages env penv) pg)
     = downloads pg
       ++ [{| download := archiveName (dateNow env (clockReads (world pg)));
              files := archiveEntries (galleryImages penv (world pg)) |}]
  /\ length (archiveEntries (galleryImages penv (world pg))) = S (length rest)
  /\ NoDup (map fst (archiveEntries (galleryImages penv (world pg))))
  /\ (messagesHoldNoImage penv (world pg) = true ->
      forallb noComma (shownBytes (world pg)) = true ->
      archiveEntries (galleryImages penv (world pg)) = archiveOf (shownBytes (world pg)))
  /\ errorBanner (world (execS (downloadAllImages env penv) pg)) = errorBanner (world pg)
  /\ downloadAllButton (execS (downloadAllImages env penv) pg)
     = (fst (downloadAllButton pg), false).
Proof.
  intros Hgal Hzip. unfold outcomeS, execS. rewrite downloadAllImages_run. cbv zeta.
  rewrite Hgal in *. rewrite zipImages_entries, Hzip.
  cbn [fst snd downloads world downloadAllButton errorBanner set_clockReads].
  repeat split.
  - unfold archiveEntries. now rewrite length_imap.
  - apply archiveEntries_NoDup.
  - intros Hclean Hc. rewrite <- Hgal, (galleryImages_shownBytes penv _ Hclean).
    now apply archiveEntries_round_trip.
Qed.

(** The statement after a multimodal run of two units whose prompt holds
    the markup of an image and whose first unit was rejected, and after a
    batched run of two images. *)
Lemma archive_lists_shown_images_witness :
  placeholders (world (afterRun (multimodalFailsAt 0)
                         (mkInputs markupPrompt (Int 2) multimodalModel false)))
  = [failedSlot markupPrompt; SlotImage "QUJD" markupPrompt "a caption" true (Some FinishLoading)]
  /\ map files
       (downloads (execS (downloadAllImages (multimodalFailsAt 0) sunnyPage)
                     (afterRun (multimodalFailsAt 0)
                        (mkInputs markupPrompt (Int 2) multimodalModel false))))
     = [[("image_1.png", Some "RVZJ"); ("image_2.png", Some "QUJD")]]
  /\ downloads (execS (downloadAllImages sunnyEnv sunnyPage)
                  (afterRun sunnyEnv (mkInputs "a red fox" (Int 2) imagenModel false)))
     = [{| download := "imagen_gallery_1700000000002.zip";
           files := [("image_1.png", Some "QUJD"); ("image_2.png", Some "REVG")] |}].
Proof.
  pose proof (archive_lists_shown_images (multimodalFailsAt 0) sunnyPage
                (afterRun (multimodalFailsAt 0)
                   (mkInputs markupPrompt (Int 2) multimodalModel false))
                _ _ eq_refl eq_refl) as (_ & Hmarkup & _).
  pose proof (archive_lists_shown_images sunnyEnv sunnyPage
                (afterRun sunnyEnv (mkInputs "a red fox" (Int 2) imagenModel false))
                _ _ eq_refl eq_refl) as (_ & Hd & _).
  split; [vm_compute; reflexivity |]. split; [now rewrite Hmarkup | exact Hd].
Defined.

(** X22. When the archive cannot be built, nothing is delivered: the
    function returns normally, the banner shows the message of the
    rejection, or the default text when that message is empty, the clock
    is not read, and the button has its text back and is enabled. *)
Theorem archive_failure_reported env penv pg src rest e :
  galleryImages penv (world pg) = src :: rest ->
  zipGenerate penv (zipImages 0 (galleryImages penv (world pg)) []) = Some e ->
  outcomeS (downloadAllImages env penv) pg = Ok tt
  /\ downloads (execS (downloadAllImages env penv) pg) = downloads pg
  /\ world (execS (downloadAllImages env penv) pg)
     = set_errorBanner (Some ("An error occurred: " +:+ js_or e "Could not create ZIP file."))
         (world pg)
  /\ downloadAllButton (execS (downloadAllImages env penv) pg)
     = (fst (downloadAllButton pg), false).
Proof.
  intros Hgal Hzip. unfold outcomeS, execS. rewrite downloadAllImages_run. cbv zeta.
  rewrite Hgal in *. rewrite Hzip. cbn. now rewrite app_nil_r.
Qed.

Lemma archive_failure_reported_witness :
  downloads (execS (downloadAllImages sunnyEnv brokenPage)
               (afterRun sunnyEnv (mkInputs "a red fox" (Int 2) imagenModel false))) = []
  /\ errorBanner
       (world (execS (downloadAllImages sunnyEnv brokenPage)
                 (afterRun sunnyEnv (mkInputs "a red fox" (Int 2) imagenModel false))))
     = Some "An error occurred: Could not create ZIP file.".
Proof.
  pose proof (archive_failure_reported sunnyEnv brokenPage
                (afterRun sunnyEnv (mkInputs "a red fox" (Int 2) imagenModel false))
                _ _ EmptyString eq_refl eq_refl) as (_ & Hd & Hw & _).
  split; [exact Hd | now rewrite Hw].
Defined.

(* ------------------------------------------------------------------ *)
(** ** From a run to its archive *)

Lemma populated_bytes env imageData p captionText :
  slotBytes (populated env imageData p captionText) = Some (imageBytes imageData).
Proof.
  unfold populated. destruct (truthy captionText); [| reflexivity].
  now destruct (imgComplete env (imageBytes imageData)).
Qed.

Lemma omap_insert_at {A B : Type} (f : A -> option B) i x (slots : list A) :
  (i < length slots)%nat ->
  omap f (take (S i) (<[i := x]> slots)) = omap f (take i slots) ++ omap f [x].
Proof.
  intros H. rewrite (take_S_r _ _ x) by (now apply list_lookup_insert_eq).
  rewrite take_insert_ge by lia. apply omap_app.
Qed.

Lemma batchSlots_bytes env prompt images : forall n i slots,
  (i + length images <= length slots)%nat ->
  omap slotBytes (batchSlots env n i prompt images slots)
    = omap slotBytes (take i slots) ++ map imageBytes images
      ++ omap slotBytes (drop (i + length images) slots).
Proof.
  induction images as [|img images IH]; intros n i slots Hlen; simpl in Hlen.
  - simpl. rewrite Nat.add_0_r, <- omap_app, take_drop. reflexivity.
  - cbn [batchSlots]. rewrite IH by (rewrite length_insert; lia).
    rewrite omap_insert_at by lia. rewrite drop_insert_lt by lia.
    cbn [omap list_omap]. rewrite populated_bytes. rewrite <- app_assoc. cbn [app map length].
    replace (S i + length images)%nat with (i + S (length images))%nat by lia. reflexivity.
Qed.

Lemma unitSlot_bytes env n p :
  omap slotBytes [unitSlot env n p] = map imageBytes (unitImages env n p).
Proof.
  unfold unitSlot, unitImages.
  destruct (unitResult env n p) as [[imageData captionText]|]; cbn;
    [now rewrite populated_bytes | reflexivity].
Qed.

Lemma loopSlots_bytes env plan : forall n i slots,
  (i + length plan <= length slots)%nat ->
  omap slotBytes (loopSlots env n i plan slots)
    = omap slotBytes (take i slots) ++ map imageBytes (loopImages env n plan)
      ++ omap slotBytes (drop (i + length plan) slots).
Proof.
  induction plan as [|p plan IH]; intros n i slots Hlen; simpl in Hlen.
  - simpl. rewrite Nat.add_0_r, <- omap_app, take_drop. reflexivity.
  - cbn [loopSlots loopImages]. rewrite IH by (rewrite length_insert; lia).
    rewrite omap_insert_at by lia. rewrite drop_insert_lt by lia.
    rewrite unitSlot_bytes, map_app, <- !app_assoc. cbn [length].
    replace (S i + length plan)%nat with (i + S (length plan))%nat by lia. reflexivity.
Qed.

Lemma omap_slotBytes_loading n : omap slotBytes (replicate n SlotLoading) = [].
Proof. induction n as [|n IH]; [reflexivity | exact IH]. Qed.

(** A run whose units collected an image ends with the gallery showing
    the containers as the units left them. *)
Lemma run_gallery env inp w :
  truthy (promptInput inp) = true ->
  outcome (generateUnits env inp) (started inp w) = Ok tt ->
  allGeneratedImages (exec (generateUnits env inp) (started inp w)) <> [] ->
  imageGallery (exec (generateImages env inp) w) = None
  /\ placeholders (exec (generateImages env inp) w)
     = placeholders (exec (generateUnits env inp) (started inp w)).
Proof.
  intros Hp Ho Himgs. rewrite exec_generateImages_started by exact Hp.
  rewrite guardedBlock_ok by exact Ho.
  unfold restored, hideProgress.
  cbn [imageGallery placeholders set_progress set_generateButton].
  set (w3 := exec (generateUnits env inp) (started inp w)) in *.
  destruct (finalize_keeps env inp w3) as (_ & Hph & _).
  pose proof (finalize_fields env inp w3) as Hfin.
  assert (Hgal : imageGallery w3 = None).
  { apply (framed_field imageGallery (started inp w) w3); [reflexivity |].
    apply generateUnits_outside. }
  destruct (allGeneratedImages w3) as [|first rest] eqn:Hall; [congruence |].
  destruct Hfin as (_ & _ & _ & _ & Hg).
  split; [now rewrite Hg | exact Hph].
Qed.

Lemma generateClick_run env pg :
  execS (generateClick env) pg
    = set_world (exec (generateImages env (inputs pg)) (world pg)) pg.
Proof.
  unfold execS, generateClick, inWorld, exec.
  now destruct (generateImages env (inputs pg) (world pg)).
Qed.

Lemma messagesHoldNoImage_slots penv w :
  imageGallery w = None -> Forall (cleanSlot penv) (placeholders w) ->
  messagesHoldNoImage penv w = true.
Proof.
  unfold messagesHoldNoImage. intros -> H.
  induction H as [|s l Hs Hl IH]; [reflexivity |].
  cbn [forallb]. rewrite IH, andb_true_r.
  destruct s as [| |html]; try reflexivity. cbn in Hs. now rewrite Hs.
Qed.

Lemma batchSlots_clean penv env prompt images : forall n i slots,
  Forall (cleanSlot penv) slots -> Forall (cleanSlot penv) (batchSlots env n i prompt images slots).
Proof.
  induction images as [|img images IH]; intros n i slots H; [exact H |].
  cbn [batchSlots]. apply IH. apply Forall_insert; [exact H |].
  unfold populated. destruct (truthy _); [destruct (imgComplete _ _) |]; exact I.
Qed.

Lemma loopSlots_clean penv env plan : forall n i slots,
  Forall (fun p => cleanSlot penv (failedSlot p)) plan ->
  Forall (cleanSlot penv) slots -> Forall (cleanSlot penv) (loopSlots env n i plan slots).
Proof.
  induction plan as [|p plan IH]; intros n i slots Hplan H; [exact H |].
  cbn [loopSlots]. apply Forall_cons in Hplan as [Hp Hplan].
  apply IH; [exact Hplan |]. apply Forall_insert; [exact H |].
  unfold unitSlot. destruct (unitResult env n p) as [[imageData captionText]|]; [| exact Hp].
  unfold populated. destruct (truthy _); [destruct (imgComplete _ _) |]; exact I.
Qed.

Lemma loading_clean penv n : Forall (cleanSlot penv) (replicate n SlotLoading).
Proof. apply Forall_replicate. exact I. Qed.

(** The archive of a gallery that shows the images [bytes] and no message
    with an image. *)
Lemma delivered env penv pg bytes :
  messagesHoldNoImage penv (world pg) = true ->
  shownBytes (world pg) = bytes ->
  bytes <> [] ->
  forallb noComma bytes = true ->
  zipGenerate penv (archiveOf bytes) = None ->
  downloads (execS (downloadAllImages env penv) pg)
    = downloads pg
      ++ [{| download := archiveName (dateNow env (clockReads (world pg)));
             files := archiveOf bytes |}].
Proof.
  intros Hclean <- Hne Hc Hzip. unfold execS. rewrite downloadAllImages_run. cbv zeta.
  pose proof (galleryImages_shownBytes penv (world pg) Hclean) as Hgal.
  pose proof (archiveEntries_round_trip _ Hc) as Harchive. rewrite <- Hgal in Harchive.
  destruct (galleryImages penv (world pg)) as [|src rest].
  { destruct (shownBytes (world pg)); [congruence | discriminate]. }
  rewrite zipImages_entries, Harchive, Hzip. reflexivity.
Qed.

(** After a batched Imagen run the gallery shows the returned images. *)
Lemma batch_shown env inp w c images :
  truthy (promptInput inp) = true ->
  String.eqb (generationModelSelect inp) multimodalModel = false ->
  diverseSubjectsCheckbox inp = false ->
  numImagesInput inp = Int c ->
  imagenApi env (ncalls KImagen w) (generationModelSelect inp) (promptInput inp) (Int c)
    = Ok images ->
  (1 <= length images <= Z.to_nat c)%nat ->
  shownBytes (exec (generateImages env inp) w) = map imageBytes images
  /\ forall penv, messagesHoldNoImage penv (exec (generateImages env inp) w) = true.
Proof.
  intros Hp Hm Hd Hc Himg Hk.
  destruct images as [|first rest]; [simpl in Hk; lia |].
  set (w0 := started inp w).
  pose proof (generateUnits_batch env inp w0 Hm Hd) as Hrun.
  change (ncalls KImagen w0) with (ncalls KImagen w) in Hrun.
  rewrite Hc, Himg in Hrun. cbv zeta in Hrun.
  set (w2 := set_allGeneratedImages (first :: rest) _) in Hrun.
  assert (Hslots : placeholders w2 = replicate (Z.to_nat c) SlotLoading).
  { unfold w2, w0, started. simpl. now rewrite Hc. }
  destruct (imagenBatchLoop_spec env (generationModelSelect inp) (promptInput inp)
              (first :: rest) 0 w2) as (Ho & Hsl & _ & Hall).
  { rewrite Hslots, length_replicate. lia. }
  unfold outcome, exec in Ho, Hsl, Hall. rewrite <- Hrun in Ho, Hsl, Hall.
  destruct (run_gallery env inp w Hp) as (Hgal & Hph).
  { exact Ho. }
  { unfold exec. fold w0. rewrite Hall. discriminate. }
  split.
  - unfold shownBytes. rewrite Hgal, Hph. unfold exec. fold w0. rewrite Hsl, Hslots.
    rewrite batchSlots_bytes by (rewrite length_replicate; lia).
    rewrite drop_replicate, omap_slotBytes_loading, app_nil_r. reflexivity.
  - intros penv. apply messagesHoldNoImage_slots; [exact Hgal |].
    rewrite Hph. unfold exec. fold w0. rewrite Hsl, Hslots.
    apply batchSlots_clean, loading_clean.
Qed.

(** After a multimodal run without diversification the gallery shows the
    images of the successful units. *)
Lemma multimodal_shown env inp w c :
  truthy (promptInput inp) = true ->
  String.eqb (generationModelSelect inp) multimodalModel = true ->
  diverseSubjectsCheckbox inp = false ->
  numImagesInput inp = Int c ->
  0 <= c < 2 ^ 32 ->
  loopImages env (ncalls KMultimodal w) (replicate (Z.to_nat c) (promptInput inp)) <> [] ->
  shownBytes (exec (generateImages env inp) w)
    = map imageBytes
        (loopImages env (ncalls KMultimodal w) (replicate (Z.to_nat c) (promptInput inp)))
  /\ forall penv, cleanSlot penv (failedSlot (promptInput inp)) ->
       messagesHoldNoImage penv (exec (generateImages env inp) w) = true.
Proof.
  intros Hp Hm Hd Hc Hrange Hne.
  set (w0 := started inp w).
  pose proof (generateUnits_multimodal env inp w0 c Hm Hd Hc Hrange) as Hrun.
  destruct (multimodalLoop_spec env (generationModelSelect inp) (Z.to_nat c)
              (replicate (Z.to_nat c) (promptInput inp)) 0 w0) as (Ho & Hall & Hsl & _).
  unfold outcome, exec in Ho, Hall, Hsl. rewrite <- Hrun in Ho, Hall, Hsl.
  change (ncalls KMultimodal w0) with (ncalls KMultimodal w) in Hall, Hsl.
  assert (Hslots : placeholders w0 = replicate (Z.to_nat c) SlotLoading).
  { unfold w0, started. simpl. now rewrite Hc. }
  destruct (run_gallery env inp w Hp) as (Hgal & Hph).
  { exact Ho. }
  { unfold exec. fold w0. rewrite Hall. exact Hne. }
  split.
  - unfold shownBytes. rewrite Hgal, Hph. unfold exec. fold w0. rewrite Hsl, Hslots.
    rewrite loopSlots_bytes by (rewrite !length_replicate; lia).
    rewrite length_replicate, drop_replicate, omap_slotBytes_loading, app_nil_r. reflexivity.
  - intros penv Hclean. apply messagesHoldNoImage_slots; [exact Hgal |].
    rewrite Hph. unfold exec. fold w0. rewrite Hsl, Hslots.
    apply loopSlots_clean; [apply Forall_replicate; exact Hclean | apply loading_clean].
Qed.

(** X23. From a batched Imagen run to its archive. After a run on the
    Imagen path without diversification whose single request for [c]
    images returned [k] images with 1 <= k <= c, the gallery shows these
    images, in the order of the answer, and a click on the download
    button delivers one archive that holds exactly them: entry
    [image_j.png] has the bytes of the j-th image of the answer. *)
Theorem batch_archive env penv pg c images :
  truthy (promptInput (inputs pg)) = true ->
  String.eqb (generationModelSelect (inputs pg)) multimodalModel = false ->
  diverseSubjectsCheckbox (inputs pg) = false ->
  numImagesInput (inputs pg) = Int c ->
  imagenApi env (ncalls KImagen (world pg)) (generationModelSelect (inputs pg))
    (promptInput (inputs pg)) (Int c) = Ok images ->
  (1 <= length images <= Z.to_nat c)%nat ->
  forallb noComma (map imageBytes images) = true ->
  zipGenerate penv (archiveOf (map imageBytes images)) = None ->
  shownBytes (world (execS (generateClick env) pg)) = map imageBytes images
  /\ downloads (execS (downloadAllImages env penv) (execS (generateClick env) pg))
     = downloads pg
       ++ [{| download :=
                archiveName (dateNow env (clockReads (world (execS (generateClick env) pg))));
              files := archiveOf (map imageBytes images) |}].
Proof.
  intros Hp Hm Hd Hc Himg Hk Hcomma Hzip.
  destruct (batch_shown env (inputs pg) (world pg) c images Hp Hm Hd Hc Himg Hk)
    as (Hshown & Hclean).
  rewrite generateClick_run. cbn [world set_world]. split; [exact Hshown |].
  rewrite (delivered env penv _ (map imageBytes images)); try assumption.
  - reflexivity.
  - apply Hclean.
  - destruct images; [simpl in Hk; lia | discriminate].
Qed.

Lemma batch_archive_witness :
  downloads
    (execS (downloadAllImages sunnyEnv sunnyPage)
       (execS (generateClick sunnyEnv)
          (pageOf freshWorld (mkInputs "a red fox" (Int 3) imagenModel false))))
  = [{| download := "imagen_gallery_1700000000002.zip";
        files := [("image_1.png", Some "QUJD"); ("image_2.png", Some "REVG");
                  ("image_3.png", Some "R0hJ")] |}].
Proof.
  pose proof (batch_archive sunnyEnv sunnyPage
                (pageOf freshWorld (mkInputs "a red fox" (Int 3) imagenModel false))
                3 [png "QUJD"; png "REVG"; png "R0hJ"]
                eq_refl eq_refl eq_refl eq_refl eq_refl
                (conj (le_S _ _ (le_S _ _ (le_n 1))) (le_n 3)) eq_refl eq_refl) as (_ & Hd).
  exact Hd.
Defined.

(** X24. From a multimodal run to its archive. After a run on the
    multimodal path without diversification in which at least one unit
    produced an image, and whose prompt holds no markup that the browser
    turns into a wrapped image inside the failure message of a unit, the
    gallery shows the images of the successful units in the order of the
    units, and a click on the download button delivers one archive that
    holds exactly these: a failed unit leaves no gap in the numbering of
    the entries, and every entry is named [.png] whatever the type of its
    image. *)
Theorem multimodal_archive env penv pg c :
  truthy (promptInput (inputs pg)) = true ->
  String.eqb (generationModelSelect (inputs pg)) multimodalModel = true ->
  diverseSubjectsCheckbox (inputs pg) = false ->
  numImagesInput (inputs pg) = Int c ->
  0 <= c < 2 ^ 32 ->
  slotImages penv (failedSlot (promptInput (inputs pg))) = [] ->
  loopImages env (ncalls KMultimodal (world pg))
    (replicate (Z.to_nat c) (promptInput (inputs pg))) <> [] ->
  forallb noComma
    (map imageBytes
       (loopImages env (ncalls KMultimodal (world pg))
          (replicate (Z.to_nat c) (promptInput (inputs pg))))) = true ->
  zipGenerate penv
    (archiveOf
       (map imageBytes
          (loopImages env (ncalls KMultimodal (world pg))
             (replicate (Z.to_nat c) (promptInput (inputs pg)))))) = None ->
  shownBytes (world (execS (generateClick env) pg))
  = map imageBytes
      (loopImages env (ncalls KMultimodal (world pg))
         (replicate (Z.to_nat c) (promptInput (inputs pg))))
  /\ downloads (execS (downloadAllImages env penv) (execS (generateClick env) pg))
     = downloads pg
       ++ [{| download :=
                archiveName (dateNow env (clockReads (world (execS (generateClick env) pg))));
              files :=
                archiveOf
                  (map imageBytes
                     (loopImages env (ncalls KMultimodal (world pg))
                        (replicate (Z.to_nat c) (promptInput (inputs pg))))) |}].
Proof.
  intros Hp Hm Hd Hc Hrange Hmsg Hne Hcomma Hzip.
  destruct (multimodal_shown env (inputs pg) (world pg) c Hp Hm Hd Hc Hrange Hne)
    as (Hshown & Hclean).
  rewrite generateClick_run. cbn [world set_world]. split; [exact Hshown |].
  rewrite (delivered env penv _
             (map imageBytes
                (loopImages env (ncalls KMultimodal (world pg))
                   (replicate (Z.to_nat c) (promptInput (inputs pg)))))); try assumption.
  - reflexivity.
  - apply Hclean. exact Hmsg.
  - intros Hnil. apply Hne. now apply map_eq_nil in Hnil.
Qed.

Lemma multimodal_archive_witness :
  map mimeType
    (allGeneratedImages
       (world (execS (generateClick mixedEnv)
                 (pageOf freshWorld (mkInputs "a red fox" (Int 3) multimodalModel false)))))
  = ["image/jpeg"; "image/png"]
  /\ map files
       (downloads
          (execS (downloadAllImages mixedEnv sunnyPage)
             (execS (generateClick mixedEnv)
                (pageOf freshWorld (mkInputs "a red fox" (Int 3) multimodalModel false)))))
     = [[("image_1.png", Some "SlBH"); ("image_2.png", Some "UE5H")]].
Proof.
  split; [reflexivity |].
  pose proof (multimodal_archive mixedEnv sunnyPage
                (pageOf freshWorld (mkInputs "a red fox" (Int 3) multimodalModel false))
                3 eq_refl eq_refl eq_refl eq_refl
                ltac:(lia) eq_refl ltac:(discriminate) eq_refl eq_refl) as (_ & Hd).
  now rewrite Hd.
Defined.

(** X25. The download button is offered exactly when the gallery shows
    the containers. After a run with a prompt, either the download button
    is hidden and the gallery shows a message (the failure message after a
    top-level error, the no-results message when no image was collected),
    so that an archive would have nothing to hold (no filled container is
    shown, and the query for images is answered from that fixed message
    alone); or the button is revealed, the gallery shows the containers
    and at least one image was collected. *)
Theorem download_offered_iff_images env inp w :
  truthy (promptInput inp) = true ->
  (downloadHidden (exec (generateImages env inp) w) = true
   /\ (imageGallery (exec (generateImages env inp) w) = Some failedHtml
       \/ imageGallery (exec (generateImages env inp) w) = Some noResultsHtml)
   /\ shownBytes (exec (generateImages env inp) w) = []
   /\ (forall penv,
         galleryImages penv (exec (generateImages env inp) w) = wrappedImages penv failedHtml
         \/ galleryImages penv (exec (generateImages env inp) w)
            = wrappedImages penv noResultsHtml))
  \/ (downloadHidden (exec (generateImages env inp) w) = false
      /\ imageGallery (exec (generateImages env inp) w) = None
      /\ allGeneratedImages (exec (generateImages env inp) w) <> []).
Proof.
  intros Hp. rewrite exec_generateImages_started by exact Hp.
  set (w3 := exec (generateUnits env inp) (started inp w)).
  assert (Hhidden : downloadHidden w3 = true).
  { apply (framed_field downloadHidden (started inp w) w3); [reflexivity |].
    apply generateUnits_outside. }
  assert (Hgal : imageGallery w3 = None).
  { apply (framed_field imageGallery (started inp w) w3); [reflexivity |].
    apply generateUnits_outside. }
  destruct (guardedBlock_cases env inp (fst (generateButton w)) (started inp w))
    as [(e & Ho & ->) | (Ho & ->)]; fold w3.
  - left. unfold restored, hideProgress, shownBytes, galleryImages. cbn. auto.
  - unfold restored, hideProgress, shownBytes, galleryImages.
    cbn [downloadHidden imageGallery allGeneratedImages set_progress set_generateButton].
    destruct (finalize_keeps env inp w3) as (Hkeep & _).
    pose proof (finalize_fields env inp w3) as Hfin.
    destruct (allGeneratedImages w3) as [|first rest] eqn:Hall.
    + left. destruct Hfin as (_ & _ & _ & Hg). rewrite Hg.
      unfold exec. rewrite finalize_run, Hall. cbn. auto.
    + right. destruct Hfin as (_ & _ & _ & Hdl & Hg).
      rewrite Hdl, Hg, Hgal, Hkeep. repeat split. discriminate.
Qed.

Lemma download_offered_iff_images_witness :
  downloadHidden
    (exec (generateImages noImagesEnv (mkInputs "a red fox" (Int 2) imagenModel false))
       freshWorld) = true
  /\ shownBytes
       (exec (generateImages noImagesEnv (mkInputs "a red fox" (Int 2) imagenModel false))
          freshWorld) = []
  /\ downloadHidden
       (exec (generateImages sunnyEnv (mkInputs "a red fox" (Int 2) imagenModel false))
          freshWorld) = false.
Proof.
  destruct (download_offered_iff_images noImagesEnv
              (mkInputs "a red fox" (Int 2) imagenModel false) freshWorld eq_refl)
    as [(Hh & _ & Hs & _) | (Hh & _)]; [| discriminate Hh].
  destruct (download_offered_iff_images sunnyEnv
              (mkInputs "a red fox" (Int 2) imagenModel false) freshWorld eq_refl)
    as [(Hh' & _) | (Hh' & _)]; [discriminate Hh' |].
  split; [exact Hh | split; [exact Hs | exact Hh']].
Defined.
